(** * THEIA CLI: parsers and change tracker of [theia-cli2.js]

    A shallow embedding of the output parsers ([parseConnections],
    [parseProcesses]) and of the polling cycle ([monitor]) of the host
    monitor, with the properties of the specification stated over them.

    Modelling conventions.
    - JavaScript strings are modelled as [string] (sequences of 8-bit
      characters); the whitespace class of [trim] and of the regular
      expression class [\s] is the ASCII one (TAB, LF, VT, FF, CR, SPACE),
      and [toUpperCase] maps the ASCII letters only. The domain of the
      development is therefore ASCII text, which is what the polled
      tools print: on a text with other characters (a no-break space,
      an accented letter) the primitives of JavaScript may differ from
      the ones below.
    - [parts[i]] on an array is the list lookup [parts !! i]; [undefined]
      is [None]; [x || d] is [orElse].
    - [Set] and [Map] objects keyed by strings are [gset string] and
      [gmap string Z]; instants returned by [Date.now()] are integers. *)

From Stdlib Require Import Ascii String ZArith.
From stdpp Require Import gmap strings list fin_maps.

Local Open Scope string_scope.
Local Open Scope list_scope.

(** ** JavaScript string primitives *)

Module Js.

Definition LF : ascii := "010"%char.
Definition QUOTE : ascii := "034"%char.
Definition COMMA : ascii := ","%char.

(** The white space and line terminator characters (ASCII part). *)
Definition isSpace (c : ascii) : bool :=
  let n := nat_of_ascii c in
  ((9 <=? n)%nat && (n <=? 13)%nat) || (n =? 32)%nat.

(** [s.trimStart()] *)
Fixpoint trimStart (s : string) : string :=
  match s with
  | String c s' => if isSpace c then trimStart s' else s
  | EmptyString => EmptyString
  end.

(** [s.trimEnd()]: a character is kept when it is not white space or
    when something remains after it. *)
Fixpoint trimEnd (s : string) : string :=
  match s with
  | String c s' =>
      match trimEnd s' with
      | EmptyString => if isSpace c then EmptyString else String c EmptyString
      | r => String c r
      end
  | EmptyString => EmptyString
  end.

(** [s.trim()] *)
Definition trim (s : string) : string := trimEnd (trimStart s).

(** Truthiness of a string: non-empty. *)
Definition truthy (s : string) : bool :=
  match s with EmptyString => false | _ => true end.

(** [s.split(sep)] for a one-character separator string. *)
Fixpoint split (sep : ascii) (s : string) : list string :=
  match s with
  | EmptyString => [EmptyString]
  | String c s' =>
      if Ascii.eqb c sep then EmptyString :: split sep s'
      else match split sep s' with
           | h :: t => String c h :: t
           | [] => [String c EmptyString]
           end
  end.

(** [s.split(/\s+/)]: [inSep] tells that the previous character belonged
    to a separator run, which has already closed the current token. *)
Fixpoint splitWsFrom (inSep : bool) (s : string) : list string :=
  match s with
  | EmptyString => [EmptyString]
  | String c s' =>
      if isSpace c then
        if inSep then splitWsFrom true s'
        else EmptyString :: splitWsFrom true s'
      else match splitWsFrom false s' with
           | h :: t => String c h :: t
           | [] => [String c EmptyString]
           end
  end.

Definition splitWs (s : string) : list string := splitWsFrom false s.

(** [s.startsWith(p)] *)
Fixpoint startsWith (p s : string) : bool :=
  match p, s with
  | EmptyString, _ => true
  | String a p', String b s' => Ascii.eqb a b && startsWith p' s'
  | String _ _, EmptyString => false
  end.

(** [s.includes(p)] *)
Fixpoint includes (p s : string) : bool :=
  startsWith p s ||
  match s with
  | String _ s' => includes p s'
  | EmptyString => false
  end.

(** [s.includes(c)] for a one-character string. *)
Fixpoint includesChar (c : ascii) (s : string) : bool :=
  match s with
  | String d s' => Ascii.eqb c d || includesChar c s'
  | EmptyString => false
  end.

(** [l.join(sep)] *)
Fixpoint join (sep : string) (l : list string) : string :=
  match l with
  | [] => EmptyString
  | [x] => x
  | x :: l' => x +:+ sep +:+ join sep l'
  end.

(** [s.toUpperCase()] on ASCII letters. *)
Definition upperChar (c : ascii) : ascii :=
  let n := nat_of_ascii c in
  if ((97 <=? n)%nat && (n <=? 122)%nat)%bool then ascii_of_nat (n - 32) else c.

Fixpoint toUpperCase (s : string) : string :=
  match s with
  | String c s' => String (upperChar c) (toUpperCase s')
  | EmptyString => EmptyString
  end.

(** [x || d] where [x] is a string or [undefined]. *)
Definition orElse (x : option string) (d : string) : string :=
  match x with
  | Some s => if truthy s then s else d
  | None => d
  end.

(** [x || y] where both may be [undefined]. *)
Definition orElseOpt (x y : option string) : option string :=
  match x with
  | Some s => if truthy s then x else y
  | None => y
  end.

(** Drop the first [n] characters. *)
Fixpoint dropChars (n : nat) (s : string) : string :=
  match n, s with
  | O, _ => s
  | S n', String _ s' => dropChars n' s'
  | S _, EmptyString => EmptyString
  end.

(** The first [n] characters. *)
Fixpoint takeChars (n : nat) (s : string) : string :=
  match n, s with
  | O, _ => EmptyString
  | S n', String c s' => String c (takeChars n' s')
  | S _, EmptyString => EmptyString
  end.

(** [s.replace(/^Q/, '')] where Q is the double-quote character. *)
Definition stripLeadingQuote (s : string) : string :=
  match s with
  | String c s' => if Ascii.eqb c QUOTE then s' else s
  | EmptyString => EmptyString
  end.

(** [s.replace(/Q$/, '')] where Q is the double-quote character. *)
Fixpoint stripTrailingQuote (s : string) : string :=
  match s with
  | EmptyString => EmptyString
  | String c EmptyString => if Ascii.eqb c QUOTE then EmptyString else s
  | String c s' => String c (stripTrailingQuote s')
  end.

(** [l.forEach((x, idx) => ...)] threading the state the callback
    mutates; [i] is the index of the head of [l]. *)
Fixpoint forEachFrom {A St : Type} (i : nat) (f : St -> A -> nat -> St)
    (l : list A) (s : St) : St :=
  match l with
  | [] => s
  | x :: l' => forEachFrom (S i) f l' (f s x i)
  end.

Definition forEach {A St : Type} (f : St -> A -> nat -> St) (l : list A) (s : St) : St :=
  forEachFrom 0 f l s.

End Js.

(** ** A backtracking matcher for the regular expressions of the source *)

Module Regex.

(** The fragment used by the source: literals, greedy [+] and [*] on a
    character class, capture groups and concatenation. *)
Inductive regex : Type :=
| Lit (s : string)
| Plus (cls : ascii -> bool)
| Star (cls : ascii -> bool)
| Group (r : regex)
| Seq (r1 r2 : regex).

(** Greedy repetition of a class: take the character when possible and
    fall back to stopping here when the continuation fails. *)
Fixpoint star {R : Type} (cls : ascii -> bool) (s : string)
    (k : string -> option R) : option R :=
  match s with
  | String c s' =>
      if cls c then
        match star cls s' k with
        | Some r => Some r
        | None => k s
        end
      else k s
  | EmptyString => k s
  end.

(** [run r s caps k]: match [r] at the start of [s]; [k] receives the
    rest of the input and the captures made so far. *)
Fixpoint run (r : regex) (s : string) (caps : list string)
    (k : string -> list string -> option (list string)) : option (list string) :=
  match r with
  | Lit l =>
      if Js.startsWith l s then k (Js.dropChars (String.length l) s) caps else None
  | Plus cls =>
      match s with
      | String c s' => if cls c then star cls s' (fun rest => k rest caps) else None
      | EmptyString => None
      end
  | Star cls => star cls s (fun rest => k rest caps)
  | Group r' =>
      run r' s caps (fun rest caps' =>
        k rest (caps' ++ [Js.takeChars (String.length s - String.length rest) s])%list)
  | Seq r1 r2 =>
      run r1 s caps (fun rest caps' => run r2 rest caps' k)
  end.

(** [s.match(r)] without the [g] flag: the captures of the leftmost
    match, or [None]. *)
Fixpoint exec (r : regex) (s : string) : option (list string) :=
  match run r s [] (fun _ caps => Some caps) with
  | Some caps => Some caps
  | None =>
      match s with
      | String _ s' => exec r s'
      | EmptyString => None
      end
  end.

End Regex.


(** ** Record model *)

(** [undefined] rendered by a template literal; the parsers below only
    read positions that their length tests have shown to exist. *)
Definition str (x : option string) : string := default "undefined" x.

(** [parts[i] === lit] *)
Definition tokenIs (parts : list string) (i : nat) (lit : string) : bool :=
match parts !! i with
| Some p => String.eqb p lit
| None => false
end.

Inductive OsType : Type := windows | mac | unix.

Module Conn.
Record t : Type := mk {
  protocol : string;
  local : string;
  remote : string;
  state : string;
  process : string;
  family : option string;
  id : string
}.
End Conn.

Module Proc.
Record t : Type := mk {
  name : string;
  pid : string;
  user : string;
  cpu : string;
  mem : string;
  id : string
}.
End Proc.

(** ** [parseConnections] *)

(** [output.split('\n').filter(line => line.trim())] *)
Definition nonEmptyLines (output : string) : list string :=
filter (fun line => Js.truthy (Js.trim line) = true) (Js.split Js.LF output).

(** Body of the Windows [forEach] callback (netstat lines). *)
Definition windowsConnectionLine (connections : list Conn.t) (line : string)
  : list Conn.t :=
let parts := Js.splitWs (Js.trim line) in
if tokenIs parts 0 "TCP" || tokenIs parts 0 "UDP" then
  let protocol := str (parts !! 0) in
  let local := str (parts !! 1) in
  let state := Js.orElse (parts !! 3) "N/A" in
  match parts !! 2 with
  | Some remote =>
      if Js.truthy remote && negb (String.eqb remote "0.0.0.0:0")
         && negb (String.eqb remote "*:*")
      then
        let connStr := protocol +:+ "|" +:+ local +:+ "|" +:+ remote +:+ "|" +:+ state in
        connections ++ [Conn.mk protocol local remote state "Unknown" None connStr]
      else connections
  | None => connections
  end
else connections.

Definition notDashGt (c : ascii) : bool :=
negb (Ascii.eqb c "-"%char) && negb (Ascii.eqb c ">"%char).

Definition notLParen (c : ascii) : bool := negb (Ascii.eqb c "("%char).

(** [/([^\->]+)->([^\(]+)\s*\(ESTABLISHED\)/] *)
Definition establishedPattern : Regex.regex :=
Regex.Seq (Regex.Group (Regex.Plus notDashGt))
 (Regex.Seq (Regex.Lit "->")
  (Regex.Seq (Regex.Group (Regex.Plus notLParen))
   (Regex.Seq (Regex.Star Js.isSpace) (Regex.Lit "(ESTABLISHED)")))).

(** Body of the macOS [forEach] callback (lsof lines). *)
Definition macConnectionLine (connections : list Conn.t) (line : string)
  : list Conn.t :=
if negb (Js.includes "TCP" line) || negb (Js.includes "ESTABLISHED" line)
then connections
else
  let parts := Js.splitWs (Js.trim line) in
  if (length parts <? 9)%nat then connections
  else
    let process := str (parts !! 0) in
    let pid := str (parts !! 1) in
    let type := parts !! 3 in
    let namePart := Js.join " " (drop 8 parts) in
    match Regex.exec establishedPattern namePart with
    | None => connections
    | Some m =>
        let local := Js.trim (str (m !! 0)) in
        let remote := Js.trim (str (m !! 1)) in
        let protocol := "TCP" in
        let state := "ESTABLISHED" in
        let connStr := protocol +:+ "|" +:+ local +:+ "|" +:+ remote +:+ "|"
                       +:+ state +:+ "|" +:+ process +:+ "|" +:+ pid in
        connections ++
          [Conn.mk protocol local remote state
                   (process +:+ " (" +:+ pid +:+ ")") type connStr]
    end.

(** Body of the Unix [forEach] callback (ss or netstat lines). *)
Definition unixConnectionLine (connections : list Conn.t) (line : string)
    (idx : nat) : list Conn.t :=
if (idx =? 0)%nat || negb (Js.includesChar ":"%char line) then connections
else
  let parts := Js.splitWs (Js.trim line) in
  if (5 <=? length parts)%nat then
    let protocol := Js.toUpperCase (Js.orElse (parts !! 0) "TCP") in
    let state := Js.orElse (parts !! 1) "ESTABLISHED" in
    let local := Js.orElseOpt (parts !! 4) (parts !! 3) in
    let remote := Js.orElseOpt (parts !! 5) (parts !! 4) in
    let process := Js.orElse (parts !! 6) "Unknown" in
    match local, remote with
    | Some local, Some remote =>
        if Js.truthy local && Js.truthy remote && negb (String.eqb remote "*")
           && negb (Js.includes "*:*" remote)
        then
          let connStr := protocol +:+ "|" +:+ local +:+ "|" +:+ remote +:+ "|" +:+ state in
          connections ++ [Conn.mk protocol local remote state process None connStr]
        else connections
    | _, _ => connections
    end
  else connections.

Definition parseConnections (output : string) (osType : OsType) : list Conn.t :=
let lines := nonEmptyLines output in
match osType with
| windows => Js.forEach (fun acc line _ => windowsConnectionLine acc line) lines []
| mac => Js.forEach (fun acc line _ => macConnectionLine acc line) lines []
| unix => Js.forEach unixConnectionLine lines []
end.

(** ** [parseProcesses] *)

(** State of the CSV character scanner: the fields pushed so far, the
    field being accumulated and the inside-quotes flag. *)
Record Scan : Type := mkScan {
  fields : list string;
  current : string;
  inQuotes : bool
}.

(** One iteration of [for (let char of line + ',')]. *)
Definition scanChar (s : Scan) (char : ascii) : Scan :=
if Ascii.eqb char Js.QUOTE && negb (inQuotes s) then
  mkScan (fields s) (current s) true
else if Ascii.eqb char Js.QUOTE && inQuotes s then
  mkScan (fields s) (current s) false
else if Ascii.eqb char Js.COMMA && negb (inQuotes s) then
  mkScan (fields s ++ [Js.trim (current s)]) EmptyString (inQuotes s)
else
  mkScan (fields s) (current s +:+ String char EmptyString) (inQuotes s).

Definition scanChars (text : string) (s : Scan) : Scan :=
fold_left scanChar (list_ascii_of_string text) s.

(** The fields of one CSV line, scanned with the trailing comma. *)
Definition csvFields (line : string) : list string :=
fields (scanChars (line +:+ ",") (mkScan [] EmptyString false)).

(** Body of the Windows [forEach] callback (tasklist CSV lines). *)
Definition windowsProcessLine (processes : list Proc.t) (line : string)
    (idx : nat) : list Proc.t :=
if (idx <? 1)%nat then processes
else
  let fields := csvFields line in
  if (2 <=? length fields)%nat then
    let name := Js.stripTrailingQuote (Js.stripLeadingQuote (str (fields !! 0))) in
    let pid := Js.stripTrailingQuote (Js.stripLeadingQuote (str (fields !! 1))) in
    let user := Js.orElse (fields !! 6) "N/A" in
    let cpu := Js.orElse (fields !! 7) "N/A" in
    let mem := Js.orElse (fields !! 4) "N/A" in
    let procStr := name +:+ "|" +:+ pid in
    processes ++ [Proc.mk name pid user cpu mem procStr]
  else processes.

(** Body of the Unix and macOS [forEach] callback (ps aux lines). *)
Definition unixProcessLine (processes : list Proc.t) (line : string)
    (idx : nat) : list Proc.t :=
if (idx =? 0)%nat then processes
else
  let parts := Js.splitWs (Js.trim line) in
  if (11 <=? length parts)%nat then
    let user := str (parts !! 0) in
    let pid := str (parts !! 1) in
    let cpu := str (parts !! 2) in
    let mem := str (parts !! 3) in
    let command := Js.join " " (drop 10 parts) in
    let procStr := command +:+ "|" +:+ pid in
    processes ++ [Proc.mk command pid user cpu mem procStr]
  else processes.

(** Everything pushed to [processes] before the final [slice]. *)
Definition collectProcesses (output : string) (osType : OsType) : list Proc.t :=
let lines := nonEmptyLines output in
match osType with
| windows => Js.forEach windowsProcessLine lines []
| _ => Js.forEach unixProcessLine lines []
end.

(** [processes.slice(0, 50)] *)
Definition parseProcesses (output : string) (osType : OsType) : list Proc.t :=
take 50 (collectProcesses output osType).

(** ** The polling cycle *)

Local Open Scope Z_scope.

(** Outcome of the child process started by [exec]: the callback gets an
    error, or the standard output and standard error texts. *)
Inductive CmdResult : Type :=
| Rejected (message : string)
| Resolved (stdout stderr : string).

Module Flags.
Record t : Type := mk { connections : bool; processes : bool }.
End Flags.

Module Commands.
Record t : Type := mk { connections : string; processes : string }.
End Commands.

Definition getCommands (osType : OsType) : Commands.t :=
match osType with
| windows => Commands.mk "netstat -ano" "tasklist /v /fo csv"
| unix =>
    Commands.mk "ss -tunap 2>/dev/null || netstat -tunap 2>/dev/null" "ps aux"
| mac => Commands.mk "lsof -iTCP -sTCP:ESTABLISHED -n -P" "ps aux"
end.

(** What the cycle writes to the terminal, without colours and layout:
    one event per block of [console] calls. The rows of a listing carry
    the [isNew] flag that selects the highlight. *)
Inductive Event : Type :=
| ConsoleWarn (text : string)
| ConsoleError (message : string)
| ClearScreen
| Header (monitoringMode : string)
| StatusLines (osType : OsType)
| ShowConnections (rows : list (Conn.t * bool))
| ShowProcesses (rows : list (Proc.t * bool))
| Footer.

(** The module-level variables of the change tracker. *)
Record State : Type := mkState {
  previousConnections : gset string;
  previousProcesses : gset string;
  newConnectionTimestamps : gmap string Z;
  newProcessTimestamps : gmap string Z
}.

Definition initialState : State := mkState ∅ ∅ ∅ ∅.

(** The two monitored kinds; the source repeats the same tracking code
    for each, on its own pair of variables. *)
Inductive Kind : Type := Connections | Processes.

Definition previous (k : Kind) (st : State) : gset string :=
match k with
| Connections => previousConnections st
| Processes => previousProcesses st
end.

Definition timestamps (k : Kind) (st : State) : gmap string Z :=
match k with
| Connections => newConnectionTimestamps st
| Processes => newProcessTimestamps st
end.

Definition setPrevious (k : Kind) (v : gset string) (st : State) : State :=
match k with
| Connections =>
    mkState v (previousProcesses st) (newConnectionTimestamps st) (newProcessTimestamps st)
| Processes =>
    mkState (previousConnections st) v (newConnectionTimestamps st) (newProcessTimestamps st)
end.

Definition setTimestamps (k : Kind) (v : gmap string Z) (st : State) : State :=
match k with
| Connections =>
    mkState (previousConnections st) (previousProcesses st) v (newProcessTimestamps st)
| Processes =>
    mkState (previousConnections st) (previousProcesses st) (newConnectionTimestamps st) v
end.

(** The world of one cycle: the tracker variables, the number of
    [Date.now()] calls made so far in the cycle and the terminal output. *)
Record World : Type := mkWorld {
  vars : State;
  reads : nat;
  console : list Event
}.

Inductive Result (A : Type) : Type :=
| Ok (a : A)
| Throw (message : string).
Arguments Ok {A} a.
Arguments Throw {A} message.

(** Computations that mutate the world and may throw. *)
Definition M (A : Type) : Type := World -> Result A * World.

#[global] Instance M_mret : MRet M := fun A a w => (Ok a, w).

#[global] Instance M_bind : MBind M := fun A B f m w =>
  match m w with
  | (Ok a, w') => f a w'
  | (Throw e, w') => (Throw e, w')
  end.

Definition gets {A : Type} (f : State -> A) : M A := fun w => (Ok (f (vars w)), w).

Definition modify (f : State -> State) : M unit :=
fun w => (Ok tt, mkWorld (f (vars w)) (reads w) (console w)).

Definition log (e : Event) : M unit :=
fun w => (Ok tt, mkWorld (vars w) (reads w) (console w ++ [e])).

Definition throw {A : Type} (message : string) : M A := fun w => (Throw message, w).

Fixpoint forEachM {A : Type} (f : A -> M unit) (l : list A) : M unit :=
match l with
| [] => mret tt
| x :: l' => f x ;; forEachM f l'
end.

Definition HIGHLIGHT_MS : Z := 30000.

(** [for (const [id, timestamp] of [...m.entries()])
      if (now - timestamp > 30000) m.delete(id)] *)
Definition sweepMap (now : Z) (m : gmap string Z) : gmap string Z :=
fold_left
  (fun acc entry => if now - entry.2 >? HIGHLIGHT_MS then delete entry.1 acc else acc)
  (map_to_list m) m.

(** [m.has(id) && (now - m.get(id)) < 30000] *)
Definition isNew (m : gmap string Z) (now : Z) (id : string) : bool :=
match m !! id with
| Some timestamp => now - timestamp <? HIGHLIGHT_MS
| None => false
end.

Section Cycle.

(** [clk n] is the value of the [n]-th call of [Date.now()] in the cycle;
    [run] is the outcome of the child process for a command line. *)
Variable clk : nat -> Z.
Variable run : string -> CmdResult.

Definition dateNow : M Z :=
fun w => (Ok (clk (reads w)), mkWorld (vars w) (S (reads w)) (console w)).

Definition executeCommand (command : string) : M string :=
match run command with
| Rejected message => throw message
| Resolved stdout stderr =>
    (if Js.truthy stderr && negb (Js.includes "Permission denied" stderr)
     then log (ConsoleWarn (Js.trim stderr))
     else mret tt) ;;
    mret stdout
end.

(** The diff against the previous poll:
    [items.forEach(x => { if (!previous.has(x.id)) stamps.set(x.id, Date.now()) });
     previous = currentIds]. *)
Definition stampIfNew (k : Kind) (id : string) : M unit :=
prev ← gets (previous k);
if decide (id ∈ prev) then mret tt
else
  now ← dateNow;
  modify (fun st => setTimestamps k (<[id := now]> (timestamps k st)) st).

Definition track (k : Kind) (ids : list string) : M unit :=
let currentIds : gset string := list_to_set ids in
forEachM (stampIfNew k) ids ;;
modify (setPrevious k currentIds).

Definition sweep : M Z :=
now ← dateNow;
modify (fun st => setTimestamps Connections (sweepMap now (timestamps Connections st)) st) ;;
modify (fun st => setTimestamps Processes (sweepMap now (timestamps Processes st)) st) ;;
mret now.

Definition displayConnections (connections : list Conn.t) : M unit :=
match connections with
| [] => log (ShowConnections [])
| _ =>
    now ← dateNow;
    stamps ← gets newConnectionTimestamps;
    log (ShowConnections
           (map (fun conn => (conn, isNew stamps now (Conn.id conn))) connections))
end.

Definition displayProcesses (processes : list Proc.t) : M unit :=
match processes with
| [] => log (ShowProcesses [])
| _ =>
    now ← dateNow;
    stamps ← gets newProcessTimestamps;
    log (ShowProcesses
           (map (fun proc => (proc, isNew stamps now (Proc.id proc))) processes))
end.

Definition monitoringMode (flags : Flags.t) : string :=
Js.join " + "
  ((if Flags.connections flags then ["Connections"] else []) ++
   (if Flags.processes flags then ["Processes"] else [])).

(** The [if (flags.connections)] block of [monitor]; its value is the
    local variable [connections]. *)
Definition pollConnections (osType : OsType) (flags : Flags.t) : M (list Conn.t) :=
if Flags.connections flags then
  connOutput ← executeCommand (Commands.connections (getCommands osType));
  let connections := parseConnections connOutput osType in
  track Connections (map Conn.id connections) ;;
  mret connections
else mret [].

(** The [if (flags.processes)] block of [monitor]; its value is the
    local variable [processes]. *)
Definition pollProcesses (osType : OsType) (flags : Flags.t) : M (list Proc.t) :=
if Flags.processes flags then
  procOutput ← executeCommand (Commands.processes (getCommands osType));
  let processes := parseProcesses procOutput osType in
  track Processes (map Proc.id processes) ;;
  mret processes
else mret [].

(** The first half of the [try] block of [monitor]: both polls. *)
Definition pollAll (osType : OsType) (flags : Flags.t)
  : M (list Conn.t * list Proc.t) :=
connections ← pollConnections osType flags;
processes ← pollProcesses osType flags;
mret (connections, processes).

(** The second half: rendering. *)
Definition render (osType : OsType) (flags : Flags.t)
    (connections : list Conn.t) (processes : list Proc.t) : M unit :=
log ClearScreen ;;
log (Header (monitoringMode flags)) ;;
log (StatusLines osType) ;;
(if Flags.connections flags then displayConnections connections else mret tt) ;;
(if Flags.processes flags then displayProcesses processes else mret tt) ;;
log Footer.

(** The [try] block of [monitor]. *)
Definition monitorBody (osType : OsType) (flags : Flags.t) : M unit :=
polled ← pollAll osType flags;
sweep ;;
render osType flags polled.1 polled.2.

(** [monitor]: the [catch] clause logs the message and returns. *)
Definition monitor (osType : OsType) (flags : Flags.t) (w : World) : World :=
match monitorBody osType flags w with
| (Ok _, w') => w'
| (Throw message, w') => mkWorld (vars w') (reads w') (console w' ++ [ConsoleError message])
end.

(** One timer tick: the tracker variables survive, the terminal output of
    the cycle is returned. *)
Definition tick (osType : OsType) (flags : Flags.t) (st : State)
  : State * list Event :=
let w := monitor osType flags (mkWorld st 0 []) in
(vars w, console w).

End Cycle.

(** ** Inputs of the examples of the specification *)

(** The lsof line of the specification. *)
Definition macLine : string :=
"chrome 12345 user 50u IPv6 0xabc 0t0 TCP [::1]:54321->example.com:443 (ESTABLISHED)".

(** A CSV field between double quotes. *)
Definition quoted (s : string) : string :=
String Js.QUOTE s +:+ String Js.QUOTE EmptyString.

(** The tasklist data line of the specification. *)
Definition tasklistLine : string :=
quoted "chrome.exe" +:+ "," +:+ quoted "1234" +:+ "," +:+ quoted "Console" +:+ ","
+:+ quoted "1" +:+ "," +:+ quoted "50,000 K" +:+ "," +:+ quoted "N/A" +:+ ","
+:+ quoted "user1" +:+ "," +:+ quoted "2".

(** Two lines of text. *)
Definition twoLines (l1 l2 : string) : string := l1 +:+ String Js.LF l2.

(** ** Sequences of polls *)

(** One timer tick seen from outside: the instant that every
    [Date.now()] of the cycle returns and the outcome of the commands. *)
Record Poll : Type := mkPoll {
  instant : Z;
  outcome : string -> CmdResult
}.

Definition tickAt (osType : OsType) (flags : Flags.t) (p : Poll) (st : State)
  : State * list Event :=
tick (fun _ => instant p) (outcome p) osType flags st.

(** The ticks of [first] and then of [later], from the variables [st]:
    the variables after the last tick and what the last tick displayed. *)
Fixpoint runPolls (osType : OsType) (flags : Flags.t) (first : Poll)
    (later : list Poll) (st : State) : State * list Event :=
match later with
| [] => tickAt osType flags first st
| p :: later' => runPolls osType flags p later' (tickAt osType flags first st).1
end.

Definition lastInstant (first : Poll) (later : list Poll) : Z :=
instant (default first (last later)).

Fixpoint nondecreasing (t : Z) (later : list Poll) : Prop :=
match later with
| [] => True
| p :: later' => t ≤ instant p ∧ nondecreasing (instant p) later'
end.

Definition enabled (k : Kind) (flags : Flags.t) : bool :=
match k with
| Connections => Flags.connections flags
| Processes => Flags.processes flags
end.

Definition commandOf (k : Kind) (osType : OsType) : string :=
match k with
| Connections => Commands.connections (getCommands osType)
| Processes => Commands.processes (getCommands osType)
end.

(** The identity keys of the records parsed from an output. *)
Definition polledIds (k : Kind) (osType : OsType) (stdout : string) : list string :=
match k with
| Connections => map Conn.id (parseConnections stdout osType)
| Processes => map Proc.id (parseProcesses stdout osType)
end.

(** The commands of a poll succeed. *)
Definition resolves (p : Poll) : Prop :=
∀ command, ∃ stdout stderr, outcome p command = Resolved stdout stderr.

(** The key [id] is among the records of kind [k] of a poll. *)
Definition presentIn (k : Kind) (osType : OsType) (id : string) (p : Poll) : Prop :=
∃ stdout stderr,
  outcome p (commandOf k osType) = Resolved stdout stderr ∧
  id ∈ polledIds k osType stdout.

(** The rows of kind [k] of a display event, as identity key and
    highlight flag. *)
Definition shownRows (k : Kind) (e : Event) : list (string * bool) :=
match k, e with
| Connections, ShowConnections rows => map (fun row => (Conn.id row.1, row.2)) rows
| Processes, ShowProcesses rows => map (fun row => (Proc.id row.1, row.2)) rows
| _, _ => []
end.

Definition annotations (k : Kind) (events : list Event) : list (string * bool) :=
mjoin (map (shownRows k) events).

Definition isWarning (e : Event) : Prop :=
match e with ConsoleWarn _ => True | _ => False end.

(** What the sweep leaves of an entry. *)
Definition swept (now : Z) (entry : option Z) : option Z :=
match entry with
| Some timestamp => if now - timestamp >? HIGHLIGHT_MS then None else Some timestamp
| None => None
end.

(** Between two worlds of a cycle only warnings were printed and the
    clock was only read. *)
Definition Grown (w w' : World) : Prop :=
(∃ warnings, console w' = console w ++ warnings ∧ Forall isWarning warnings) ∧
(reads w ≤ reads w')%nat.

(** The variables of kind [k] did not move. *)
Definition Kept (k : Kind) (w w' : World) : Prop :=
previous k (vars w') = previous k (vars w) ∧
timestamps k (vars w') = timestamps k (vars w).

(** The effect of the diff of kind [k] for the keys [ids] of the current
    poll: the previous set becomes the current one, the keys that were
    not in the previous set are stamped with an instant read during the
    diff, and the other entries do not move. *)
Definition Diffed (clk : nat -> Z) (k : Kind) (ids : list string)
    (w w' : World) : Prop :=
previous k (vars w') = list_to_set ids ∧
(∀ id, id ∈ ids → id ∉ previous k (vars w) →
       ∃ n, (reads w ≤ n < reads w')%nat ∧
            timestamps k (vars w') !! id = Some (clk n)) ∧
(∀ id, ¬ (id ∈ ids ∧ id ∉ previous k (vars w)) →
       timestamps k (vars w') !! id = timestamps k (vars w) !! id).

Definition Tracked (clk : nat -> Z) (k : Kind) (ids : list string)
    (w w' : World) : Prop :=
Grown w w' ∧ Diffed clk k ids w w' ∧ ∀ k', k' ≠ k → Kept k' w w'.

(** The identity keys of the local variables of [monitor]. *)
Definition polledOf (k : Kind) (connections : list Conn.t) (processes : list Proc.t)
  : list string :=
match k with
| Connections => map Conn.id connections
| Processes => map Proc.id processes
end.

(** The key [id], first stamped at [t0], has been present in every poll
    up to the one of instant [t]: it is in the previous set, and its
    entry is the one of [t0] until the sweep has removed it. *)
Definition Remembered (k : Kind) (id : string) (t0 t : Z) (st : State) : Prop :=
id ∈ previous k st ∧
((timestamps k st !! id = Some t0 ∧ t - t0 ≤ HIGHLIGHT_MS) ∨
 (timestamps k st !! id = None ∧ HIGHLIGHT_MS < t - t0)).

(** The key [id] is displayed, and every row that displays it carries the
    flag [expected]. *)
Definition ShownAs (k : Kind) (id : string) (expected : bool) (events : list Event)
  : Prop :=
(∃ flag, (id, flag) ∈ annotations k events) ∧
(∀ flag, (id, flag) ∈ annotations k events → flag = expected).

(** ** Predicates of the specification *)

Definition nonEmpty (s : string) : Prop := Js.truthy s = true.

Definition quoteFree (s : string) : Prop := Js.includesChar Js.QUOTE s = false.

(** The scanner never appends a quote character to a field. *)
Definition scanQuoteFree (s : Scan) : Prop :=
Forall quoteFree (fields s) ∧ quoteFree (current s).

(** The qualification of a netstat line in the words of the
    specification: first token TCP or UDP, at least four tokens, third
    token not an unspecified-address sentinel. *)
Definition specWindowsLineQualifies (line : string) : Prop :=
let parts := Js.splitWs (Js.trim line) in
(parts !! 0%nat = Some "TCP" ∨ parts !! 0%nat = Some "UDP") ∧
(4 ≤ length parts)%nat ∧
parts !! 2%nat ≠ Some "0.0.0.0:0" ∧ parts !! 2%nat ≠ Some "*:*".

(** The qualification that the Windows callback tests. *)
Definition windowsLineQualifies (line : string) : Prop :=
let parts := Js.splitWs (Js.trim line) in
(parts !! 0%nat = Some "TCP" ∨ parts !! 0%nat = Some "UDP") ∧
(3 ≤ length parts)%nat ∧
parts !! 2%nat ≠ Some "0.0.0.0:0" ∧ parts !! 2%nat ≠ Some "*:*".

(** The unspecified remote endpoints in the words of the specification:
    the any-address and any-port forms of the netstat format on Windows,
    the wildcard forms of the Unix tools elsewhere. *)
Definition unspecifiedRemote (osType : OsType) (remote : string) : bool :=
match osType with
| windows => String.eqb remote "0.0.0.0:0" || String.eqb remote "*:*"
| _ => String.eqb remote "*" || Js.includes "*:*" remote
end.

(** All the process records of an output, line after line, before the
    cap is applied. *)
Definition recordsInSourceOrder (output : string) (osType : OsType) : list Proc.t :=
mjoin (imap (fun idx line =>
               match osType with
               | windows => windowsProcessLine [] line idx
               | _ => unixProcessLine [] line idx
               end)
            (nonEmptyLines output)).

(** An lsof line whose peer is the wildcard endpoint. *)
Definition macWildcardLine : string :=
"nc 4242 user 3u IPv4 0xdef 0t0 TCP 10.0.0.1:5000->*:* (ESTABLISHED)".

(** A netstat line without a state column. *)
Definition netstatShortLine : string := "UDP 10.0.0.1:5353 10.0.0.2:5353".

(** A complete netstat line. *)
Definition netstatLine : string := "TCP 10.0.0.1:5000 10.0.0.2:443 ESTABLISHED 812".

(** ** Scenarios *)

(** The identity key of [netstatLine]. *)
Definition netstatKey : string := "TCP|10.0.0.1:5000|10.0.0.2:443|ESTABLISHED".

(** A connection is seen at instant 0, missing at 10000 and seen again
    at 20000. *)
Definition flickerPolls : list Poll :=
[ mkPoll 0 (fun _ => Resolved netstatLine EmptyString);
  mkPoll 10000 (fun _ => Resolved EmptyString EmptyString);
  mkPoll 20000 (fun _ => Resolved netstatLine EmptyString) ].

(** The variables after the polls of a list, one tick each. *)
Definition varsAfter (osType : OsType) (flags : Flags.t) (polls : list Poll)
    (st : State) : State :=
fold_left (fun st p => (tickAt osType flags p st).1) polls st.

(** The connection command fails and the process command succeeds. *)
Definition netstatFails (command : string) : CmdResult :=
if String.eqb command "netstat -ano" then Rejected "spawn netstat ENOENT"
else Resolved (twoLines "Image Name,PID" tasklistLine) EmptyString.

(** Tracker variables with two entries of different ages. *)
Definition agedState : State :=
mkState ∅ ∅ (<["old" := 5000]> (<["recent" := 20000]> ∅)) ∅.

(** A connection that is seen at the instants 0, 10000 and 30000. *)
Definition steadyFirst : Poll := mkPoll 0 (fun _ => Resolved netstatLine EmptyString).

Definition steadyLater : list Poll :=
[ mkPoll 10000 (fun _ => Resolved netstatLine EmptyString);
  mkPoll 30000 (fun _ => Resolved netstatLine EmptyString) ].

(** ** Start-up *)

(** [parseArgs], on the value of [process.argv]. *)
Definition parseArgs (argv : list string) : Flags.t :=
let args := drop 2 argv in
Js.forEach
  (fun flags arg _ =>
     let flags :=
       if String.eqb arg "-c" then Flags.mk true (Flags.processes flags) else flags in
     if String.eqb arg "-p" then Flags.mk (Flags.connections flags) true else flags)
  args (Flags.mk false false).

(** ** Further predicates on texts *)

(** Every character of the text is white space. *)
Fixpoint allSpace (s : string) : bool :=
match s with
| EmptyString => true
| String c s' => Js.isSpace c && allSpace s'
end.

(** Every character of the text is in the class. *)
Fixpoint everyChar (cls : ascii -> bool) (s : string) : bool :=
match s with
| EmptyString => true
| String c s' => cls c && everyChar cls s'
end.

(** The number of double-quote characters of a text. *)
Fixpoint quoteCount (s : string) : nat :=
match s with
| EmptyString => 0
| String c s' => (if Ascii.eqb c Js.QUOTE then 1 else 0) + quoteCount s'
end.

(** The empty scanner state. *)
Definition scanStart : Scan := mkScan [] EmptyString false.

(** Three blank lines. *)
Definition blankOutput : string := "  " +:+ String Js.LF (" " +:+ String Js.LF "   ").

(** A ps line with a command of three words. *)
Definition psLine : string :=
"root 4242 0.3 1.2 10000 2000 ? Ss 10:00 0:01 /usr/bin/python3 -m http.server".

(** An ss line with a process column. *)
Definition ssLine : string :=
"tcp ESTAB 0 0 10.0.0.1:22 10.0.0.2:5555 users:sshd".

(** A clock that stands at 0 and a connection command that always
    prints [netstatLine]. *)
Definition stillClock : nat -> Z := fun _ => 0.

Definition netstatRuns : string -> CmdResult :=
fun _ => Resolved netstatLine EmptyString.

(** A poll at 5000 whose commands print nothing. *)
Definition emptyPoll : Poll := mkPoll 5000 (fun _ => Resolved EmptyString EmptyString).

(** A poll at 10000 that shows the connection of [netstatLine]. *)
Definition netstatPoll : Poll := mkPoll 10000 netstatRuns.

(** A poll at 15000 whose connection command fails. *)
Definition failedPoll : Poll := mkPoll 15000 (fun _ => Rejected "spawn netstat ENOENT").

(** A poll at 20000 that shows the connection of [netstatLine]. *)
Definition lastPoll : Poll := mkPoll 20000 netstatRuns.

(** ** Line ends *)

Definition CR : ascii := "013"%char.

(** The lines of a text joined by line feeds. *)
Definition unlines (lines : list string) : string :=
Js.join (String Js.LF EmptyString) lines.

(** A line followed by a carriage return, as in the output of the
    Windows tools. *)
Definition withCR (line : string) : string := line +:+ String CR EmptyString.

Definition noLineFeed (line : string) : Prop := Js.includesChar Js.LF line = false.

(** The process command fails and the connection command prints
    [netstatLine]. *)
Definition tasklistFails (command : string) : CmdResult :=
if String.eqb command "tasklist /v /fo csv" then Rejected "spawn tasklist ENOENT"
else Resolved netstatLine EmptyString.

(** ** Cycles with a clock of their own *)

(** One timer tick seen from outside: the values that the successive
    calls of [Date.now()] return in the cycle, and the outcome of the
    commands. *)
Record Cycle : Type := mkCycle {
  clock : nat -> Z;
  answers : string -> CmdResult
}.

Definition tickOf (osType : OsType) (flags : Flags.t) (c : Cycle) (st : State)
  : State * list Event :=
tick (clock c) (answers c) osType flags st.

(** The world of a cycle after its two polls, before its sweep. *)
Definition polledWorld (osType : OsType) (flags : Flags.t) (c : Cycle) (st : State)
  : World :=
(pollAll (clock c) (answers c) osType flags (mkWorld st 0 [])).2.

(** The number of clock reads made by the polls of a cycle: the read of
    the sweep has this index. *)
Definition pollReads (osType : OsType) (flags : Flags.t) (c : Cycle) (st : State)
  : nat :=
reads (polledWorld osType flags c st).

(** The instant that the sweep of a cycle reads. *)
Definition viewInstant (osType : OsType) (flags : Flags.t) (c : Cycle) (st : State)
  : Z :=
clock c (pollReads osType flags c st).

(** The sweep and the annotations of a cycle read the same instant:
    every read from the one of the sweep on returns the same value. The
    reads of the insertion step are left free. *)
Definition oneView (osType : OsType) (flags : Flags.t) (c : Cycle) (st : State)
  : Prop :=
∀ n, (pollReads osType flags c st ≤ n)%nat → clock c n = viewInstant osType flags c st.

(** The entry of a key right after the insertion step of a cycle, before
    its sweep. *)
Definition stampedAt (k : Kind) (osType : OsType) (flags : Flags.t) (c : Cycle)
    (st : State) (id : string) : option Z :=
timestamps k (vars (polledWorld osType flags c st)) !! id.

(** The commands of the enabled kinds succeed. *)
Definition succeeds (osType : OsType) (flags : Flags.t) (c : Cycle) : Prop :=
∀ k, enabled k flags = true →
     ∃ stdout stderr, answers c (commandOf k osType) = Resolved stdout stderr.

(** The key [id] is among the records of kind [k] of a cycle. *)
Definition seenIn (k : Kind) (osType : OsType) (id : string) (c : Cycle) : Prop :=
∃ stdout stderr,
  answers c (commandOf k osType) = Resolved stdout stderr ∧
  id ∈ polledIds k osType stdout.

(** The ticks of [first] and then of [later], from the variables [st]:
    the variables after the last tick and what the last tick displayed. *)
Fixpoint runCycles (osType : OsType) (flags : Flags.t) (first : Cycle)
    (later : list Cycle) (st : State) : State * list Event :=
match later with
| [] => tickOf osType flags first st
| c :: later' => runCycles osType flags c later' (tickOf osType flags first st).1
end.

(** The instant read by the sweep of the last cycle of a run. *)
Fixpoint lastView (osType : OsType) (flags : Flags.t) (first : Cycle)
    (later : list Cycle) (st : State) : Z :=
match later with
| [] => viewInstant osType flags first st
| c :: later' => lastView osType flags c later' (tickOf osType flags first st).1
end.

(** Every cycle of a run succeeds, has the key [id], reads one instant
    for its sweep and its annotations, and these instants do not
    decrease from [before] on. *)
Fixpoint Steady (k : Kind) (osType : OsType) (flags : Flags.t) (id : string)
    (before : Z) (first : Cycle) (later : list Cycle) (st : State) : Prop :=
succeeds osType flags first ∧
seenIn k osType id first ∧
oneView osType flags first st ∧
before ≤ viewInstant osType flags first st ∧
match later with
| [] => True
| c :: later' =>
    Steady k osType flags id (viewInstant osType flags first st) c later'
           (tickOf osType flags first st).1
end.

(** A clock that returns 0 to the insertion step and 5000 afterwards. *)
Definition stampThenView : nat -> Z :=
fun n => match n with O => 0 | S _ => 5000 end.

(** The connection of [netstatLine] is stamped at 0 and displayed at
    5000, and polled again at 34000. *)
Definition stampedCycle : Cycle := mkCycle stampThenView netstatRuns.

Definition lateCycle : Cycle := mkCycle (fun _ => 34000) netstatRuns.

(** ** Properties of the string primitives *)

Section StringFacts.

Lemma trimStart_head s :
  Js.trimStart s = EmptyString ∨
  ∃ c r, Js.trimStart s = String c r ∧ Js.isSpace c = false.
Proof.
  induction s as [|c s IH]; cbn [Js.trimStart]; [by left|].
  destruct (Js.isSpace c) eqn:E; [exact IH|]. right. by exists c, s.
Qed.

Lemma trimEnd_unfold c s :
  Js.trimEnd (String c s) =
  match Js.trimEnd s with
  | EmptyString => if Js.isSpace c then EmptyString else String c EmptyString
  | r => String c r
  end.
Proof. done. Qed.

Lemma trimEnd_idem s : Js.trimEnd (Js.trimEnd s) = Js.trimEnd s.
Proof.
  induction s as [|c s IH]; [done|]. rewrite trimEnd_unfold.
  destruct (Js.trimEnd s) as [|d r] eqn:E.
  - destruct (Js.isSpace c) eqn:Ec; [done|]. cbn. by rewrite Ec.
  - rewrite trimEnd_unfold, IH. done.
Qed.

Lemma trimEnd_head c s :
  Js.isSpace c = false → ∃ r, Js.trimEnd (String c s) = String c r.
Proof.
  intros Ec. cbn [Js.trimEnd]. destruct (Js.trimEnd s); [rewrite Ec|]; eauto.
Qed.

Lemma trimEnd_fixed_tail c s :
  Js.trimEnd (String c s) = String c s →
  (s = EmptyString ∧ Js.isSpace c = false) ∨ (s ≠ EmptyString ∧ Js.trimEnd s = s).
Proof.
  cbn [Js.trimEnd]. destruct (Js.trimEnd s) as [|d r] eqn:E.
  - destruct (Js.isSpace c) eqn:Ec; [done|]. intros [= <-]. by left.
  - intros [= <-]. by right.
Qed.

Lemma splitWsFrom_cons b s : ∃ h t, Js.splitWsFrom b s = h :: t.
Proof.
  revert b. induction s as [|c s IH]; intros b; cbn [Js.splitWsFrom]; [eauto|].
  destruct (Js.isSpace c).
  - destruct b; [apply IH | eauto].
  - destruct (IH false) as (h & t & ->). eauto.
Qed.

Lemma splitWsFrom_fixed s :
  Js.trimEnd s = s → s ≠ EmptyString →
  Forall nonEmpty (Js.splitWsFrom true s) ∧
  (∀ c r, s = String c r → Js.isSpace c = false →
          Forall nonEmpty (Js.splitWsFrom false s)).
Proof.
  induction s as [|c s IH]; [done|]. intros Hfix _.
  destruct (trimEnd_fixed_tail _ _ Hfix) as [[-> Ec]|[Hne Hs]].
  - cbn. rewrite Ec. split; [|intros _ _ _ _]; by repeat constructor.
  - destruct (IH Hs Hne) as [IHt IHf]. cbn [Js.splitWsFrom].
    destruct (Js.isSpace c) eqn:Ec.
    + split; [done|]. intros c' r [= <- <-]. congruence.
    + assert (Forall nonEmpty (match Js.splitWsFrom false s with
                               | h :: t => String c h :: t
                               | [] => [String c EmptyString]
                               end)) as Hall.
      { destruct s as [|d s']; [done|].
        destruct (Js.isSpace d) eqn:Ed.
        - cbn [Js.splitWsFrom] in *. rewrite Ed in *.
          constructor; [done|exact IHt].
        - specialize (IHf d s' eq_refl Ed).
          destruct (Js.splitWsFrom false (String d s')) as [|h t]; [by repeat constructor|].
          apply Forall_cons in IHf as [_ Ht]. by constructor. }
      split; [exact Hall|]. intros _ _ _ _. exact Hall.
Qed.

(** The tokens of a trimmed line: a single empty token when the line is
    blank, and non-empty tokens otherwise. *)
Lemma tokens_nonEmpty line :
  let parts := Js.splitWs (Js.trim line) in
  (Js.trim line = EmptyString ∧ parts = [EmptyString]) ∨ Forall nonEmpty parts.
Proof.
  cbn zeta. unfold Js.splitWs, Js.trim.
  destruct (trimStart_head line) as [->|(c & r & -> & Ec)]; [by left|].
  right. destruct (trimEnd_head c r Ec) as [r' Hr'].
  pose proof (trimEnd_idem (String c r)) as Hid. rewrite Hr' in *.
  by eapply (splitWsFrom_fixed (String c r') Hid).
Qed.

Lemma tokenIs_spec parts i lit :
  tokenIs parts i lit = true ↔ parts !! i = Some lit.
Proof.
  unfold tokenIs. destruct (parts !! i) as [p|]; [|done].
  rewrite String.eqb_eq. split; congruence.
Qed.

Lemma forEachFrom_app {A B : Type} (f : list B → A → nat → list B) :
  (∀ acc x i, f acc x i = acc ++ f [] x i) →
  ∀ l i acc,
    Js.forEachFrom i f l acc = acc ++ mjoin (imap (λ j x, f [] x (i + j)%nat) l).
Proof.
  intros Hf l. induction l as [|x l IH]; intros i acc; cbn [Js.forEachFrom].
  - by rewrite app_nil_r.
  - rewrite IH, Hf. cbn. rewrite Nat.add_0_r, <- app_assoc.
    do 3 f_equal. apply imap_ext. intros j y _. cbn. f_equal. lia.
Qed.

Lemma forEach_app {A B : Type} (f : list B → A → nat → list B) :
  (∀ acc x i, f acc x i = acc ++ f [] x i) →
  ∀ l, Js.forEach f l [] = mjoin (imap (λ j x, f [] x j) l).
Proof.
  intros Hf l. unfold Js.forEach. by rewrite forEachFrom_app.
Qed.

Lemma elem_of_forEach {A B : Type} (f : list B → A → nat → list B) l r :
  (∀ acc x i, f acc x i = acc ++ f [] x i) →
  r ∈ Js.forEach f l [] ↔ ∃ i x, l !! i = Some x ∧ r ∈ f [] x i.
Proof.
  intros Hf. rewrite forEach_app by done. rewrite list_elem_of_join. split.
  - intros (rs & Hr & Hrs). apply elem_of_lookup_imap in Hrs as (i & x & -> & Hx). eauto.
  - intros (i & x & Hx & Hr). exists (f [] x i). split; [done|].
    apply elem_of_lookup_imap. eauto.
Qed.

End StringFacts.

(** ** The connection parsers *)

Section ConnectionParsers.

Lemma windowsConnectionLine_app acc line :
  windowsConnectionLine acc line = acc ++ windowsConnectionLine [] line.
Proof.
  unfold windowsConnectionLine.
  repeat (case_match; try done); by rewrite app_nil_r.
Qed.

Lemma unixConnectionLine_app acc line idx :
  unixConnectionLine acc line idx = acc ++ unixConnectionLine [] line idx.
Proof.
  unfold unixConnectionLine.
  repeat (case_match; try done); by rewrite app_nil_r.
Qed.

Lemma macConnectionLine_app acc line :
  macConnectionLine acc line = acc ++ macConnectionLine [] line.
Proof.
  unfold macConnectionLine.
  repeat (case_match; try done); by rewrite app_nil_r.
Qed.

(** What the Windows callback pushes for a line that passes its tests. *)
Lemma windowsConnectionLine_emits line r :
  r ∈ windowsConnectionLine [] line →
  let parts := Js.splitWs (Js.trim line) in
  ∃ remote,
    (tokenIs parts 0 "TCP" || tokenIs parts 0 "UDP") = true ∧
    parts !! 2%nat = Some remote ∧ remote ≠ "0.0.0.0:0" ∧ remote ≠ "*:*" ∧
    r = Conn.mk (str (parts !! 0%nat)) (str (parts !! 1%nat)) remote
          (Js.orElse (parts !! 3%nat) "N/A") "Unknown" None
          (str (parts !! 0%nat) +:+ "|" +:+ str (parts !! 1%nat) +:+ "|" +:+ remote
           +:+ "|" +:+ Js.orElse (parts !! 3%nat) "N/A").
Proof.
  unfold windowsConnectionLine. cbn zeta.
  destruct (tokenIs _ 0 "TCP" || tokenIs _ 0 "UDP") eqn:Hp; [|by intros ?%elem_of_nil].
  destruct (_ !! 2%nat) as [remote|] eqn:Hr; [|by intros ?%elem_of_nil].
  destruct (Js.truthy remote && _ && _) eqn:Hc; [|by intros ?%elem_of_nil].
  rewrite app_nil_l, list_elem_of_singleton. intros ->.
  apply andb_prop in Hc as [[_ H1]%andb_prop H2].
  apply negb_true_iff, String.eqb_neq in H1, H2. by exists remote.
Qed.

Lemma windowsLineQualifies_emits line :
  windowsLineQualifies line → ∃ r, windowsConnectionLine [] line = [r].
Proof.
  unfold windowsLineQualifies, windowsConnectionLine. cbn zeta.
  set (parts := Js.splitWs (Js.trim line)).
  intros (H0 & Hlen & Hz & Hs).
  assert ((tokenIs parts 0 "TCP" || tokenIs parts 0 "UDP") = true) as ->.
  { apply orb_true_iff. rewrite !tokenIs_spec. exact H0. }
  destruct (lookup_lt_is_Some_2 parts 2) as [remote Hr]; [lia|]. rewrite Hr.
  assert (Js.truthy remote = true) as ->.
  { pose proof (tokens_nonEmpty line) as Ht. cbn zeta in Ht. fold parts in Ht.
    destruct Ht as [[_ Hp]|Hall].
    - rewrite Hp in Hlen. cbn in Hlen. lia.
    - rewrite Forall_lookup in Hall. exact (Hall _ _ Hr). }
  assert (negb (remote =? "0.0.0.0:0")%string = true) as ->.
  { apply negb_true_iff, String.eqb_neq. congruence. }
  assert (negb (remote =? "*:*")%string = true) as ->.
  { apply negb_true_iff, String.eqb_neq. congruence. }
  cbn [andb app]. eauto.
Qed.

Lemma parseConnections_windows output r :
  r ∈ parseConnections output windows ↔
  ∃ line, line ∈ nonEmptyLines output ∧ r ∈ windowsConnectionLine [] line.
Proof.
  unfold parseConnections. cbn zeta.
  rewrite elem_of_forEach by (intros; apply windowsConnectionLine_app).
  split.
  - intros (i & line & Hl & Hr). exists line. split; [|done].
    apply list_elem_of_lookup. eauto.
  - intros (line & [i Hl]%list_elem_of_lookup & Hr). eauto.
Qed.

Lemma parseConnections_unix output r :
  r ∈ parseConnections output unix ↔
  ∃ idx line, nonEmptyLines output !! idx = Some line ∧
              r ∈ unixConnectionLine [] line idx.
Proof.
  unfold parseConnections. cbn zeta.
  by rewrite elem_of_forEach by (intros; apply unixConnectionLine_app).
Qed.

Lemma unixConnectionLine_remote line idx r :
  r ∈ unixConnectionLine [] line idx →
  Conn.remote r ≠ "*" ∧ Js.includes "*:*" (Conn.remote r) = false.
Proof.
  unfold unixConnectionLine. cbn zeta.
  repeat (case_match; try by intros ?%elem_of_nil).
  rewrite app_nil_l, list_elem_of_singleton. intros ->. cbn.
  repeat match goal with H : _ && _ = true |- _ => apply andb_prop in H as [? ?] end.
  split; [by apply String.eqb_neq, negb_true_iff | by apply negb_true_iff].
Qed.

End ConnectionParsers.

(** C1. On the lsof line of the specification the macOS parser yields
    one record with protocol TCP, local [::1]:54321, remote
    example.com:443 and owning process chrome (12345); its family field
    is the fourth token of the line, which is the descriptor column 50u,
    while the address family IPv6 is the fifth token. *)
Theorem C1_mac_example_family_is_fourth_token :
  parseConnections macLine mac =
    [Conn.mk "TCP" "[::1]:54321" "example.com:443" "ESTABLISHED" "chrome (12345)"
             (Some "50u") "TCP|[::1]:54321|example.com:443|ESTABLISHED|chrome|12345"] ∧
  Js.splitWs (Js.trim macLine) !! 3%nat = Some "50u" ∧
  Js.splitWs (Js.trim macLine) !! 4%nat = Some "IPv6".
Proof. by vm_compute. Qed.

(** C6, as stated, fails: a netstat line of three tokens does not
    qualify in the words of the specification, and the Windows parser
    emits a record for it. *)
Lemma C6_three_tokens_counterexample :
  ¬ ((∃ r, windowsConnectionLine [] netstatShortLine = [r]) ↔
     specWindowsLineQualifies netstatShortLine).
Proof.
  intros [Hemit _]. destruct Hemit as (_ & Hlen & _).
  - vm_compute. eauto.
  - vm_compute in Hlen. lia.
Qed.

(** C6, amended. The Windows connection parser emits a record for a line
    if and only if the first whitespace token of the line is TCP or UDP,
    the line has at least three tokens and the third token is neither
    0.0.0.0:0 nor *:*; the record then has the fourth token as its state,
    or N/A when there is no fourth token, and Unknown as its owning
    process; and the parser output is made of the records of the
    non-blank lines. *)
Theorem C6_windows_line_emits_iff (line : string) :
  let parts := Js.splitWs (Js.trim line) in
  ((∃ r, windowsConnectionLine [] line = [r]) ↔ windowsLineQualifies line) ∧
  (¬ windowsLineQualifies line → windowsConnectionLine [] line = []) ∧
  (∀ r, r ∈ windowsConnectionLine [] line →
        Conn.process r = "Unknown" ∧
        Conn.state r = default "N/A" (parts !! 3%nat)) ∧
  (∀ output r, r ∈ parseConnections output windows ↔
        ∃ l, l ∈ nonEmptyLines output ∧ windowsConnectionLine [] l = [r]).
Proof.
  cbn zeta. split; [split|split; [|split]].
  - intros [r Hr]. assert (r ∈ windowsConnectionLine [] line) as Hin.
    { rewrite Hr. by apply list_elem_of_singleton. }
    apply windowsConnectionLine_emits in Hin as (remote & Hp & Hrem & Hz & Hs & _).
    apply orb_true_iff in Hp. rewrite !tokenIs_spec in Hp.
    repeat split; [done| |congruence|congruence].
    by apply lookup_lt_Some in Hrem.
  - apply windowsLineQualifies_emits.
  - intros Hnq. destruct (windowsConnectionLine [] line) as [|r rest] eqn:E; [done|].
    exfalso. apply Hnq. assert (r ∈ windowsConnectionLine [] line) as Hin.
    { rewrite E. by left. }
    apply windowsConnectionLine_emits in Hin as (remote & Hp & Hrem & Hz & Hs & _).
    apply orb_true_iff in Hp. rewrite !tokenIs_spec in Hp.
    repeat split; [done| |congruence|congruence].
    by apply lookup_lt_Some in Hrem.
  - intros r Hin.
    apply windowsConnectionLine_emits in Hin as (remote & _ & Hrem & _ & _ & ->).
    cbn. split; [done|].
    destruct (Js.splitWs (Js.trim line) !! 3%nat) as [state|] eqn:E; [|done].
    cbn. destruct (tokens_nonEmpty line) as [[_ Hp]|Hall].
    + by rewrite Hp in E.
    + rewrite Forall_lookup in Hall. by rewrite (Hall _ _ E).
  - intros output r. rewrite parseConnections_windows.
    split; intros (l & Hl & Hr); exists l; (split; [done|]).
    + pose proof Hr as Hr'.
      apply windowsConnectionLine_emits in Hr' as (remote & Hp & Hrem & Hz & Hs & _).
      destruct (windowsLineQualifies_emits l) as [r' Hr''].
      { apply orb_true_iff in Hp. rewrite !tokenIs_spec in Hp.
        repeat split; [done| |congruence|congruence].
        by apply lookup_lt_Some in Hrem. }
      rewrite Hr'' in Hr |- *. apply list_elem_of_singleton in Hr. by subst.
    + rewrite Hr. by apply list_elem_of_singleton.
Qed.

Lemma C6_windows_line_emits_iff_witness :
  ∃ r, windowsConnectionLine [] netstatShortLine = [r] ∧
       Conn.process r = "Unknown" ∧ Conn.state r = "N/A".
Proof.
  destruct (C6_windows_line_emits_iff netstatShortLine) as ([_ Hemit] & _ & Hrec & _).
  destruct Hemit as [r Hr].
  - unfold windowsLineQualifies. vm_compute. repeat split; [by right|lia|done|done].
  - exists r. split; [done|]. apply Hrec. rewrite Hr. by left.
Defined.

(** C7, as stated, fails on macOS: the lsof branch applies no filter on
    the endpoints, and a line whose peer is the wildcard endpoint yields
    a record with that remote endpoint. *)
Lemma C7_mac_wildcard_counterexample :
  ∃ r, r ∈ parseConnections macWildcardLine mac ∧
       Conn.remote r = "*:*" ∧ unspecifiedRemote mac (Conn.remote r) = true.
Proof.
  eexists. split; [vm_compute; left|]. by vm_compute.
Qed.

(** C7, amended. For every input text, on Windows no record of the
    parser output has the remote endpoint 0.0.0.0:0 or *:*, and on Unix
    no record has the remote endpoint * or a remote endpoint containing
    *:*; the macOS parser filters no endpoint. *)
Theorem C7_no_unspecified_remote (output : string) (osType : OsType) (r : Conn.t) :
  osType ≠ mac →
  r ∈ parseConnections output osType →
  unspecifiedRemote osType (Conn.remote r) = false.
Proof.
  intros Hos Hr. destruct osType; [|done|].
  - apply parseConnections_windows in Hr as (line & _ & Hr).
    apply windowsConnectionLine_emits in Hr as (remote & _ & _ & Hz & Hs & ->).
    cbn. apply orb_false_iff. by rewrite !String.eqb_neq.
  - apply parseConnections_unix in Hr as (idx & line & _ & Hr).
    apply unixConnectionLine_remote in Hr as [Hstar Hinc].
    cbn. apply orb_false_iff. by rewrite String.eqb_neq.
Qed.

Lemma C7_no_unspecified_remote_witness :
  unspecifiedRemote windows "10.0.0.2:443" = false.
Proof.
  apply (C7_no_unspecified_remote netstatLine windows
           (Conn.mk "TCP" "10.0.0.1:5000" "10.0.0.2:443" "ESTABLISHED" "Unknown" None
                    "TCP|10.0.0.1:5000|10.0.0.2:443|ESTABLISHED")).
  - discriminate.
  - vm_compute. left.
Defined.

(** ** The process parsers *)

Section ProcessParsers.

Lemma windowsProcessLine_app acc line idx :
  windowsProcessLine acc line idx = acc ++ windowsProcessLine [] line idx.
Proof.
  unfold windowsProcessLine.
  repeat (case_match; try done); by rewrite app_nil_r.
Qed.

Lemma unixProcessLine_app acc line idx :
  unixProcessLine acc line idx = acc ++ unixProcessLine [] line idx.
Proof.
  unfold unixProcessLine.
  repeat (case_match; try done); by rewrite app_nil_r.
Qed.

Lemma collectProcesses_order output osType :
  collectProcesses output osType = recordsInSourceOrder output osType.
Proof.
  unfold collectProcesses, recordsInSourceOrder. cbn zeta.
  destruct osType.
  - apply forEach_app. intros. apply windowsProcessLine_app.
  - apply forEach_app. intros. apply unixProcessLine_app.
  - apply forEach_app. intros. apply unixProcessLine_app.
Qed.

Lemma split_first_line header rest :
  Js.includesChar Js.LF header = false →
  Js.split Js.LF (header +:+ String Js.LF rest) = header :: Js.split Js.LF rest.
Proof.
  induction header as [|c h IH]; [done|].
  cbn [Js.includesChar]. intros [Hc Hh]%orb_false_iff.
  change (String c h +:+ String Js.LF rest) with (String c (h +:+ String Js.LF rest)).
  cbn [Js.split]. rewrite (Ascii.eqb_sym c), Hc, (IH Hh). done.
Qed.

Lemma includesChar_append c s1 s2 :
  Js.includesChar c (s1 +:+ s2) = Js.includesChar c s1 || Js.includesChar c s2.
Proof.
  induction s1 as [|d s1 IH]; [done|].
  change (String d s1 +:+ s2) with (String d (s1 +:+ s2)).
  cbn [Js.includesChar]. by rewrite IH, orb_assoc.
Qed.

Lemma quoteFree_append s1 s2 : quoteFree s1 → quoteFree s2 → quoteFree (s1 +:+ s2).
Proof.
  unfold quoteFree. intros H1 H2. by rewrite includesChar_append, H1, H2.
Qed.

Lemma quoteFree_cons c s :
  quoteFree (String c s) ↔ Ascii.eqb Js.QUOTE c = false ∧ quoteFree s.
Proof. unfold quoteFree. cbn [Js.includesChar]. apply orb_false_iff. Qed.

Lemma quoteFree_trimStart s : quoteFree s → quoteFree (Js.trimStart s).
Proof.
  induction s as [|c s IH]; [done|]. intros H. cbn [Js.trimStart].
  destruct (Js.isSpace c); [|done]. apply IH. by apply quoteFree_cons in H as [_ ?].
Qed.

Lemma quoteFree_trimEnd s : quoteFree s → quoteFree (Js.trimEnd s).
Proof.
  induction s as [|c s IH]; [done|]. intros [Hc Hs]%quoteFree_cons.
  rewrite trimEnd_unfold. specialize (IH Hs).
  destruct (Js.trimEnd s) as [|d r].
  - destruct (Js.isSpace c); [done|]. by apply quoteFree_cons.
  - by apply quoteFree_cons.
Qed.

Lemma quoteFree_trim s : quoteFree s → quoteFree (Js.trim s).
Proof. intros H. by apply quoteFree_trimEnd, quoteFree_trimStart. Qed.

Lemma quoteFree_orElse x d :
  (∀ s, x = Some s → quoteFree s) → quoteFree d → quoteFree (Js.orElse x d).
Proof.
  intros Hx Hd. unfold Js.orElse. destruct x as [s|]; [|done].
  destruct (Js.truthy s); [by apply Hx|done].
Qed.

Lemma stripLeadingQuote_quoteFree s : quoteFree s → Js.stripLeadingQuote s = s.
Proof.
  destruct s as [|c s]; [done|]. intros [Hc _]%quoteFree_cons.
  cbn. by rewrite Ascii.eqb_sym, Hc.
Qed.

Lemma stripTrailingQuote_quoteFree s : quoteFree s → Js.stripTrailingQuote s = s.
Proof.
  induction s as [|c s IH]; [done|]. intros [Hc Hs]%quoteFree_cons.
  destruct s as [|d s].
  - cbn. by rewrite Ascii.eqb_sym, Hc.
  - change (Js.stripTrailingQuote (String c (String d s)))
      with (String c (Js.stripTrailingQuote (String d s))).
    by rewrite IH.
Qed.

Lemma scanChar_quoteFree s char : scanQuoteFree s → scanQuoteFree (scanChar s char).
Proof.
  intros [Hf Hc]. unfold scanChar.
  destruct (Ascii.eqb char Js.QUOTE) eqn:Eq.
  - destruct (inQuotes s); by split.
  - cbn [andb]. destruct (Ascii.eqb char Js.COMMA && negb (inQuotes s)).
    + split; [|done]. cbn. apply Forall_app. split; [done|].
      constructor; [|done]. by apply quoteFree_trim.
    + split; [done|]. cbn. apply quoteFree_append; [done|].
      apply quoteFree_cons. by rewrite Ascii.eqb_sym.
Qed.

Lemma scanChars_quoteFree text s : scanQuoteFree s → scanQuoteFree (scanChars text s).
Proof.
  unfold scanChars. revert s.
  induction (list_ascii_of_string text) as [|c l IH]; intros s Hs; [done|].
  cbn [fold_left]. by apply IH, scanChar_quoteFree.
Qed.

Lemma csvFields_quoteFree line : Forall quoteFree (csvFields line).
Proof.
  unfold csvFields. apply scanChars_quoteFree. by split.
Qed.

Lemma windowsProcessLine_emits line idx r :
  r ∈ windowsProcessLine [] line idx →
  ∃ name pid,
    csvFields line !! 0%nat = Some name ∧ csvFields line !! 1%nat = Some pid ∧
    r = Proc.mk name pid
          (Js.orElse (csvFields line !! 6%nat) "N/A")
          (Js.orElse (csvFields line !! 7%nat) "N/A")
          (Js.orElse (csvFields line !! 4%nat) "N/A")
          (name +:+ "|" +:+ pid).
Proof.
  unfold windowsProcessLine. cbn zeta.
  destruct (idx <? 1)%nat; [by intros ?%elem_of_nil|].
  destruct (2 <=? length (csvFields line))%nat eqn:Hlen; [|by intros ?%elem_of_nil].
  apply Nat.leb_le in Hlen.
  destruct (lookup_lt_is_Some_2 (csvFields line) 0) as [name Hn]; [lia|].
  destruct (lookup_lt_is_Some_2 (csvFields line) 1) as [pid Hp]; [lia|].
  pose proof (csvFields_quoteFree line) as Hall. rewrite Forall_lookup in Hall.
  rewrite Hn, Hp. cbn [str default].
  rewrite !stripLeadingQuote_quoteFree, !stripTrailingQuote_quoteFree by eauto.
  rewrite app_nil_l, list_elem_of_singleton. intros ->. eauto.
Qed.

Lemma split_single_line line :
  Js.includesChar Js.LF line = false → Js.split Js.LF line = [line].
Proof.
  induction line as [|c l IH]; [done|].
  cbn [Js.includesChar]. intros [Hc Hl]%orb_false_iff.
  cbn [Js.split]. by rewrite (Ascii.eqb_sym c), Hc, (IH Hl).
Qed.

(** A header line followed by one data line. *)
Lemma parseProcesses_two_lines header line :
  Js.includesChar Js.LF header = false → nonEmpty (Js.trim header) →
  Js.includesChar Js.LF line = false → nonEmpty (Js.trim line) →
  parseProcesses (twoLines header line) windows = take 50 (windowsProcessLine [] line 1).
Proof.
  intros Hh Hne Hl Hnl.
  unfold parseProcesses, collectProcesses, nonEmptyLines, twoLines.
  rewrite split_first_line, split_single_line by done.
  rewrite filter_cons_True by done. rewrite filter_cons_True by done.
  done.
Qed.

End ProcessParsers.

(** C8. For every input text and every platform the process parser
    returns at most 50 records, and they are a prefix of the records of
    the lines of the output taken in their order. *)
Theorem C8_process_cap_and_order (output : string) (osType : OsType) :
  (length (parseProcesses output osType) ≤ 50)%nat ∧
  parseProcesses output osType `prefix_of` recordsInSourceOrder output osType.
Proof.
  unfold parseProcesses. rewrite collectProcesses_order. split.
  - rewrite length_take. lia.
  - apply prefix_take.
Qed.

(** C9. After any header line, the tasklist line of the specification
    yields the record with name chrome.exe and pid 1234; the scanner
    produces its eight fields, the comma of the quoted memory field does
    not split it, and without the appended comma the last field is not
    flushed. *)
Theorem C9_tasklist_example (header : string) :
  Js.includesChar Js.LF header = false →
  nonEmpty (Js.trim header) →
  parseProcesses (twoLines header tasklistLine) windows =
    [Proc.mk "chrome.exe" "1234" "user1" "2" "50,000 K" "chrome.exe|1234"] ∧
  csvFields tasklistLine =
    ["chrome.exe"; "1234"; "Console"; "1"; "50,000 K"; "N/A"; "user1"; "2"] ∧
  fields (scanChars tasklistLine (mkScan [] EmptyString false)) =
    ["chrome.exe"; "1234"; "Console"; "1"; "50,000 K"; "N/A"; "user1"].
Proof.
  intros Hlf Hne. split; [|by vm_compute].
  rewrite parseProcesses_two_lines; by vm_compute.
Qed.

Lemma C9_tasklist_example_witness :
  parseProcesses (twoLines "Image Name,PID" tasklistLine) windows =
    [Proc.mk "chrome.exe" "1234" "user1" "2" "50,000 K" "chrome.exe|1234"].
Proof.
  apply (C9_tasklist_example "Image Name,PID"); by vm_compute.
Defined.

(** C10. Every field of every record emitted by the Windows process
    parser is free of double-quote characters: the scanner consumes the
    quotes without appending them, so every scanned field is free of
    them and stripping a leading and a trailing quote leaves it
    unchanged. *)
Theorem C10_windows_process_fields_quote_free :
  (∀ line field, field ∈ csvFields line →
     quoteFree field ∧
     Js.stripTrailingQuote (Js.stripLeadingQuote field) = field) ∧
  (∀ output r, r ∈ parseProcesses output windows →
     quoteFree (Proc.name r) ∧ quoteFree (Proc.pid r) ∧ quoteFree (Proc.user r) ∧
     quoteFree (Proc.cpu r) ∧ quoteFree (Proc.mem r) ∧ quoteFree (Proc.id r)).
Proof.
  split.
  - intros line field Hin.
    pose proof (csvFields_quoteFree line) as Hall. rewrite Forall_forall in Hall.
    specialize (Hall _ Hin). split; [done|].
    by rewrite stripLeadingQuote_quoteFree, stripTrailingQuote_quoteFree.
  - intros output r Hin. unfold parseProcesses in Hin.
    apply subseteq_take in Hin. unfold collectProcesses in Hin. cbn zeta in Hin.
    apply elem_of_forEach in Hin as (idx & line & _ & Hr);
      [|intros; apply windowsProcessLine_app].
    apply windowsProcessLine_emits in Hr as (name & pid & Hn & Hp & ->).
    pose proof (csvFields_quoteFree line) as Hall. rewrite Forall_lookup in Hall.
    cbn [Proc.name Proc.pid Proc.user Proc.cpu Proc.mem Proc.id].
    repeat split; try (apply quoteFree_orElse; [intros s Hs|done]); eauto.
    apply quoteFree_append; [eauto|]. apply quoteFree_append; [done|eauto].
Qed.

Lemma C10_windows_process_fields_quote_free_witness :
  quoteFree "chrome.exe" ∧ quoteFree "50,000 K".
Proof.
  destruct C10_windows_process_fields_quote_free as [_ Hrec].
  destruct (Hrec (twoLines "Image Name,PID" tasklistLine)
              (Proc.mk "chrome.exe" "1234" "user1" "2" "50,000 K" "chrome.exe|1234"))
    as (Hname & _ & _ & _ & Hmem & _).
  - vm_compute. left.
  - split; [exact Hname|exact Hmem].
Defined.

(** ** The change tracker *)

Section TrackerVariables.

Lemma previous_setTimestamps k k' v st :
  previous k' (setTimestamps k v st) = previous k' st.
Proof. by destruct k, k'. Qed.

Lemma timestamps_setTimestamps k v st : timestamps k (setTimestamps k v st) = v.
Proof. by destruct k. Qed.

Lemma timestamps_setTimestamps_ne k k' v st :
  k ≠ k' → timestamps k' (setTimestamps k v st) = timestamps k' st.
Proof. by destruct k, k'. Qed.

Lemma timestamps_setPrevious k k' v st :
  timestamps k' (setPrevious k v st) = timestamps k' st.
Proof. by destruct k, k'. Qed.

Lemma previous_setPrevious k v st : previous k (setPrevious k v st) = v.
Proof. by destruct k. Qed.

Lemma previous_setPrevious_ne k k' v st :
  k ≠ k' → previous k' (setPrevious k v st) = previous k' st.
Proof. by destruct k, k'. Qed.

Lemma sweep_fold_lookup now l (acc : gmap string Z) id :
  fold_left
    (fun acc entry => if now - entry.2 >? HIGHLIGHT_MS then delete entry.1 acc else acc)
    l acc !! id =
  if existsb (fun entry => bool_decide (entry.1 = id) && (now - entry.2 >? HIGHLIGHT_MS)) l
  then None else acc !! id.
Proof.
  revert acc. induction l as [|[key ts] l IH]; intros acc; [done|].
  cbn [fold_left existsb fst snd]. rewrite IH.
  destruct (existsb _ l); [by rewrite orb_true_r|]. rewrite orb_false_r.
  destruct (now - ts >? HIGHLIGHT_MS).
  - rewrite andb_true_r. case_bool_decide as Hk.
    + subst. by rewrite lookup_delete_eq.
    + by rewrite lookup_delete_ne.
  - by rewrite andb_false_r.
Qed.

(** The sweep deletes exactly the entries older than the window. *)
Lemma sweepMap_lookup now (m : gmap string Z) id :
  sweepMap now m !! id = swept now (m !! id).
Proof.
  unfold sweepMap. rewrite sweep_fold_lookup. unfold swept.
  destruct (existsb _ _) eqn:E.
  - apply existsb_exists in E as ([key ts] & Hin & Hc).
    apply andb_prop in Hc as [Hk Hold]. apply bool_decide_eq_true in Hk.
    cbn in Hk, Hold. subst key.
    apply list_elem_of_In, elem_of_map_to_list in Hin. by rewrite Hin, Hold.
  - destruct (m !! id) as [ts|] eqn:Hm; [|done].
    destruct (now - ts >? HIGHLIGHT_MS) eqn:Hold; [|done].
    assert (existsb (fun entry : string * Z =>
              bool_decide (entry.1 = id) && (now - entry.2 >? HIGHLIGHT_MS))
              (map_to_list m) = true) as E'; [|congruence].
    apply existsb_exists. exists (id, ts). split.
    + by apply list_elem_of_In, elem_of_map_to_list.
    + cbn. by rewrite bool_decide_eq_true_2, Hold.
Qed.

Lemma annotations_app k l1 l2 :
  annotations k (l1 ++ l2) = annotations k l1 ++ annotations k l2.
Proof.
  unfold annotations. by rewrite map_app, join_app.
Qed.

Lemma annotations_warnings k l : Forall isWarning l → annotations k l = [].
Proof.
  induction 1 as [|e l He _ IH]; [done|].
  change (e :: l) with ([e] ++ l). rewrite annotations_app, IH, app_nil_r.
  destruct e; try done; by destruct k.
Qed.

End TrackerVariables.

(** ** The steps of a cycle *)

Section CycleFacts.

Variable clk : nat → Z.
Variable run : string → CmdResult.

Lemma bind_Ok {A B : Type} (m : M A) (f : A → M B) w a w' :
  m w = (Ok a, w') → (m ≫= f) w = f a w'.
Proof. intros H. unfold mbind, M_bind. by rewrite H. Qed.

Lemma bind_Throw {A B : Type} (m : M A) (f : A → M B) w e w' :
  m w = (Throw e, w') → (m ≫= f) w = (Throw e, w').
Proof. intros H. unfold mbind, M_bind. by rewrite H. Qed.

Lemma executeCommand_resolved command stdout stderr w :
  run command = Resolved stdout stderr →
  ∃ warnings,
    executeCommand run command w =
      (Ok stdout, mkWorld (vars w) (reads w) (console w ++ warnings)) ∧
    Forall isWarning warnings.
Proof.
  intros Hrun. unfold executeCommand. rewrite Hrun.
  destruct (Js.truthy stderr && negb (Js.includes "Permission denied" stderr)).
  - exists [ConsoleWarn (Js.trim stderr)]. split; [done|]. by repeat constructor.
  - exists []. split; [|done]. rewrite app_nil_r. by destruct w.
Qed.

Lemma executeCommand_rejected command message w :
  run command = Rejected message →
  executeCommand run command w = (Throw message, w).
Proof. intros Hrun. unfold executeCommand. by rewrite Hrun. Qed.

Lemma stampIfNew_old k id w :
  id ∈ previous k (vars w) → stampIfNew clk k id w = (Ok tt, w).
Proof.
  intros Hin. unfold stampIfNew, mbind, M_bind, gets. by rewrite decide_True.
Qed.

Lemma stampIfNew_new k id w :
  id ∉ previous k (vars w) →
  stampIfNew clk k id w =
    (Ok tt, mkWorld (setTimestamps k (<[id := clk (reads w)]> (timestamps k (vars w))) (vars w))
                    (S (reads w)) (console w)).
Proof.
  intros Hin. unfold stampIfNew, mbind, M_bind, gets. by rewrite decide_False.
Qed.

(** The stamping loop alone: as [Tracked], with the previous set kept. *)
Lemma forEachM_stampIfNew k ids w :
  ∃ w', forEachM (stampIfNew clk k) ids w = (Ok tt, w') ∧
        console w' = console w ∧ (reads w ≤ reads w')%nat ∧
        (∀ k', previous k' (vars w') = previous k' (vars w)) ∧
        (∀ k', k' ≠ k → timestamps k' (vars w') = timestamps k' (vars w)) ∧
        (∀ id, id ∈ ids → id ∉ previous k (vars w) →
               ∃ n, (reads w ≤ n < reads w')%nat ∧
                    timestamps k (vars w') !! id = Some (clk n)) ∧
        (∀ id, ¬ (id ∈ ids ∧ id ∉ previous k (vars w)) →
               timestamps k (vars w') !! id = timestamps k (vars w) !! id).
Proof.
  revert w. induction ids as [|x ids IH]; intros w.
  - exists w. repeat split; try done.
    intros id Hin. by apply elem_of_nil in Hin.
  - cbn [forEachM]. destruct (decide (x ∈ previous k (vars w))) as [Hx|Hx].
    + destruct (IH w) as (w' & Hrun & Hc & Hr & Hp & Ho & Hnew & Hold).
      exists w'. rewrite (bind_Ok _ _ _ _ _ (stampIfNew_old k x w Hx)).
      repeat split; try done.
      * intros id [->|Hin]%elem_of_cons Hid; [done|]. by apply Hnew.
      * intros id Hid. apply Hold. intros [Hin Hnp]. apply Hid.
        split; [by right|done].
    + set (w1 := mkWorld
                   (setTimestamps k (<[x := clk (reads w)]> (timestamps k (vars w))) (vars w))
                   (S (reads w)) (console w)).
      destruct (IH w1) as (w' & Hrun & Hc & Hr & Hp & Ho & Hnew & Hold).
      exists w'. rewrite (bind_Ok _ _ _ _ _ (stampIfNew_new k x w Hx)). fold w1.
      cbn [vars reads console w1] in *.
      repeat split; try done.
      * lia.
      * intros k'. by rewrite Hp, previous_setTimestamps.
      * intros k' Hk. rewrite Ho by done. by apply timestamps_setTimestamps_ne.
      * intros id Hin Hid. destruct (decide (id ∈ ids)) as [Hin'|Hin'].
        -- destruct (Hnew id Hin') as (n & Hn & Hts).
           { by rewrite previous_setTimestamps. }
           exists n. split; [lia|done].
        -- apply elem_of_cons in Hin as [->|?]; [|done].
           exists (reads w). split; [lia|].
           rewrite Hold by (intros [? _]; done).
           by rewrite timestamps_setTimestamps, lookup_insert_eq.
      * intros id Hid. rewrite Hold.
        -- rewrite timestamps_setTimestamps. apply lookup_insert_ne.
           intros ->. apply Hid. split; [by left|done].
        -- rewrite previous_setTimestamps. intros [Hin Hnp]. apply Hid.
           split; [by right|done].
Qed.

Lemma track_spec k ids w :
  ∃ w', track clk k ids w = (Ok tt, w') ∧ Tracked clk k ids w w'.
Proof.
  destruct (forEachM_stampIfNew k ids w) as (w1 & Hrun & Hc & Hr & Hp & Ho & Hnew & Hold).
  exists (mkWorld (setPrevious k (list_to_set ids) (vars w1)) (reads w1) (console w1)).
  split.
  - unfold track. cbn zeta. by rewrite (bind_Ok _ _ _ _ _ Hrun).
  - unfold Tracked, Grown, Diffed, Kept. cbn [vars reads console]. repeat split.
    + exists []. by rewrite app_nil_r.
    + done.
    + apply previous_setPrevious.
    + intros id Hin Hid. rewrite timestamps_setPrevious. by apply Hnew.
    + intros id Hid. rewrite timestamps_setPrevious. by apply Hold.
    + rewrite previous_setPrevious_ne by done. apply Hp.
    + rewrite timestamps_setPrevious. by apply Ho.
Qed.

Lemma Grown_refl w : Grown w w.
Proof. split; [|done]. exists []. by rewrite app_nil_r. Qed.

Lemma Grown_trans w1 w2 w3 : Grown w1 w2 → Grown w2 w3 → Grown w1 w3.
Proof.
  intros [(e1 & H1 & F1) R1] [(e2 & H2 & F2) R2]. split; [|lia].
  exists (e1 ++ e2). split; [by rewrite H2, H1, app_assoc|by apply Forall_app].
Qed.

Lemma Kept_refl k w : Kept k w w.
Proof. done. Qed.

Lemma Diffed_then_Kept k ids w w1 w2 :
  Diffed clk k ids w w1 → Kept k w1 w2 → Grown w1 w2 → Diffed clk k ids w w2.
Proof.
  intros (Hp & Hnew & Hold) [Kp Kt] [_ Hr]. unfold Diffed. rewrite Kp, Kt.
  repeat split; [done| |done].
  intros id Hin Hid. destruct (Hnew id Hin Hid) as (n & Hn & Hts).
  exists n. split; [lia|done].
Qed.

Lemma Kept_then_Diffed k ids w w1 w2 :
  Kept k w w1 → Grown w w1 → Diffed clk k ids w1 w2 → Diffed clk k ids w w2.
Proof.
  intros [Kp Kt] [_ Hr] (Hp & Hnew & Hold). unfold Diffed.
  rewrite Kp, Kt in *. repeat split; [done| |done].
  intros id Hin Hid. destruct (Hnew id Hin Hid) as (n & Hn & Hts).
  exists n. split; [lia|done].
Qed.

Lemma pollConnections_resolved osType flags stdout stderr w :
  Flags.connections flags = true →
  run (commandOf Connections osType) = Resolved stdout stderr →
  ∃ w', pollConnections clk run osType flags w = (Ok (parseConnections stdout osType), w') ∧
        Tracked clk Connections (polledIds Connections osType stdout) w w'.
Proof.
  intros Hf Hrun. unfold pollConnections. rewrite Hf.
  destruct (executeCommand_resolved _ _ _ w Hrun) as (e & Hexec & He).
  rewrite (bind_Ok _ _ _ _ _ Hexec). cbn zeta.
  destruct (track_spec Connections (map Conn.id (parseConnections stdout osType))
              (mkWorld (vars w) (reads w) (console w ++ e))) as (w' & Ht & HG & HD & HK).
  exists w'. rewrite (bind_Ok _ _ _ _ _ Ht). split; [done|].
  split; [|done]. eapply Grown_trans; [|exact HG].
  split; [by exists e|done].
Qed.

Lemma pollProcesses_resolved osType flags stdout stderr w :
  Flags.processes flags = true →
  run (commandOf Processes osType) = Resolved stdout stderr →
  ∃ w', pollProcesses clk run osType flags w = (Ok (parseProcesses stdout osType), w') ∧
        Tracked clk Processes (polledIds Processes osType stdout) w w'.
Proof.
  intros Hf Hrun. unfold pollProcesses. rewrite Hf.
  destruct (executeCommand_resolved _ _ _ w Hrun) as (e & Hexec & He).
  rewrite (bind_Ok _ _ _ _ _ Hexec). cbn zeta.
  destruct (track_spec Processes (map Proc.id (parseProcesses stdout osType))
              (mkWorld (vars w) (reads w) (console w ++ e))) as (w' & Ht & HG & HD & HK).
  exists w'. rewrite (bind_Ok _ _ _ _ _ Ht). split; [done|].
  split; [|done]. eapply Grown_trans; [|exact HG].
  split; [by exists e|done].
Qed.

Lemma pollConnections_rejected osType flags message w :
  Flags.connections flags = true →
  run (commandOf Connections osType) = Rejected message →
  pollConnections clk run osType flags w = (Throw message, w).
Proof.
  intros Hf Hrun. unfold pollConnections. rewrite Hf.
  by rewrite (bind_Throw _ _ _ _ _ (executeCommand_rejected _ _ w Hrun)).
Qed.

Lemma pollProcesses_rejected osType flags message w :
  Flags.processes flags = true →
  run (commandOf Processes osType) = Rejected message →
  pollProcesses clk run osType flags w = (Throw message, w).
Proof.
  intros Hf Hrun. unfold pollProcesses. rewrite Hf.
  by rewrite (bind_Throw _ _ _ _ _ (executeCommand_rejected _ _ w Hrun)).
Qed.

(** Both polls when the commands of the enabled kinds succeed. *)
Lemma pollAll_resolved osType flags w :
  (∀ k, enabled k flags = true →
        ∃ stdout stderr, run (commandOf k osType) = Resolved stdout stderr) →
  ∃ connections processes w',
    pollAll clk run osType flags w = (Ok (connections, processes), w') ∧
    Grown w w' ∧
    ∀ k,
      (enabled k flags = true →
         ∃ stdout stderr,
           run (commandOf k osType) = Resolved stdout stderr ∧
           polledOf k connections processes = polledIds k osType stdout ∧
           Diffed clk k (polledIds k osType stdout) w w') ∧
      (enabled k flags = false →
         Kept k w w' ∧ polledOf k connections processes = []).
Proof.
  intros Hres. unfold pollAll.
  assert (∃ connections w1,
            pollConnections clk run osType flags w = (Ok connections, w1) ∧
            Grown w w1 ∧ Kept Processes w w1 ∧
            (Flags.connections flags = true →
               ∃ stdout stderr,
                 run (commandOf Connections osType) = Resolved stdout stderr ∧
                 map Conn.id connections = polledIds Connections osType stdout ∧
                 Diffed clk Connections (polledIds Connections osType stdout) w w1) ∧
            (Flags.connections flags = false → Kept Connections w w1 ∧ connections = []))
    as (connections & w1 & Hc & HG1 & HKp & Hon1 & Hoff1).
  { destruct (Flags.connections flags) eqn:Hf.
    - destruct (Hres Connections Hf) as (stdout & stderr & Hrun).
      destruct (pollConnections_resolved osType flags _ _ w Hf Hrun)
        as (w1 & Hp & HG & HD & HK).
      exists (parseConnections stdout osType), w1.
      repeat split; try done; try apply HG; try (by apply HK).
      intros _. by exists stdout, stderr.
    - exists [], w. unfold pollConnections. rewrite Hf.
      repeat split; try done. apply Grown_refl. }
  assert (∃ processes w2,
            pollProcesses clk run osType flags w1 = (Ok processes, w2) ∧
            Grown w1 w2 ∧ Kept Connections w1 w2 ∧
            (Flags.processes flags = true →
               ∃ stdout stderr,
                 run (commandOf Processes osType) = Resolved stdout stderr ∧
                 map Proc.id processes = polledIds Processes osType stdout ∧
                 Diffed clk Processes (polledIds Processes osType stdout) w1 w2) ∧
            (Flags.processes flags = false → Kept Processes w1 w2 ∧ processes = []))
    as (processes & w2 & Hp & HG2 & HKc & Hon2 & Hoff2).
  { destruct (Flags.processes flags) eqn:Hf.
    - destruct (Hres Processes Hf) as (stdout & stderr & Hrun).
      destruct (pollProcesses_resolved osType flags _ _ w1 Hf Hrun)
        as (w2 & Hp & HG & HD & HK).
      exists (parseProcesses stdout osType), w2.
      repeat split; try done; try apply HG; try (by apply HK).
      intros _. by exists stdout, stderr.
    - exists [], w1. unfold pollProcesses. rewrite Hf.
      repeat split; try done. apply Grown_refl. }
  exists connections, processes, w2.
  rewrite (bind_Ok _ _ _ _ _ Hc), (bind_Ok _ _ _ _ _ Hp).
  split; [done|]. split; [by eapply Grown_trans|].
  intros [|]; cbn [enabled polledOf]; split; intros Hf.
  - destruct (Hon1 Hf) as (stdout & stderr & Hrun & Hids & HD).
    exists stdout, stderr. repeat split; try done; try apply HD.
    all: eapply Diffed_then_Kept; eauto.
  - destruct (Hoff1 Hf) as [[Kp Kt] ->]. destruct HKc as [Kp' Kt'].
    split; [|done]. split; congruence.
  - destruct (Hon2 Hf) as (stdout & stderr & Hrun & Hids & HD).
    exists stdout, stderr. repeat split; try done.
    all: eapply Kept_then_Diffed; eauto.
  - destruct (Hoff2 Hf) as [[Kp Kt] ->]. destruct HKp as [Kp' Kt'].
    split; [|done]. split; congruence.
Qed.

(** The sweep reads the clock once and filters both maps with it. *)
Lemma sweep_spec w :
  ∃ w', sweep clk w = (Ok (clk (reads w)), w') ∧
        console w' = console w ∧ reads w' = S (reads w) ∧
        ∀ k, previous k (vars w') = previous k (vars w) ∧
             timestamps k (vars w') = sweepMap (clk (reads w)) (timestamps k (vars w)).
Proof.
  eexists. split; [reflexivity|]. cbn [vars reads console].
  split; [done|]. split; [done|]. intros k. by destruct k.
Qed.

(** Rendering leaves the tracker variables alone. *)
Lemma render_vars osType flags connections processes w :
  ∃ w', render clk osType flags connections processes w = (Ok tt, w') ∧
        vars w' = vars w.
Proof.
  destruct flags as [[] []], connections, processes; eexists; split; reflexivity.
Qed.

(** Rendering at a single instant: the rows of an enabled kind carry the
    flag computed from the tracker variables. *)
Lemma render_annotations t osType flags connections processes w :
  (∀ n, clk n = t) →
  ∃ w', render clk osType flags connections processes w = (Ok tt, w') ∧
        vars w' = vars w ∧
        ∀ k, annotations k (console w') =
             annotations k (console w) ++
             (if enabled k flags
              then map (fun id => (id, isNew (timestamps k (vars w)) t id))
                       (polledOf k connections processes)
              else []).
Proof.
  intros Hclk.
  destruct flags as [[] []], connections as [|c cs], processes as [|p ps];
    (eexists; split; [reflexivity|]; split; [reflexivity|]);
    intros k; cbn [console vars reads]; rewrite !annotations_app, ?Hclk;
    destruct k; cbn [enabled Flags.connections Flags.processes polledOf];
    unfold annotations; cbn [map mjoin list_join shownRows];
    rewrite ?app_nil_r, ?List.map_map; reflexivity.
Qed.

End CycleFacts.

(** ** Ticks at a single instant *)

Section Ticks.

Variable osType : OsType.
Variable flags : Flags.t.

(** One tick whose commands succeed, for an enabled kind. *)
Lemma tickAt_spec (k : Kind) (p : Poll) (st : State) :
  resolves p → enabled k flags = true →
  ∃ stdout stderr,
    outcome p (commandOf k osType) = Resolved stdout stderr ∧
    let ids := polledIds k osType stdout in
    let st' := (tickAt osType flags p st).1 in
    previous k st' = list_to_set ids ∧
    (∀ id, id ∈ ids → id ∉ previous k st →
           timestamps k st' !! id = swept (instant p) (Some (instant p))) ∧
    (∀ id, ¬ (id ∈ ids ∧ id ∉ previous k st) →
           timestamps k st' !! id = swept (instant p) (timestamps k st !! id)) ∧
    annotations k (tickAt osType flags p st).2 =
      map (fun id => (id, isNew (timestamps k st') (instant p) id)) ids.
Proof.
  intros Hres Hk. unfold tickAt, tick, monitor, monitorBody.
  set (clk := fun _ : nat => instant p).
  destruct (pollAll_resolved clk (outcome p) osType flags (mkWorld st 0 []))
    as (connections & processes & w1 & Hpoll & [(warnings & Hw & HF) _] & Hkinds).
  { intros k' _. apply Hres. }
  destruct (Hkinds k) as [Hon _].
  destruct (Hon Hk) as (stdout & stderr & Hrun & Hids & Hprev & Hnew & Hold).
  exists stdout, stderr. split; [done|]. cbn zeta.
  rewrite (bind_Ok _ _ _ _ _ Hpoll).
  destruct (sweep_spec clk w1) as (w2 & Hsweep & Hc2 & _ & Hvars).
  rewrite (bind_Ok _ _ _ _ _ Hsweep).
  destruct (render_annotations clk (instant p) osType flags connections processes w2)
    as (w3 & Hrender & Hv3 & Hrows); [done|].
  cbn [fst snd]. rewrite Hrender. cbn [fst snd]. rewrite Hv3.
  destruct (Hvars k) as [-> ->]. cbn [vars reads console] in *.
  repeat split.
  - done.
  - intros id Hin Hid. rewrite sweepMap_lookup.
    destruct (Hnew id Hin Hid) as (n & _ & ->). done.
  - intros id Hid. by rewrite sweepMap_lookup, Hold.
  - rewrite Hrows, Hk, Hc2, Hw, app_nil_l, annotations_warnings, app_nil_l by done.
    rewrite Hids. destruct (Hvars k) as [_ ->]. done.
Qed.

Lemma elem_of_rows (m : gmap string Z) t ids id flag :
  (id, flag) ∈ map (fun id => (id, isNew m t id)) ids ↔
  id ∈ ids ∧ flag = isNew m t id.
Proof.
  rewrite list_elem_of_In, in_map_iff. split.
  - intros (x & [= -> <-] & Hin). by apply list_elem_of_In in Hin.
  - intros [Hin ->]. exists id. split; [done|]. by apply list_elem_of_In.
Qed.

(** The first appearance of a key: stamped now and shown as new. *)
Lemma tickAt_first (k : Kind) (id : string) (p : Poll) (st : State) :
  enabled k flags = true → resolves p → presentIn k osType id p →
  id ∉ previous k st →
  Remembered k id (instant p) (instant p) (tickAt osType flags p st).1 ∧
  ShownAs k id true (tickAt osType flags p st).2.
Proof.
  intros Hk Hres (stdout & stderr & Hrun & Hin) Hid.
  destruct (tickAt_spec k p st Hres Hk)
    as (stdout' & stderr' & Hrun' & Hprev & Hnew & _ & Hrows).
  rewrite Hrun in Hrun'. injection Hrun' as <- <-.
  assert (timestamps k (tickAt osType flags p st).1 !! id = Some (instant p)) as Hts.
  { rewrite (Hnew id Hin Hid). unfold swept, HIGHLIGHT_MS.
    by replace (instant p - instant p)%Z with 0%Z by lia. }
  assert (isNew (timestamps k (tickAt osType flags p st).1) (instant p) id = true) as Hflag.
  { unfold isNew, HIGHLIGHT_MS. rewrite Hts.
    by replace (instant p - instant p)%Z with 0%Z by lia. }
  split; [split|split].
  - rewrite Hprev. by apply elem_of_list_to_set.
  - left. split; [done|]. unfold HIGHLIGHT_MS. lia.
  - exists true. rewrite Hrows. apply elem_of_rows. by rewrite Hflag.
  - intros flag. rewrite Hrows. intros [_ ->]%elem_of_rows. done.
Qed.

(** A later poll that still has the key: the entry is not refreshed and
    the flag follows the age. *)
Lemma tickAt_later (k : Kind) (id : string) (t0 t : Z) (p : Poll) (st : State) :
  enabled k flags = true → resolves p → presentIn k osType id p →
  Remembered k id t0 t st → (t ≤ instant p)%Z →
  Remembered k id t0 (instant p) (tickAt osType flags p st).1 ∧
  ShownAs k id (instant p - t0 <? HIGHLIGHT_MS)%Z (tickAt osType flags p st).2.
Proof.
  intros Hk Hres (stdout & stderr & Hrun & Hin) [Hid Hentry] Ht.
  destruct (tickAt_spec k p st Hres Hk)
    as (stdout' & stderr' & Hrun' & Hprev & _ & Hold & Hrows).
  rewrite Hrun in Hrun'. injection Hrun' as <- <-.
  specialize (Hold id (fun H => proj2 H Hid)).
  assert (Remembered k id t0 (instant p) (tickAt osType flags p st).1) as Hrem.
  { split; [rewrite Hprev; by apply elem_of_list_to_set|].
    rewrite Hold. unfold swept, HIGHLIGHT_MS in *.
    destruct Hentry as [[-> Hage]|[-> Hage]].
    - destruct (instant p - t0 >? 30000)%Z eqn:E; [right|left]; split; try done; lia.
    - right. split; [done|lia]. }
  split; [done|].
  assert (isNew (timestamps k (tickAt osType flags p st).1) (instant p) id
          = (instant p - t0 <? HIGHLIGHT_MS)%Z) as Hflag.
  { unfold isNew. destruct Hrem as [_ [[-> Hage]|[-> Hage]]]; [done|].
    symmetry. apply Z.ltb_ge. lia. }
  split.
  - eexists. rewrite Hrows. apply elem_of_rows. by rewrite Hflag.
  - intros flag. rewrite Hrows. intros [_ ->]%elem_of_rows. done.
Qed.

Lemma default_last_cons {A : Type} (later : list A) (p q : A) :
  default p (last (q :: later)) = default q (last later).
Proof.
  revert p q. induction later as [|r later IH]; intros p q; [done|].
  change (last (q :: r :: later)) with (last (r :: later)).
  by rewrite (IH p r), (IH q r).
Qed.

Lemma lastInstant_cons first p later :
  lastInstant first (p :: later) = lastInstant p later.
Proof. unfold lastInstant. by rewrite default_last_cons. Qed.

(** A run of polls that all have the key. *)
Lemma runPolls_later (k : Kind) (id : string) (t0 : Z) (later : list Poll) :
  enabled k flags = true →
  ∀ (first : Poll) (t : Z) (st : State),
    resolves first → Forall resolves later →
    presentIn k osType id first → Forall (presentIn k osType id) later →
    Remembered k id t0 t st → (t ≤ instant first)%Z →
    nondecreasing (instant first) later →
    ShownAs k id (lastInstant first later - t0 <? HIGHLIGHT_MS)%Z
            (runPolls osType flags first later st).2.
Proof.
  intros Hk. induction later as [|p later IH];
    intros first t st Hres Hresl Hin Hinl Hrem Ht Hmono.
  - by apply (tickAt_later k id t0 t first st).
  - cbn [runPolls]. rewrite lastInstant_cons.
    apply Forall_cons in Hresl as [Hresp Hresl].
    apply Forall_cons in Hinl as [Hinp Hinl].
    destruct Hmono as [Hle Hmono].
    destruct (tickAt_later k id t0 t first st Hk Hres Hin Hrem Ht) as [Hrem' _].
    by apply (IH p (instant first)).
Qed.

End Ticks.

(** C2, as stated, fails: when the connection command fails and the
    process command succeeds, the cycle only logs the error; the
    processes of the output are neither diffed nor displayed. *)
Lemma C2_abort_counterexample :
  let result := tick (fun _ => 1000%Z) netstatFails windows (Flags.mk true true) initialState in
  result.2 = [ConsoleError "spawn netstat ENOENT"] ∧
  annotations Processes result.2 = [] ∧
  previousProcesses result.1 = ∅ ∧
  polledIds Processes windows (twoLines "Image Name,PID" tasklistLine) = ["chrome.exe|1234"].
Proof. by vm_compute. Qed.

(** C2, amended. When the command of a kind fails during a cycle the
    error is caught and logged and the cycle ends there, without display
    and without sweep of either first-seen map. If the connection
    command fails the tracker variables are unchanged and the error is
    the only output. If the process command fails, after a connection
    poll that was disabled or succeeded, the output is made of warnings
    and of the error, and the process variables are unchanged; the
    connection variables are unchanged when connections are disabled,
    and otherwise they are diffed and not swept: the previous set is the
    set of the current keys, the keys that were not in the previous set
    are stamped, and every other entry is left as it was. *)
Theorem C2_failure_aborts_cycle (clk : nat → Z) (run : string → CmdResult)
    (osType : OsType) (flags : Flags.t) (st : State) (message : string) :
  (Flags.connections flags = true →
   run (commandOf Connections osType) = Rejected message →
   tick clk run osType flags st = (st, [ConsoleError message])) ∧
  (Flags.processes flags = true →
   run (commandOf Processes osType) = Rejected message →
   (Flags.connections flags = false ∨
    ∃ stdout stderr, run (commandOf Connections osType) = Resolved stdout stderr) →
   ∃ warnings,
     (tick clk run osType flags st).2 = warnings ++ [ConsoleError message] ∧
     Forall isWarning warnings ∧
     previous Processes (tick clk run osType flags st).1 = previous Processes st ∧
     timestamps Processes (tick clk run osType flags st).1 = timestamps Processes st ∧
     (Flags.connections flags = false →
      previous Connections (tick clk run osType flags st).1 = previous Connections st ∧
      timestamps Connections (tick clk run osType flags st).1
      = timestamps Connections st) ∧
     (∀ stdout stderr,
        Flags.connections flags = true →
        run (commandOf Connections osType) = Resolved stdout stderr →
        previous Connections (tick clk run osType flags st).1
        = list_to_set (polledIds Connections osType stdout) ∧
        (∀ id, id ∈ polledIds Connections osType stdout →
               id ∉ previous Connections st →
               ∃ n, timestamps Connections (tick clk run osType flags st).1 !! id
                    = Some (clk n)) ∧
        (∀ id, ¬ (id ∈ polledIds Connections osType stdout ∧
                  id ∉ previous Connections st) →
               timestamps Connections (tick clk run osType flags st).1 !! id
               = timestamps Connections st !! id))).
Proof.
  split.
  - intros Hf Hrun. unfold tick, monitor, monitorBody, pollAll.
    pose proof (pollConnections_rejected clk run osType flags message
                  (mkWorld st 0 []) Hf Hrun) as Hc.
    rewrite (bind_Throw _ _ _ _ _ (bind_Throw _ _ _ _ _ Hc)). done.
  - intros Hf Hrun Hconn.
    assert (∃ connections w1,
              pollConnections clk run osType flags (mkWorld st 0 []) = (Ok connections, w1) ∧
              Grown (mkWorld st 0 []) w1 ∧ Kept Processes (mkWorld st 0 []) w1 ∧
              (Flags.connections flags = false → Kept Connections (mkWorld st 0 []) w1) ∧
              (∀ stdout stderr,
                 Flags.connections flags = true →
                 run (commandOf Connections osType) = Resolved stdout stderr →
                 Diffed clk Connections (polledIds Connections osType stdout)
                        (mkWorld st 0 []) w1))
      as (connections & w1 & Hc & [(warnings & Hw & HF) _] & [Kp Kt] & Hoff & Hon).
    { destruct (Flags.connections flags) eqn:Hflag.
      - destruct Hconn as [Hno|(stdout & stderr & Hres)]; [discriminate|].
        destruct (pollConnections_resolved clk run osType flags _ _ (mkWorld st 0 [])
                    Hflag Hres) as (w1 & Hp & HG & HD & HK).
        exists (parseConnections stdout osType), w1. split; [done|].
        split; [done|]. split; [by apply HK|]. split; [discriminate|].
        intros stdout' stderr' _ Hres'. rewrite Hres in Hres'.
        by injection Hres' as <- <-.
      - exists [], (mkWorld st 0 []). unfold pollConnections. rewrite Hflag.
        split; [done|]. split; [apply Grown_refl|]. split; [done|].
        split; [done|discriminate]. }
    pose proof (pollProcesses_rejected clk run osType flags message w1 Hf Hrun) as Hp.
    exists warnings. unfold tick, monitor, monitorBody, pollAll.
    rewrite (bind_Throw _ _ _ _ _
               (eq_trans (bind_Ok _ _ _ _ _ Hc) (bind_Throw _ _ _ _ _ Hp))).
    cbn [vars console reads fst snd] in *.
    split; [by rewrite Hw|]. split; [done|]. split; [done|]. split; [done|].
    split; [exact Hoff|].
    intros stdout stderr Hflag Hres.
    destruct (Hon stdout stderr Hflag Hres) as (Hprev & Hnew & Hold).
    cbn [vars reads] in *. split; [done|]. split; [|done].
    intros id Hin Hid. destruct (Hnew id Hin Hid) as (n & _ & Hn). by exists n.
Qed.

Lemma C2_failure_aborts_cycle_witness :
  tick (fun _ => 1000%Z) netstatFails windows (Flags.mk true true) initialState
  = (initialState, [ConsoleError "spawn netstat ENOENT"]) ∧
  timestamps Connections
    (tick (fun _ => 40000%Z) tasklistFails windows (Flags.mk true true) agedState).1
    !! "old" = Some 5000%Z.
Proof.
  split.
  - by apply (C2_failure_aborts_cycle (fun _ => 1000%Z) netstatFails windows
                (Flags.mk true true) initialState "spawn netstat ENOENT").
  - destruct (C2_failure_aborts_cycle (fun _ => 40000%Z) tasklistFails windows
                (Flags.mk true true) agedState "spawn tasklist ENOENT") as [_ Hproc].
    destruct Hproc as (warnings & _ & _ & _ & _ & _ & Hconn).
    + reflexivity.
    + reflexivity.
    + right. by eexists _, _.
    + destruct (Hconn netstatLine EmptyString eq_refl eq_refl) as (_ & _ & Hold).
      rewrite (Hold "old"); [reflexivity|].
      intros [Hin _]. vm_compute in Hin.
      apply list_elem_of_singleton in Hin. discriminate Hin.
Defined.

(** C3, as stated, fails: a key that reappears within the highlight
    window after an absence of one poll still has its entry, and the
    insertion step replaces the stored instant by the current one. *)
Lemma C3_reappearance_counterexample :
  let flags := Flags.mk true false in
  let before := varsAfter windows flags (take 2 flickerPolls) initialState in
  let after := varsAfter windows flags flickerPolls initialState in
  newConnectionTimestamps before !! netstatKey = Some 0%Z ∧
  bool_decide (netstatKey ∈ previousConnections before) = false ∧
  polledIds Connections windows netstatLine = [netstatKey] ∧
  newConnectionTimestamps after !! netstatKey = Some 20000%Z ∧
  newConnectionTimestamps after !! netstatKey ≠ newConnectionTimestamps before !! netstatKey.
Proof. by vm_compute. Qed.

(** C3, amended. In every poll the insertion step stamps exactly the keys
    that are present in the current poll and absent from the previous
    set: each of them gets an instant read during the step, whether or
    not it already had an entry, and the entry of every other key is left
    as it was; the previous set becomes the set of the current keys. *)
Theorem C3_insertion_stamps_new_keys (clk : nat → Z) (k : Kind)
    (ids : list string) (w : World) :
  ∃ w', track clk k ids w = (Ok tt, w') ∧
        previous k (vars w') = list_to_set ids ∧
        (∀ id, id ∈ ids → id ∉ previous k (vars w) →
               ∃ n, (reads w ≤ n < reads w')%nat ∧
                    timestamps k (vars w') !! id = Some (clk n)) ∧
        (∀ id, ¬ (id ∈ ids ∧ id ∉ previous k (vars w)) →
               timestamps k (vars w') !! id = timestamps k (vars w) !! id).
Proof.
  destruct (track_spec clk k ids w) as (w' & Hrun & _ & HD & _).
  by exists w'.
Qed.

Lemma C3_insertion_stamps_new_keys_witness :
  ∃ w', track (fun _ => 20000%Z) Connections ["recent"] (mkWorld agedState 0 []) = (Ok tt, w') ∧
        ∃ n : nat, timestamps Connections (vars w') !! "recent" = Some ((fun _ : nat => 20000%Z) n).
Proof.
  destruct (C3_insertion_stamps_new_keys (fun _ => 20000%Z) Connections ["recent"]
              (mkWorld agedState 0 [])) as (w' & Hrun & _ & Hnew & _).
  exists w'. split; [exact Hrun|].
  destruct (Hnew "recent") as (n & _ & Hn).
  - by left.
  - cbn. apply not_elem_of_empty.
  - by exists n.
Defined.

(** C5. After the sweep of a cycle every entry that remains in the
    first-seen maps of both kinds has an age of at most 30000 ms at the
    instant that the sweep read, whether or not its key is in the
    current poll. *)
Theorem C5_sweep_bounds_age (clk : nat → Z) (run : string → CmdResult)
    (osType : OsType) (flags : Flags.t) (w w1 : World)
    (polled : list Conn.t * list Proc.t) :
  pollAll clk run osType flags w = (Ok polled, w1) →
  let now := clk (reads w1) in
  let w' := monitor clk run osType flags w in
  ∀ k id timestamp,
    timestamps k (vars w') !! id = Some timestamp → (now - timestamp ≤ 30000)%Z.
Proof.
  intros Hpoll now w' k id timestamp. subst now w'.
  unfold monitor, monitorBody. rewrite (bind_Ok _ _ _ _ _ Hpoll).
  destruct (sweep_spec clk w1) as (w2 & Hsweep & _ & _ & Hvars).
  rewrite (bind_Ok _ _ _ _ _ Hsweep).
  destruct (render_vars clk osType flags polled.1 polled.2 w2) as (w3 & Hrender & Hv3).
  rewrite Hrender, Hv3. destruct (Hvars k) as [_ ->].
  rewrite sweepMap_lookup. unfold swept, HIGHLIGHT_MS.
  destruct (timestamps k (vars w1) !! id) as [ts|]; [|done].
  destruct (clk (reads w1) - ts >? 30000)%Z eqn:E; [done|].
  intros [= <-]. lia.
Qed.

Lemma C5_sweep_bounds_age_witness : (40000 - 20000 ≤ 30000)%Z.
Proof.
  apply (C5_sweep_bounds_age (fun _ => 40000%Z) (fun _ => Resolved EmptyString EmptyString)
           windows (Flags.mk true true) (mkWorld agedState 0 [])
           (mkWorld agedState 0 []) ([], []) eq_refl Connections "recent" 20000%Z).
  by vm_compute.
Defined.

(** Polls that read one instant each: the flag of a key that stays
    present follows the age since the instant of its first poll. *)
Lemma runPolls_highlight_window (k : Kind) (osType : OsType) (flags : Flags.t)
    (st : State) (first : Poll) (later : list Poll) (id : string) :
  enabled k flags = true →
  resolves first → Forall resolves later →
  id ∉ previous k st →
  presentIn k osType id first → Forall (presentIn k osType id) later →
  nondecreasing (instant first) later →
  let shown := annotations k (runPolls osType flags first later st).2 in
  let age := (lastInstant first later - instant first)%Z in
  (∃ flag, (id, flag) ∈ shown) ∧
  (∀ flag, (id, flag) ∈ shown →
     ((age < 30000)%Z → flag = true) ∧ ((30000 ≤ age)%Z → flag = false)).
Proof.
  intros Hk Hres Hresl Hid Hin Hinl Hmono shown age.
  assert (ShownAs k id (age <? HIGHLIGHT_MS)%Z (runPolls osType flags first later st).2)
    as [Hex Hall].
  { subst age. destruct (tickAt_first osType flags k id first st Hk Hres Hin Hid)
      as [Hrem Hshown].
    destruct later as [|p later].
    - unfold lastInstant, HIGHLIGHT_MS. cbn [last default runPolls].
      by replace (instant first - instant first)%Z with 0%Z by lia.
    - cbn [runPolls]. rewrite lastInstant_cons.
      apply Forall_cons in Hresl as [Hresp Hresl].
      apply Forall_cons in Hinl as [Hinp Hinl].
      destruct Hmono as [Hle Hmono].
      by apply (runPolls_later osType flags k id (instant first) later Hk p (instant first)). }
  split; [exact Hex|]. intros flag Hflag. rewrite (Hall flag Hflag).
  unfold HIGHLIGHT_MS. split; intros Hage; [by apply Z.ltb_lt|by apply Z.ltb_ge].
Qed.

(** The highlight at the boundary of the window, computed: a key seen at
    0 and again at 29999 is still new, and at 30000 it no longer is. *)
Example highlight_boundary :
  annotations Connections
    (runPolls windows (Flags.mk true false) steadyFirst
       [mkPoll 29999 (fun _ => Resolved netstatLine EmptyString)] initialState).2
    = [(netstatKey, true)] ∧
  annotations Connections
    (runPolls windows (Flags.mk true false) steadyFirst steadyLater initialState).2
    = [(netstatKey, false)].
Proof. by vm_compute. Qed.

(** ** Further properties: start-up arguments *)

Section StartUp.

Lemma parseArgs_fold (l : list string) (i : nat) (flags : Flags.t) :
  let result :=
    Js.forEachFrom i
      (fun flags arg (_ : nat) =>
         let flags :=
           if String.eqb arg "-c" then Flags.mk true (Flags.processes flags) else flags in
         if String.eqb arg "-p" then Flags.mk (Flags.connections flags) true else flags)
      l flags in
  (Flags.connections result = true ↔ Flags.connections flags = true ∨ "-c" ∈ l) ∧
  (Flags.processes result = true ↔ Flags.processes flags = true ∨ "-p" ∈ l).
Proof.
  revert i flags. induction l as [|arg l IH]; intros i flags; cbn zeta.
  - cbn [Js.forEachFrom]. split; (split; [by left|]); by intros [?|?%elem_of_nil].
  - cbn [Js.forEachFrom]. cbn zeta in IH.
    match goal with |- context [Js.forEachFrom (S i) ?f l ?fl] =>
      destruct (IH (S i) fl) as [IHc IHp] end.
    rewrite IHc, IHp. clear IH IHc IHp. rewrite !elem_of_cons.
    destruct (String.eqb_spec arg "-c") as [Hc|Hc];
      destruct (String.eqb_spec arg "-p") as [Hp|Hp];
      cbn [Flags.connections Flags.processes];
      intuition (try congruence; auto).
Qed.

End StartUp.

(** X1. [parseArgs] turns the connections flag on exactly when -c is
    among the arguments after the first two of [process.argv], and the
    processes flag exactly when -p is; order, repetitions and other
    arguments do not matter. *)
Theorem X1_parseArgs_flags (argv : list string) :
  (Flags.connections (parseArgs argv) = true ↔ "-c" ∈ drop 2 argv) ∧
  (Flags.processes (parseArgs argv) = true ↔ "-p" ∈ drop 2 argv).
Proof.
  unfold parseArgs, Js.forEach. cbn zeta.
  destruct (parseArgs_fold (drop 2 argv) 0 (Flags.mk false false)) as [Hc Hp].
  cbn zeta in Hc, Hp. rewrite Hc, Hp. cbn [Flags.connections Flags.processes].
  intuition discriminate.
Qed.

Lemma X1_parseArgs_flags_witness :
  Flags.connections (parseArgs ["node"; "theia-cli.js"; "-x"; "-p"; "-c"; "-c"]) = true.
Proof.
  apply (X1_parseArgs_flags ["node"; "theia-cli.js"; "-x"; "-p"; "-c"; "-c"]).
  cbn [drop]. set_solver.
Defined.

(** ** Further properties: lines and blank input *)

Section Lines.

Lemma trimStart_allSpace s : allSpace s = true → Js.trimStart s = EmptyString.
Proof.
  induction s as [|c s IH]; [done|]. cbn [allSpace Js.trimStart].
  intros [-> Hs]%andb_prop. by apply IH.
Qed.

Lemma trim_allSpace s : allSpace s = true → Js.trim s = EmptyString.
Proof. intros H. unfold Js.trim. by rewrite trimStart_allSpace. Qed.

Lemma split_allSpace s :
  allSpace s = true → Forall (fun line => allSpace line = true) (Js.split Js.LF s).
Proof.
  induction s as [|c s IH]; [by repeat constructor|].
  cbn [allSpace Js.split]. intros [Hc Hs]%andb_prop. specialize (IH Hs).
  destruct (Ascii.eqb c Js.LF); [by constructor|].
  destruct (Js.split Js.LF s) as [|h t]; [by repeat constructor; cbn; rewrite Hc|].
  apply Forall_cons in IH as [Hh Ht]. constructor; [|done].
  cbn [allSpace]. by rewrite Hc, Hh.
Qed.

Lemma nonEmptyLines_allSpace output :
  allSpace output = true → nonEmptyLines output = [].
Proof.
  intros H. unfold nonEmptyLines.
  induction (split_allSpace output H) as [|line lines Hl _ IH]; [done|].
  rewrite filter_cons_False; [done|]. by rewrite trim_allSpace.
Qed.

Lemma forEachFrom_length {A B : Type} (f : list B → A → nat → list B) :
  (∀ acc x i, (length (f acc x i) ≤ S (length acc))%nat) →
  ∀ l i acc, (length (Js.forEachFrom i f l acc) ≤ length acc + length l)%nat.
Proof.
  intros Hf l. induction l as [|x l IH]; intros i acc; cbn [Js.forEachFrom length].
  - lia.
  - specialize (IH (S i) (f acc x i)). specialize (Hf acc x i). lia.
Qed.

Lemma forEach_length {A B : Type} (f : list B → A → nat → list B) l :
  (∀ acc x i, (length (f acc x i) ≤ S (length acc))%nat) →
  (length (Js.forEach f l []) ≤ length l)%nat.
Proof. intros Hf. apply (forEachFrom_length f Hf l 0 []). Qed.

Lemma forEach_length_header {A B : Type} (f : list B → A → nat → list B) l :
  (∀ acc x i, (length (f acc x i) ≤ S (length acc))%nat) →
  (∀ x, f [] x 0%nat = []) →
  (length (Js.forEach f l []) ≤ length l - 1)%nat.
Proof.
  intros Hf H0. destruct l as [|x l]; [done|].
  unfold Js.forEach. cbn [Js.forEachFrom length]. rewrite H0.
  pose proof (forEachFrom_length f Hf l 1 []) as Hl. cbn [length] in Hl. lia.
Qed.

Lemma windowsConnectionLine_length acc line :
  (length (windowsConnectionLine acc line) ≤ S (length acc))%nat.
Proof.
  unfold windowsConnectionLine.
  repeat case_match; rewrite ?length_app; cbn [length]; lia.
Qed.

Lemma macConnectionLine_length acc line :
  (length (macConnectionLine acc line) ≤ S (length acc))%nat.
Proof.
  unfold macConnectionLine.
  repeat case_match; rewrite ?length_app; cbn [length]; lia.
Qed.

Lemma unixConnectionLine_length acc line idx :
  (length (unixConnectionLine acc line idx) ≤ S (length acc))%nat.
Proof.
  unfold unixConnectionLine.
  repeat case_match; rewrite ?length_app; cbn [length]; lia.
Qed.

Lemma windowsProcessLine_length acc line idx :
  (length (windowsProcessLine acc line idx) ≤ S (length acc))%nat.
Proof.
  unfold windowsProcessLine.
  repeat case_match; rewrite ?length_app; cbn [length]; lia.
Qed.

Lemma unixProcessLine_length acc line idx :
  (length (unixProcessLine acc line idx) ≤ S (length acc))%nat.
Proof.
  unfold unixProcessLine.
  repeat case_match; rewrite ?length_app; cbn [length]; lia.
Qed.

End Lines.

(** X2. An output made of white space only (blank lines included)
    yields no connection record and no process record, on every
    platform. *)
Theorem X2_blank_output_yields_nothing (output : string) (osType : OsType) :
  allSpace output = true →
  parseConnections output osType = [] ∧ parseProcesses output osType = [].
Proof.
  intros H. unfold parseConnections, parseProcesses, collectProcesses. cbn zeta.
  rewrite nonEmptyLines_allSpace by done. by destruct osType.
Qed.

Lemma X2_blank_output_yields_nothing_witness :
  parseConnections blankOutput unix = [] ∧ parseProcesses blankOutput unix = [].
Proof. apply (X2_blank_output_yields_nothing blankOutput unix). reflexivity. Defined.

(** X3. Every parser yields at most one record per non-blank line; the
    Unix connection parser and both process parsers moreover never take
    a record from the first non-blank line, so that they yield at most
    one record less than there are non-blank lines. *)
Theorem X3_at_most_one_record_per_line (output : string) (osType : OsType) :
  (length (parseConnections output osType) ≤ length (nonEmptyLines output))%nat ∧
  (length (parseConnections output unix) ≤ length (nonEmptyLines output) - 1)%nat ∧
  (length (parseProcesses output osType) ≤ length (nonEmptyLines output) - 1)%nat.
Proof.
  split; [|split].
  - unfold parseConnections. cbn zeta. destruct osType; apply forEach_length; intros.
    + apply windowsConnectionLine_length.
    + apply macConnectionLine_length.
    + apply unixConnectionLine_length.
  - unfold parseConnections. cbn zeta. apply forEach_length_header; [|done].
    intros. apply unixConnectionLine_length.
  - unfold parseProcesses, collectProcesses. cbn zeta. rewrite length_take.
    etrans; [apply Nat.le_min_r|].
    destruct osType; apply forEach_length_header; try done; intros;
      first [apply windowsProcessLine_length | apply unixProcessLine_length].
Qed.

(** ** Further properties: the connection lines of macOS and Unix *)

Section MoreConnectionLines.

Lemma parseConnections_mac output r :
  r ∈ parseConnections output mac ↔
  ∃ line, line ∈ nonEmptyLines output ∧ r ∈ macConnectionLine [] line.
Proof.
  unfold parseConnections. cbn zeta.
  rewrite elem_of_forEach by (intros; apply macConnectionLine_app).
  split.
  - intros (i & line & Hl & Hr). exists line. split; [|done].
    apply list_elem_of_lookup. eauto.
  - intros (line & [i Hl]%list_elem_of_lookup & Hr). eauto.
Qed.

(** What the macOS callback pushes for a line that passes its tests. *)
Lemma macConnectionLine_emits line r :
  r ∈ macConnectionLine [] line →
  let parts := Js.splitWs (Js.trim line) in
  Js.includes "TCP" line = true ∧ Js.includes "ESTABLISHED" line = true ∧
  (9 ≤ length parts)%nat ∧
  ∃ name pid m,
    parts !! 0%nat = Some name ∧ parts !! 1%nat = Some pid ∧
    Regex.exec establishedPattern (Js.join " " (drop 8 parts)) = Some m ∧
    r = Conn.mk "TCP" (Js.trim (str (m !! 0%nat))) (Js.trim (str (m !! 1%nat)))
          "ESTABLISHED" (name +:+ " (" +:+ pid +:+ ")") (parts !! 3%nat)
          ("TCP|" +:+ Js.trim (str (m !! 0%nat)) +:+ "|" +:+ Js.trim (str (m !! 1%nat))
           +:+ "|ESTABLISHED|" +:+ name +:+ "|" +:+ pid).
Proof.
  unfold macConnectionLine. cbn zeta.
  destruct (Js.includes "TCP" line) eqn:Htcp; [|by intros ?%elem_of_nil].
  destruct (Js.includes "ESTABLISHED" line) eqn:Hest; [|by intros ?%elem_of_nil].
  cbn [negb orb].
  destruct (length (Js.splitWs (Js.trim line)) <? 9)%nat eqn:Hlen;
    [by intros ?%elem_of_nil|].
  apply Nat.ltb_ge in Hlen.
  destruct (Regex.exec establishedPattern _) as [m|] eqn:Hm; [|by intros ?%elem_of_nil].
  rewrite app_nil_l, list_elem_of_singleton. intros ->.
  destruct (lookup_lt_is_Some_2 (Js.splitWs (Js.trim line)) 0) as [name Hn]; [lia|].
  destruct (lookup_lt_is_Some_2 (Js.splitWs (Js.trim line)) 1) as [pid Hp]; [lia|].
  repeat split; try done. exists name, pid, m. rewrite Hn, Hp. done.
Qed.

Lemma length_dropChars n s :
  String.length (Js.dropChars n s) = (String.length s - n)%nat.
Proof.
  revert s. induction n as [|n IH]; intros s; cbn [Js.dropChars]; [lia|].
  destruct s as [|c s]; [done|]. cbn [String.length]. by rewrite IH.
Qed.

(** A successful greedy repetition has consumed characters of the class
    only. *)
Lemma star_Some {R : Type} cls s (k : string → option R) r :
  Regex.star cls s k = Some r →
  ∃ n, (n ≤ String.length s)%nat ∧ everyChar cls (Js.takeChars n s) = true ∧
       k (Js.dropChars n s) = Some r.
Proof.
  induction s as [|c s IH]; cbn [Regex.star].
  - intros H. exists 0%nat. by repeat split.
  - destruct (cls c) eqn:Hc.
    + destruct (Regex.star cls s k) as [r'|] eqn:Hs.
      * intros [= ->]. destruct (IH eq_refl) as (n & Hn & He & Hk).
        exists (S n). cbn [String.length Js.takeChars Js.dropChars everyChar].
        rewrite Hc, He. repeat split; [lia|done].
      * intros H. exists 0%nat. repeat split; [cbn; lia|done].
    + intros H. exists 0%nat. repeat split; [cbn; lia|done].
Qed.

Lemma takeChars_consumed c s n :
  (n ≤ String.length s)%nat →
  Js.takeChars (S (String.length s) - String.length (Js.dropChars n s)) (String c s)
  = String c (Js.takeChars n s).
Proof.
  intros Hn. rewrite length_dropChars.
  by replace (S (String.length s) - (String.length s - n))%nat with (S n) by lia.
Qed.

(** The two captures of a match of the pattern, started at the head of
    the text. *)
Lemma establishedPattern_run s m :
  Regex.run establishedPattern s [] (fun _ caps => Some caps) = Some m →
  ∃ g1 g2, m = [g1; g2] ∧
           everyChar notDashGt g1 = true ∧ everyChar notLParen g2 = true.
Proof.
  unfold establishedPattern. cbn [Regex.run].
  destruct s as [|c s]; [done|]. destruct (notDashGt c) eqn:Hc; [|done].
  intros (n & Hn & He & H)%star_Some. cbn beta in H.
  destruct (Js.startsWith "->" (Js.dropChars n s)); [|done].
  destruct (Js.dropChars (String.length "->") (Js.dropChars n s)) as [|d t] eqn:Ht;
    [done|].
  destruct (notLParen d) eqn:Hd; [|done].
  apply star_Some in H as (n2 & Hn2 & He2 & H). cbn beta in H.
  apply star_Some in H as (n3 & _ & _ & H). cbn beta in H.
  destruct (Js.startsWith "(ESTABLISHED)" _); [|done].
  injection H as <-.
  rewrite !takeChars_consumed by done.
  eexists _, _. split; [reflexivity|]. cbn [everyChar]. by rewrite Hc, He, Hd, He2.
Qed.

Lemma exec_Some r s m :
  Regex.exec r s = Some m →
  ∃ s', Regex.run r s' [] (fun _ caps => Some caps) = Some m.
Proof.
  induction s as [|c s IH]; cbn [Regex.exec].
  - destruct (Regex.run r EmptyString [] _) eqn:E; [|done]. intros [= <-]. eauto.
  - destruct (Regex.run r (String c s) [] _) eqn:E; [intros [= <-]; eauto|]. exact IH.
Qed.

Lemma everyChar_trimStart cls s :
  everyChar cls s = true → everyChar cls (Js.trimStart s) = true.
Proof.
  induction s as [|c s IH]; [done|]. cbn [Js.trimStart]. intros H.
  destruct (Js.isSpace c); [|done]. cbn [everyChar] in H.
  apply andb_prop in H as [_ H]. by apply IH.
Qed.

Lemma everyChar_trimEnd cls s :
  everyChar cls s = true → everyChar cls (Js.trimEnd s) = true.
Proof.
  induction s as [|c s IH]; [done|]. cbn [everyChar].
  intros [Hc Hs]%andb_prop. rewrite trimEnd_unfold. specialize (IH Hs).
  destruct (Js.trimEnd s) as [|d r].
  - destruct (Js.isSpace c); [done|]. cbn. by rewrite Hc.
  - cbn [everyChar] in *. by rewrite Hc, IH.
Qed.

Lemma everyChar_trim cls s : everyChar cls s = true → everyChar cls (Js.trim s) = true.
Proof. intros H. by apply everyChar_trimEnd, everyChar_trimStart. Qed.

Lemma everyChar_excludes cls c s :
  cls c = false → everyChar cls s = true → Js.includesChar c s = false.
Proof.
  intros Hc. induction s as [|d s IH]; [done|]. cbn [everyChar Js.includesChar].
  intros [Hd Hs]%andb_prop. rewrite (IH Hs), orb_false_r.
  destruct (Ascii.eqb_spec c d) as [->|]; [congruence|done].
Qed.

Lemma orElse_token (parts : list string) i d :
  Forall nonEmpty parts → Js.orElse (parts !! i) d = default d (parts !! i).
Proof.
  intros Hall. destruct (parts !! i) as [p|] eqn:E; [|done].
  rewrite Forall_lookup in Hall. cbn. by rewrite (Hall _ _ E).
Qed.

Lemma orElseOpt_token (parts : list string) i y :
  Forall nonEmpty parts →
  Js.orElseOpt (parts !! i) y = match parts !! i with Some p => Some p | None => y end.
Proof.
  intros Hall. destruct (parts !! i) as [p|] eqn:E; [|done].
  rewrite Forall_lookup in Hall. cbn. by rewrite (Hall _ _ E).
Qed.

Lemma tokens_nonEmpty_long line n :
  (2 ≤ n)%nat → (n ≤ length (Js.splitWs (Js.trim line)))%nat →
  Forall nonEmpty (Js.splitWs (Js.trim line)).
Proof.
  intros Hn Hlen. destruct (tokens_nonEmpty line) as [[_ Hp]|Hall]; [|done].
  rewrite Hp in Hlen. cbn in Hlen. lia.
Qed.

(** What the Unix callback pushes for a line that passes its tests. *)
Lemma unixConnectionLine_emits line idx r :
  r ∈ unixConnectionLine [] line idx →
  let parts := Js.splitWs (Js.trim line) in
  idx ≠ 0%nat ∧ Js.includesChar ":"%char line = true ∧
  ∃ p0 p1 p4,
    parts !! 0%nat = Some p0 ∧ parts !! 1%nat = Some p1 ∧ parts !! 4%nat = Some p4 ∧
    r = Conn.mk (Js.toUpperCase p0) p4 (default p4 (parts !! 5%nat)) p1
          (default "Unknown" (parts !! 6%nat)) None
          (Js.toUpperCase p0 +:+ "|" +:+ p4 +:+ "|" +:+ default p4 (parts !! 5%nat)
           +:+ "|" +:+ p1).
Proof.
  unfold unixConnectionLine. cbn zeta.
  destruct (idx =? 0)%nat eqn:Hidx; [by intros ?%elem_of_nil|].
  apply Nat.eqb_neq in Hidx.
  destruct (Js.includesChar ":" line) eqn:Hcolon; [|by intros ?%elem_of_nil].
  cbn [negb orb].
  destruct (5 <=? length (Js.splitWs (Js.trim line)))%nat eqn:Hlen;
    [|by intros ?%elem_of_nil].
  apply Nat.leb_le in Hlen.
  pose proof (tokens_nonEmpty_long line 5 ltac:(lia) Hlen) as Hall.
  destruct (lookup_lt_is_Some_2 (Js.splitWs (Js.trim line)) 0) as [p0 H0]; [lia|].
  destruct (lookup_lt_is_Some_2 (Js.splitWs (Js.trim line)) 1) as [p1 H1]; [lia|].
  destruct (lookup_lt_is_Some_2 (Js.splitWs (Js.trim line)) 4) as [p4 H4]; [lia|].
  rewrite !orElse_token, !orElseOpt_token by done. rewrite H0, H1, H4. cbn [default].
  assert (match Js.splitWs (Js.trim line) !! 5%nat with
          | Some p => Some p
          | None => Some p4
          end = Some (default p4 (Js.splitWs (Js.trim line) !! 5%nat))) as ->.
  { by destruct (_ !! 5%nat). }
  case_match; [|by intros ?%elem_of_nil].
  rewrite app_nil_l, list_elem_of_singleton. intros ->.
  repeat split; try done. by exists p0, p1, p4.
Qed.

End MoreConnectionLines.

(** X4. Every record of the macOS connection parser comes from a
    non-blank line that contains TCP and ESTABLISHED and has at least
    nine tokens; its protocol is TCP, its state ESTABLISHED, its owning
    process is the first token followed by the second between
    parentheses, its family is the fourth token, and its identity key is
    made of its protocol, local, remote, state and of the first two
    tokens. In particular an output none of whose lines contains
    ESTABLISHED yields no record. *)
Theorem X4_mac_record_shape (output : string) :
  (∀ r, r ∈ parseConnections output mac →
     ∃ line name pid,
       line ∈ nonEmptyLines output ∧
       Js.includes "TCP" line = true ∧ Js.includes "ESTABLISHED" line = true ∧
       (9 ≤ length (Js.splitWs (Js.trim line)))%nat ∧
       Js.splitWs (Js.trim line) !! 0%nat = Some name ∧
       Js.splitWs (Js.trim line) !! 1%nat = Some pid ∧
       Conn.protocol r = "TCP" ∧ Conn.state r = "ESTABLISHED" ∧
       Conn.process r = name +:+ " (" +:+ pid +:+ ")" ∧
       Conn.family r = Js.splitWs (Js.trim line) !! 3%nat ∧
       Conn.id r = Conn.protocol r +:+ "|" +:+ Conn.local r +:+ "|" +:+ Conn.remote r
                   +:+ "|" +:+ Conn.state r +:+ "|" +:+ name +:+ "|" +:+ pid) ∧
  ((∀ line, line ∈ nonEmptyLines output → Js.includes "ESTABLISHED" line = false) →
   parseConnections output mac = []).
Proof.
  split.
  - intros r (line & Hline & Hr)%parseConnections_mac.
    apply macConnectionLine_emits in Hr
      as (Htcp & Hest & Hlen & name & pid & m & Hn & Hp & _ & ->).
    exists line, name, pid. by repeat split.
  - intros Hno. destruct (parseConnections output mac) as [|r rest] eqn:E; [done|].
    assert (r ∈ parseConnections output mac) as Hin by (rewrite E; left).
    apply parseConnections_mac in Hin as (line & Hline & Hr).
    apply macConnectionLine_emits in Hr as (_ & Hest & _).
    by rewrite (Hno line Hline) in Hest.
Qed.

Lemma X4_mac_record_shape_witness :
  ∃ line name pid,
    line ∈ nonEmptyLines macLine ∧
    Js.splitWs (Js.trim line) !! 0%nat = Some name ∧
    Js.splitWs (Js.trim line) !! 1%nat = Some pid ∧
    "chrome (12345)" = name +:+ " (" +:+ pid +:+ ")".
Proof.
  destruct (X4_mac_record_shape macLine) as [Hshape _].
  destruct (Hshape (Conn.mk "TCP" "[::1]:54321" "example.com:443" "ESTABLISHED"
                      "chrome (12345)" (Some "50u")
                      "TCP|[::1]:54321|example.com:443|ESTABLISHED|chrome|12345"))
    as (line & name & pid & Hl & _ & _ & _ & Hn & Hp & _ & _ & Hproc & _).
  - vm_compute. left.
  - by exists line, name, pid.
Defined.

(** X5. In every record of the macOS connection parser the local
    endpoint contains neither a hyphen nor a greater-than sign and the
    remote endpoint contains no opening parenthesis: they are the
    trimmed captures of the two character classes of the pattern. *)
Theorem X5_mac_endpoint_characters (output : string) (r : Conn.t) :
  r ∈ parseConnections output mac →
  Js.includesChar "-"%char (Conn.local r) = false ∧
  Js.includesChar ">"%char (Conn.local r) = false ∧
  Js.includesChar "("%char (Conn.remote r) = false.
Proof.
  intros (line & _ & Hr)%parseConnections_mac.
  apply macConnectionLine_emits in Hr
    as (_ & _ & _ & name & pid & m & _ & _ & Hm & ->).
  apply exec_Some in Hm as (s' & Hrun).
  apply establishedPattern_run in Hrun as (g1 & g2 & -> & H1 & H2).
  cbn [Conn.local Conn.remote lookup list_lookup str default].
  repeat split.
  - by apply (everyChar_excludes notDashGt), everyChar_trim.
  - by apply (everyChar_excludes notDashGt), everyChar_trim.
  - by apply (everyChar_excludes notLParen), everyChar_trim.
Qed.

Lemma X5_mac_endpoint_characters_witness :
  Js.includesChar "-"%char "[::1]:54321" = false ∧
  Js.includesChar ">"%char "[::1]:54321" = false ∧
  Js.includesChar "("%char "example.com:443" = false.
Proof.
  apply (X5_mac_endpoint_characters macLine
           (Conn.mk "TCP" "[::1]:54321" "example.com:443" "ESTABLISHED"
              "chrome (12345)" (Some "50u")
              "TCP|[::1]:54321|example.com:443|ESTABLISHED|chrome|12345")).
  vm_compute. left.
Defined.

(** X6. Every record of the Unix connection parser comes from a
    non-blank line other than the first one, which contains a colon and
    has at least five tokens: the protocol is the first token in upper
    case, the state the second token, the local endpoint the fifth
    token, the remote endpoint the sixth token or else the fifth one,
    and the process the seventh token or else Unknown. The defaults TCP
    and ESTABLISHED and the fall-back of the local endpoint to the
    fourth token are never used. *)
Theorem X6_unix_record_shape (output : string) (r : Conn.t) :
  r ∈ parseConnections output unix →
  ∃ idx line p0 p1 p4,
    nonEmptyLines output !! idx = Some line ∧ idx ≠ 0%nat ∧
    Js.includesChar ":"%char line = true ∧
    Js.splitWs (Js.trim line) !! 0%nat = Some p0 ∧
    Js.splitWs (Js.trim line) !! 1%nat = Some p1 ∧
    Js.splitWs (Js.trim line) !! 4%nat = Some p4 ∧
    Conn.protocol r = Js.toUpperCase p0 ∧ Conn.state r = p1 ∧ Conn.local r = p4 ∧
    Conn.remote r = default p4 (Js.splitWs (Js.trim line) !! 5%nat) ∧
    Conn.process r = default "Unknown" (Js.splitWs (Js.trim line) !! 6%nat) ∧
    Conn.family r = None ∧
    Conn.id r = Conn.protocol r +:+ "|" +:+ Conn.local r +:+ "|" +:+ Conn.remote r
                +:+ "|" +:+ Conn.state r.
Proof.
  intros (idx & line & Hline & Hr)%parseConnections_unix.
  apply unixConnectionLine_emits in Hr
    as (Hidx & Hcolon & p0 & p1 & p4 & H0 & H1 & H4 & ->).
  exists idx, line, p0, p1, p4. by repeat split.
Qed.

Lemma X6_unix_record_shape_witness :
  ∃ idx line p0 p1 p4,
    nonEmptyLines (twoLines "Netid State" ssLine) !! idx = Some line ∧ idx ≠ 0%nat ∧
    Js.splitWs (Js.trim line) !! 0%nat = Some p0 ∧
    Js.splitWs (Js.trim line) !! 1%nat = Some p1 ∧
    Js.splitWs (Js.trim line) !! 4%nat = Some p4 ∧
    "TCP" = Js.toUpperCase p0 ∧ "ESTAB" = p1 ∧ "10.0.0.1:22" = p4.
Proof.
  destruct (X6_unix_record_shape (twoLines "Netid State" ssLine)
              (Conn.mk "TCP" "10.0.0.1:22" "10.0.0.2:5555" "ESTAB" "users:sshd" None
                 "TCP|10.0.0.1:22|10.0.0.2:5555|ESTAB"))
    as (idx & line & p0 & p1 & p4 & Hl & Hi & _ & H0 & H1 & H4 & Hp & Hs & Hloc & _).
  - vm_compute. left.
  - by exists idx, line, p0, p1, p4.
Defined.

(** ** Further properties: the process lines and the CSV scanner *)

Section MoreProcessLines.

Lemma join_nonEmpty sep x l : nonEmpty x → nonEmpty (Js.join sep (x :: l)).
Proof.
  destruct x as [|c x]; [done|]. intros _. by destruct l.
Qed.

Lemma elem_of_parseProcesses output osType r :
  r ∈ parseProcesses output osType →
  ∃ idx line,
    nonEmptyLines output !! idx = Some line ∧
    r ∈ match osType with
        | windows => windowsProcessLine [] line idx
        | _ => unixProcessLine [] line idx
        end.
Proof.
  unfold parseProcesses, collectProcesses. cbn zeta. intros Hin%subseteq_take.
  destruct osType.
  - apply elem_of_forEach in Hin; [done|]. intros. apply windowsProcessLine_app.
  - apply elem_of_forEach in Hin; [done|]. intros. apply unixProcessLine_app.
  - apply elem_of_forEach in Hin; [done|]. intros. apply unixProcessLine_app.
Qed.

(** What the Unix and macOS callback pushes for a line that passes its
    tests. *)
Lemma unixProcessLine_emits line idx r :
  r ∈ unixProcessLine [] line idx →
  let parts := Js.splitWs (Js.trim line) in
  idx ≠ 0%nat ∧ (11 ≤ length parts)%nat ∧
  ∃ user pid cpu mem,
    parts !! 0%nat = Some user ∧ parts !! 1%nat = Some pid ∧
    parts !! 2%nat = Some cpu ∧ parts !! 3%nat = Some mem ∧
    r = Proc.mk (Js.join " " (drop 10 parts)) pid user cpu mem
          (Js.join " " (drop 10 parts) +:+ "|" +:+ pid).
Proof.
  unfold unixProcessLine. cbn zeta.
  destruct (idx =? 0)%nat eqn:Hidx; [by intros ?%elem_of_nil|].
  apply Nat.eqb_neq in Hidx.
  destruct (11 <=? length (Js.splitWs (Js.trim line)))%nat eqn:Hlen;
    [|by intros ?%elem_of_nil].
  apply Nat.leb_le in Hlen.
  destruct (lookup_lt_is_Some_2 (Js.splitWs (Js.trim line)) 0) as [user H0]; [lia|].
  destruct (lookup_lt_is_Some_2 (Js.splitWs (Js.trim line)) 1) as [pid H1]; [lia|].
  destruct (lookup_lt_is_Some_2 (Js.splitWs (Js.trim line)) 2) as [cpu H2]; [lia|].
  destruct (lookup_lt_is_Some_2 (Js.splitWs (Js.trim line)) 3) as [mem H3]; [lia|].
  rewrite H0, H1, H2, H3. cbn [str default].
  rewrite app_nil_l, list_elem_of_singleton. intros ->.
  repeat split; try done. by exists user, pid, cpu, mem.
Qed.

Lemma windowsProcessLine_index line idx r :
  r ∈ windowsProcessLine [] line idx →
  (1 ≤ idx)%nat ∧ (2 ≤ length (csvFields line))%nat.
Proof.
  unfold windowsProcessLine. cbn zeta.
  destruct (idx <? 1)%nat eqn:Hidx; [by intros ?%elem_of_nil|].
  apply Nat.ltb_ge in Hidx.
  destruct (2 <=? length (csvFields line))%nat eqn:Hlen; [|by intros ?%elem_of_nil].
  apply Nat.leb_le in Hlen. done.
Qed.

Lemma append_assoc (a b c : string) : (a +:+ b) +:+ c = a +:+ (b +:+ c).
Proof.
  induction a as [|x a IH]; [done|].
  change (String x ((a +:+ b) +:+ c) = String x (a +:+ (b +:+ c))). by rewrite IH.
Qed.

Lemma append_empty_r (a : string) : a +:+ EmptyString = a.
Proof.
  induction a as [|x a IH]; [done|].
  change (String x (a +:+ EmptyString) = String x a). by rewrite IH.
Qed.

Lemma list_ascii_of_string_append (a b : string) :
  list_ascii_of_string (a +:+ b) = list_ascii_of_string a ++ list_ascii_of_string b.
Proof.
  induction a as [|x a IH]; [done|].
  change (x :: list_ascii_of_string (a +:+ b)
          = x :: (list_ascii_of_string a ++ list_ascii_of_string b)).
  by rewrite IH.
Qed.

Lemma scanChars_append a b s : scanChars (a +:+ b) s = scanChars b (scanChars a s).
Proof. unfold scanChars. by rewrite list_ascii_of_string_append, fold_left_app. Qed.

Lemma scanChars_cons c text s : scanChars (String c text) s = scanChars text (scanChar s c).
Proof. done. Qed.

(** Between quotes every character other than a quote is appended. *)
Lemma scanChars_inside f acc cur :
  quoteFree f → scanChars f (mkScan acc cur true) = mkScan acc (cur +:+ f) true.
Proof.
  revert cur. induction f as [|c f IH]; intros cur.
  - intros _. by rewrite append_empty_r.
  - intros [Hc Hf]%quoteFree_cons. rewrite scanChars_cons.
    unfold scanChar. cbn [inQuotes fields current negb].
    rewrite Ascii.eqb_sym, Hc, !andb_false_r. cbn [andb].
    rewrite (IH _ Hf), append_assoc. done.
Qed.

Lemma scanChars_quoted f acc :
  quoteFree f → scanChars (quoted f) (mkScan acc EmptyString false) = mkScan acc f false.
Proof.
  intros Hf. unfold quoted.
  change (String Js.QUOTE f +:+ String Js.QUOTE EmptyString)
    with (String Js.QUOTE (f +:+ String Js.QUOTE EmptyString)).
  rewrite scanChars_cons.
  change (scanChar (mkScan acc EmptyString false) Js.QUOTE)
    with (mkScan acc EmptyString true).
  rewrite scanChars_append, scanChars_inside by done. done.
Qed.

Lemma scanChars_quoted_fields f fs acc :
  Forall quoteFree (f :: fs) →
  scanChars (Js.join "," (map quoted (f :: fs)) +:+ ",") (mkScan acc EmptyString false)
  = mkScan (acc ++ map Js.trim (f :: fs)) EmptyString false.
Proof.
  revert f acc. induction fs as [|g fs IH]; intros f acc [Hf Hfs]%Forall_cons.
  - cbn [map Js.join]. rewrite scanChars_append, scanChars_quoted by done. done.
  - change (Js.join "," (map quoted (f :: g :: fs)))
      with (quoted f +:+ "," +:+ Js.join "," (map quoted (g :: fs))).
    rewrite !append_assoc, scanChars_append, scanChars_quoted by done.
    change ("," +:+ Js.join "," (map quoted (g :: fs)) +:+ ",")
      with (String Js.COMMA (Js.join "," (map quoted (g :: fs)) +:+ ",")).
    rewrite scanChars_cons.
    change (scanChar (mkScan acc f false) Js.COMMA)
      with (mkScan (acc ++ [Js.trim f]) EmptyString false).
    rewrite (IH g _ Hfs), <- app_assoc. done.
Qed.

(** A quote toggles the flag and nothing else touches it. *)
Lemma scanChar_inQuotes s c :
  inQuotes (scanChar s c) = xorb (inQuotes s) (Ascii.eqb c Js.QUOTE).
Proof.
  unfold scanChar. destruct (Ascii.eqb c Js.QUOTE), (inQuotes s); cbn [andb negb];
    try done; by destruct (Ascii.eqb c Js.COMMA).
Qed.

Lemma scanChars_inQuotes text s :
  inQuotes (scanChars text s) = xorb (inQuotes s) (Nat.odd (quoteCount text)).
Proof.
  revert s. induction text as [|c text IH]; intros s.
  - cbn. by rewrite xorb_false_r.
  - rewrite scanChars_cons, IH, scanChar_inQuotes. cbn [quoteCount].
    destruct (Ascii.eqb c Js.QUOTE).
    + change (1 + quoteCount text)%nat with (S (quoteCount text)).
      rewrite Nat.odd_succ, <- Nat.negb_odd.
      by destruct (inQuotes s), (Nat.odd (quoteCount text)).
    + cbn [Nat.add]. by rewrite xorb_false_r.
Qed.

End MoreProcessLines.

(** X7. Every record of the Unix and macOS process parser comes from a
    non-blank line other than the first one that has at least eleven
    tokens: user, pid, cpu and mem are the first four tokens, the name is
    the tokens from the eleventh on joined by single spaces, it is never
    empty, and the identity key is the name and the pid. *)
Theorem X7_unix_process_record_shape (output : string) (osType : OsType) (r : Proc.t) :
  osType ≠ windows →
  r ∈ parseProcesses output osType →
  ∃ idx line,
    nonEmptyLines output !! idx = Some line ∧ idx ≠ 0%nat ∧
    (11 ≤ length (Js.splitWs (Js.trim line)))%nat ∧
    Js.splitWs (Js.trim line) !! 0%nat = Some (Proc.user r) ∧
    Js.splitWs (Js.trim line) !! 1%nat = Some (Proc.pid r) ∧
    Js.splitWs (Js.trim line) !! 2%nat = Some (Proc.cpu r) ∧
    Js.splitWs (Js.trim line) !! 3%nat = Some (Proc.mem r) ∧
    Proc.name r = Js.join " " (drop 10 (Js.splitWs (Js.trim line))) ∧
    nonEmpty (Proc.name r) ∧
    Proc.id r = Proc.name r +:+ "|" +:+ Proc.pid r.
Proof.
  intros Hos (idx & line & Hline & Hr)%elem_of_parseProcesses.
  assert (r ∈ unixProcessLine [] line idx) as Hr' by (by destruct osType).
  apply unixProcessLine_emits in Hr'
    as (Hidx & Hlen & user & pid & cpu & mem & H0 & H1 & H2 & H3 & ->).
  exists idx, line. cbn [Proc.name Proc.pid Proc.user Proc.cpu Proc.mem Proc.id].
  repeat split; try done.
  pose proof (tokens_nonEmpty_long line 11 ltac:(lia) Hlen) as Hall.
  destruct (lookup_lt_is_Some_2 (Js.splitWs (Js.trim line)) 10) as [x Hx]; [lia|].
  rewrite (drop_S _ _ _ Hx). apply join_nonEmpty.
  rewrite Forall_lookup in Hall. by apply (Hall 10%nat).
Qed.

Lemma X7_unix_process_record_shape_witness :
  ∃ idx line,
    nonEmptyLines (twoLines "USER PID" psLine) !! idx = Some line ∧ idx ≠ 0%nat ∧
    "/usr/bin/python3 -m http.server" = Js.join " " (drop 10 (Js.splitWs (Js.trim line))).
Proof.
  destruct (X7_unix_process_record_shape (twoLines "USER PID" psLine) mac
              (Proc.mk "/usr/bin/python3 -m http.server" "4242" "root" "0.3" "1.2"
                 "/usr/bin/python3 -m http.server|4242"))
    as (idx & line & Hl & Hi & _ & _ & _ & _ & _ & Hname & _).
  - discriminate.
  - vm_compute. left.
  - by exists idx, line.
Defined.

(** X8. Every record of the Windows process parser comes from a
    non-blank line other than the first one whose scan gives at least
    two fields: the name and the pid are the first two scanned fields as
    they are, user, cpu and mem are the seventh, eighth and fifth fields,
    replaced by N/A when missing or empty, and the identity key is the
    name and the pid. *)
Theorem X8_windows_process_record_shape (output : string) (r : Proc.t) :
  r ∈ parseProcesses output windows →
  ∃ idx line,
    nonEmptyLines output !! idx = Some line ∧ (1 ≤ idx)%nat ∧
    (2 ≤ length (csvFields line))%nat ∧
    csvFields line !! 0%nat = Some (Proc.name r) ∧
    csvFields line !! 1%nat = Some (Proc.pid r) ∧
    Proc.user r = Js.orElse (csvFields line !! 6%nat) "N/A" ∧
    Proc.cpu r = Js.orElse (csvFields line !! 7%nat) "N/A" ∧
    Proc.mem r = Js.orElse (csvFields line !! 4%nat) "N/A" ∧
    Proc.id r = Proc.name r +:+ "|" +:+ Proc.pid r.
Proof.
  intros (idx & line & Hline & Hr)%elem_of_parseProcesses.
  destruct (windowsProcessLine_index _ _ _ Hr) as [Hidx Hlen].
  apply windowsProcessLine_emits in Hr as (name & pid & Hn & Hp & ->).
  exists idx, line. by repeat split.
Qed.

Lemma X8_windows_process_record_shape_witness :
  ∃ idx line,
    nonEmptyLines (twoLines "Image Name,PID" tasklistLine) !! idx = Some line ∧
    (1 ≤ idx)%nat ∧ csvFields line !! 0%nat = Some "chrome.exe".
Proof.
  destruct (X8_windows_process_record_shape (twoLines "Image Name,PID" tasklistLine)
              (Proc.mk "chrome.exe" "1234" "user1" "2" "50,000 K" "chrome.exe|1234"))
    as (idx & line & Hl & Hi & _ & Hname & _).
  - vm_compute. left.
  - by exists idx, line.
Defined.

(** X9. Scanning is the inverse of quoting: when fields without
    double-quote characters are each put between double quotes and
    joined by commas, the scanner gives back the fields, trimmed,
    whatever commas they contain. *)
Theorem X9_csv_scan_of_quoted_fields (f : string) (fs : list string) :
  Forall quoteFree (f :: fs) →
  csvFields (Js.join "," (map quoted (f :: fs))) = map Js.trim (f :: fs).
Proof.
  intros Hall. unfold csvFields. by rewrite scanChars_quoted_fields.
Qed.

Lemma X9_csv_scan_of_quoted_fields_witness :
  csvFields (Js.join "," (map quoted ["svchost.exe"; " 50,000 K "; "a,b,c"]))
  = map Js.trim ["svchost.exe"; " 50,000 K "; "a,b,c"].
Proof.
  apply (X9_csv_scan_of_quoted_fields "svchost.exe" [" 50,000 K "; "a,b,c"]).
  repeat constructor.
Defined.

(** X10. After a line the scanner is inside quotes exactly when the line
    has an odd number of double-quote characters; the comma appended to
    the line then is taken as text and the last field is lost, while
    with an even number the last field is flushed. *)
Theorem X10_csv_quote_parity (line : string) :
  let s := scanChars line scanStart in
  inQuotes s = Nat.odd (quoteCount line) ∧
  csvFields line =
    if Nat.odd (quoteCount line) then fields s
    else fields s ++ [Js.trim (current s)].
Proof.
  cbn zeta. pose proof (scanChars_inQuotes line scanStart) as Hq.
  cbn [inQuotes scanStart xorb] in Hq. split; [done|].
  unfold csvFields. fold scanStart. rewrite scanChars_append.
  change (scanChars "," (scanChars line scanStart))
    with (scanChar (scanChars line scanStart) Js.COMMA).
  unfold scanChar. rewrite Hq.
  change (Ascii.eqb Js.COMMA Js.QUOTE) with false.
  change (Ascii.eqb Js.COMMA Js.COMMA) with true. cbn [andb].
  by destruct (Nat.odd (quoteCount line)).
Qed.

(** X11. Every record of the Windows connection parser has TCP or UDP as
    its protocol, the first three tokens of its line as protocol, local
    and remote endpoints, no family, and the identity key made of its
    protocol, local, remote and state. *)
Theorem X11_windows_record_shape (output : string) (r : Conn.t) :
  r ∈ parseConnections output windows →
  ∃ line,
    line ∈ nonEmptyLines output ∧
    (Conn.protocol r = "TCP" ∨ Conn.protocol r = "UDP") ∧
    Js.splitWs (Js.trim line) !! 0%nat = Some (Conn.protocol r) ∧
    Js.splitWs (Js.trim line) !! 1%nat = Some (Conn.local r) ∧
    Js.splitWs (Js.trim line) !! 2%nat = Some (Conn.remote r) ∧
    Conn.family r = None ∧
    Conn.id r = Conn.protocol r +:+ "|" +:+ Conn.local r +:+ "|" +:+ Conn.remote r
                +:+ "|" +:+ Conn.state r.
Proof.
  intros (line & Hline & Hr)%parseConnections_windows.
  apply windowsConnectionLine_emits in Hr as (remote & Hp & Hrem & _ & _ & ->).
  exists line. cbn [Conn.protocol Conn.local Conn.remote Conn.state Conn.family Conn.id].
  apply orb_true_iff in Hp. rewrite !tokenIs_spec in Hp.
  destruct (lookup_lt_is_Some_2 (Js.splitWs (Js.trim line)) 1) as [local Hl].
  { apply lookup_lt_Some in Hrem. lia. }
  rewrite Hl. destruct Hp as [Hp|Hp]; rewrite Hp; cbn [str default]; repeat split; auto.
Qed.

Lemma X11_windows_record_shape_witness :
  ∃ line,
    line ∈ nonEmptyLines netstatLine ∧
    Js.splitWs (Js.trim line) !! 1%nat = Some "10.0.0.1:5000".
Proof.
  destruct (X11_windows_record_shape netstatLine
              (Conn.mk "TCP" "10.0.0.1:5000" "10.0.0.2:443" "ESTABLISHED" "Unknown" None
                 "TCP|10.0.0.1:5000|10.0.0.2:443|ESTABLISHED"))
    as (line & Hl & _ & _ & Hloc & _).
  - vm_compute. left.
  - by exists line.
Defined.

(** ** Further properties: the sweep and the cycle *)

Section MoreCycleFacts.

Variable clk : nat → Z.
Variable run : string → CmdResult.

(** Rendering with any clock: each listing is flagged against one
    reading of the clock. *)
Lemma render_rows osType flags connections processes w :
  ∃ w', render clk osType flags connections processes w = (Ok tt, w') ∧
        vars w' = vars w ∧
        ∀ k, ∃ n,
          annotations k (console w') =
          annotations k (console w) ++
          (if enabled k flags
           then map (fun id => (id, isNew (timestamps k (vars w)) (clk n) id))
                    (polledOf k connections processes)
           else []).
Proof.
  destruct flags as [[] []], connections as [|c cs], processes as [|p ps];
    (eexists; split; [reflexivity|]; split; [reflexivity|]);
    intros k; cbn [console vars reads];
    destruct k; cbn [enabled Flags.connections Flags.processes polledOf];
    first [ exists (reads w); rewrite !annotations_app;
            unfold annotations; cbn [map mjoin list_join shownRows];
            rewrite ?app_nil_r, ?List.map_map; reflexivity
          | exists (S (reads w)); rewrite !annotations_app;
            unfold annotations; cbn [map mjoin list_join shownRows];
            rewrite ?app_nil_r, ?List.map_map; reflexivity ].
Qed.

(** A whole cycle whose commands succeed. *)
Lemma monitor_resolved osType flags w :
  (∀ k, enabled k flags = true →
        ∃ stdout stderr, run (commandOf k osType) = Resolved stdout stderr) →
  ∃ connections processes w1,
    pollAll clk run osType flags w = (Ok (connections, processes), w1) ∧
    Grown w w1 ∧
    (∀ k,
       (enabled k flags = true →
          ∃ stdout stderr,
            run (commandOf k osType) = Resolved stdout stderr ∧
            polledOf k connections processes = polledIds k osType stdout ∧
            Diffed clk k (polledIds k osType stdout) w w1) ∧
       (enabled k flags = false →
          Kept k w w1 ∧ polledOf k connections processes = [])) ∧
    (∀ k, previous k (vars (monitor clk run osType flags w)) = previous k (vars w1) ∧
          timestamps k (vars (monitor clk run osType flags w))
          = sweepMap (clk (reads w1)) (timestamps k (vars w1))) ∧
    (∀ k, ∃ n,
       annotations k (console (monitor clk run osType flags w)) =
       annotations k (console w1) ++
       (if enabled k flags
        then map (fun id =>
                    (id, isNew (timestamps k (vars (monitor clk run osType flags w)))
                           (clk n) id))
                 (polledOf k connections processes)
        else [])).
Proof.
  intros Hres.
  destruct (pollAll_resolved clk run osType flags w Hres)
    as (connections & processes & w1 & Hpoll & HG & Hkinds).
  exists connections, processes, w1. split; [done|]. split; [done|]. split; [done|].
  unfold monitor, monitorBody. rewrite (bind_Ok _ _ _ _ _ Hpoll).
  destruct (sweep_spec clk w1) as (w2 & Hsweep & Hc2 & _ & Hvars).
  rewrite (bind_Ok _ _ _ _ _ Hsweep).
  destruct (render_rows osType flags connections processes w2)
    as (w3 & Hrender & Hv3 & Hrows).
  cbn [fst snd]. rewrite Hrender, Hv3. split; [exact Hvars|].
  intros k. destruct (Hrows k) as [n Hn]. exists n. by rewrite Hn, Hc2.
Qed.

End MoreCycleFacts.

(** X12. After a cycle whose commands succeed, the previous set of every
    enabled kind is exactly the set of the identity keys of the current
    poll (it is replaced, not merged); for a disabled kind the previous
    set is unchanged, and its first-seen map is swept all the same. *)
Theorem X12_previous_set_is_current_poll (clk : nat → Z) (run : string → CmdResult)
    (osType : OsType) (flags : Flags.t) (st : State) :
  (∀ k, enabled k flags = true →
        ∃ stdout stderr, run (commandOf k osType) = Resolved stdout stderr) →
  ∀ k,
    (enabled k flags = true →
       ∃ stdout stderr,
         run (commandOf k osType) = Resolved stdout stderr ∧
         previous k (tick clk run osType flags st).1
         = list_to_set (polledIds k osType stdout)) ∧
    (enabled k flags = false →
       previous k (tick clk run osType flags st).1 = previous k st ∧
       ∃ n, timestamps k (tick clk run osType flags st).1
            = sweepMap (clk n) (timestamps k st)).
Proof.
  intros Hres k. unfold tick. cbn [fst].
  destruct (monitor_resolved clk run osType flags (mkWorld st 0 []) Hres)
    as (connections & processes & w1 & _ & _ & Hkinds & Hvars & _).
  destruct (Hvars k) as [-> ->]. destruct (Hkinds k) as [Hon Hoff]. split; intros Hk.
  - destruct (Hon Hk) as (stdout & stderr & Hrun & _ & Hprev & _).
    by exists stdout, stderr.
  - destruct (Hoff Hk) as [[-> ->] _]. split; [done|]. by exists (reads w1).
Qed.

Lemma X12_previous_set_is_current_poll_witness :
  ∃ stdout stderr,
    netstatRuns (commandOf Connections windows) = Resolved stdout stderr ∧
    previous Connections (tick stillClock netstatRuns windows (Flags.mk true false) agedState).1
    = list_to_set (polledIds Connections windows stdout).
Proof.
  destruct (X12_previous_set_is_current_poll stillClock netstatRuns windows
              (Flags.mk true false) agedState) with (k := Connections) as [Hon _].
  - intros k _. by eexists _, _.
  - by apply Hon.
Defined.

(** X13. After a cycle whose commands succeed, every entry of a
    first-seen map either was there before the cycle with the same
    instant, or belongs to a key of the current poll of an enabled kind
    that was not in the previous set and holds an instant read from the
    clock during the cycle: the cycle creates no other entry. *)
Theorem X13_entries_come_from_polls (clk : nat → Z) (run : string → CmdResult)
    (osType : OsType) (flags : Flags.t) (st : State) (k : Kind) (id : string)
    (timestamp : Z) :
  (∀ k, enabled k flags = true →
        ∃ stdout stderr, run (commandOf k osType) = Resolved stdout stderr) →
  timestamps k (tick clk run osType flags st).1 !! id = Some timestamp →
  timestamps k st !! id = Some timestamp ∨
  (enabled k flags = true ∧ (id ∉ previous k st) ∧
   (∃ stdout stderr, run (commandOf k osType) = Resolved stdout stderr ∧
                     id ∈ polledIds k osType stdout) ∧
   ∃ n, timestamp = clk n).
Proof.
  intros Hres. unfold tick. cbn [fst].
  destruct (monitor_resolved clk run osType flags (mkWorld st 0 []) Hres)
    as (connections & processes & w1 & _ & _ & Hkinds & Hvars & _).
  destruct (Hvars k) as [_ ->]. rewrite sweepMap_lookup.
  intros Hentry.
  assert (timestamps k (vars w1) !! id = Some timestamp) as Hw1.
  { unfold swept in Hentry. destruct (timestamps k (vars w1) !! id) as [ts|]; [|done].
    by destruct (clk (reads w1) - ts >? HIGHLIGHT_MS)%Z. }
  clear Hentry. destruct (Hkinds k) as [Hon Hoff].
  destruct (enabled k flags) eqn:Hk.
  - destruct (Hon eq_refl) as (stdout & stderr & Hrun & _ & _ & Hnew & Hold).
    cbn [vars reads] in *.
    destruct (decide (id ∈ polledIds k osType stdout ∧ id ∉ previous k st)) as [[Hin Hid]|Hno].
    + right. destruct (Hnew id Hin Hid) as (n & _ & Hn).
      repeat split; [done| |]; [by exists stdout, stderr|].
      exists n. congruence.
    + left. by rewrite <- (Hold id Hno).
  - destruct (Hoff eq_refl) as [[_ Ht] _]. cbn [vars] in Ht. left. by rewrite <- Ht.
Qed.

Lemma X13_entries_come_from_polls_witness :
  timestamps Connections agedState !! netstatKey = Some 0%Z ∨
  (enabled Connections (Flags.mk true false) = true ∧
   (netstatKey ∉ previous Connections agedState) ∧
   (∃ stdout stderr, netstatRuns (commandOf Connections windows) = Resolved stdout stderr ∧
                     netstatKey ∈ polledIds Connections windows stdout) ∧
   ∃ n, 0%Z = stillClock n).
Proof.
  apply (X13_entries_come_from_polls stillClock netstatRuns windows (Flags.mk true false)
           agedState Connections netstatKey 0%Z).
  - intros k _. by eexists _, _.
  - by vm_compute.
Defined.

(** X14. A cycle whose commands succeed displays, for every enabled
    kind, exactly the records of the current poll in the order of the
    parser, each flagged from the swept first-seen map and one reading
    of the clock, so that records with the same identity key are flagged
    alike; it displays no row for a disabled kind. *)
Theorem X14_display_follows_poll (clk : nat → Z) (run : string → CmdResult)
    (osType : OsType) (flags : Flags.t) (st : State) :
  (∀ k, enabled k flags = true →
        ∃ stdout stderr, run (commandOf k osType) = Resolved stdout stderr) →
  ∀ k,
    (enabled k flags = true →
       ∃ stdout stderr n,
         run (commandOf k osType) = Resolved stdout stderr ∧
         annotations k (tick clk run osType flags st).2
         = map (fun id => (id, isNew (timestamps k (tick clk run osType flags st).1)
                                 (clk n) id))
               (polledIds k osType stdout)) ∧
    (enabled k flags = false → annotations k (tick clk run osType flags st).2 = []).
Proof.
  intros Hres k. unfold tick. cbn [fst snd].
  destruct (monitor_resolved clk run osType flags (mkWorld st 0 []) Hres)
    as (connections & processes & w1 & _ & [(warnings & Hw & HF) _] & Hkinds & _ & Hrows).
  destruct (Hrows k) as [n Hn]. rewrite Hn, Hw. cbn [console app].
  rewrite annotations_warnings, app_nil_l by done.
  destruct (Hkinds k) as [Hon Hoff]. split; intros Hk; rewrite Hk.
  - destruct (Hon Hk) as (stdout & stderr & Hrun & Hids & _).
    exists stdout, stderr, n. by rewrite Hids.
  - done.
Qed.

Lemma X14_display_follows_poll_witness :
  ∃ stdout stderr n,
    netstatRuns (commandOf Connections windows) = Resolved stdout stderr ∧
    annotations Connections
      (tick stillClock netstatRuns windows (Flags.mk true false) agedState).2
    = map (fun id =>
             (id, isNew (timestamps Connections
                           (tick stillClock netstatRuns windows (Flags.mk true false)
                              agedState).1)
                    (stillClock n) id))
          (polledIds Connections windows stdout).
Proof.
  destruct (X14_display_follows_poll stillClock netstatRuns windows
              (Flags.mk true false) agedState) with (k := Connections) as [Hon _].
  - intros k _. by eexists _, _.
  - by apply Hon.
Defined.

(** X15. A key that is absent from one poll and present in the next one
    is displayed as new in that next poll, whatever entry it had before:
    each reappearance after an absence gives a fresh highlight. The
    cycles read one instant each and their commands succeed. *)
Theorem X15_reappearance_is_new (osType : OsType) (flags : Flags.t) (k : Kind)
    (st : State) (absent present : Poll) (id : string) :
  enabled k flags = true →
  resolves absent → resolves present →
  (∀ stdout stderr, outcome absent (commandOf k osType) = Resolved stdout stderr →
                    id ∉ polledIds k osType stdout) →
  presentIn k osType id present →
  (∃ flag, (id, flag) ∈ annotations k (runPolls osType flags absent [present] st).2) ∧
  (∀ flag, (id, flag) ∈ annotations k (runPolls osType flags absent [present] st).2 →
           flag = true).
Proof.
  intros Hk Hra Hrp Habsent Hpresent. cbn [runPolls].
  destruct (tickAt_spec osType flags k absent st Hra Hk)
    as (stdout & stderr & Hrun & Hprev & _).
  cbn zeta in Hprev.
  assert (id ∉ previous k (tickAt osType flags absent st).1) as Hid.
  { rewrite Hprev, elem_of_list_to_set. by apply (Habsent stdout stderr). }
  destruct (tickAt_first osType flags k id present _ Hk Hrp Hpresent Hid) as [_ Hshown].
  exact Hshown.
Qed.

Lemma X15_reappearance_is_new_witness :
  ∃ flag,
    (netstatKey, flag) ∈
      annotations Connections
        (runPolls windows (Flags.mk true false) emptyPoll [netstatPoll]
           (varsAfter windows (Flags.mk true false) [steadyFirst] initialState)).2.
Proof.
  apply (X15_reappearance_is_new windows (Flags.mk true false) Connections
           (varsAfter windows (Flags.mk true false) [steadyFirst] initialState)
           emptyPoll netstatPoll netstatKey).
  - reflexivity.
  - intros command. by eexists _, _.
  - intros command. by eexists _, _.
  - intros stdout stderr [= <- <-]. vm_compute. by intros ?%elem_of_nil.
  - eexists _, _. split; [reflexivity|]. vm_compute. left.
Defined.

Lemma isNew_sweepMap (now : Z) (m : gmap string Z) (id : string) :
  isNew (sweepMap now m) now id = isNew m now id.
Proof.
  unfold isNew. rewrite sweepMap_lookup. unfold swept, HIGHLIGHT_MS.
  destruct (m !! id) as [ts|]; [|done].
  destruct (now - ts >? 30000)%Z eqn:E; [|done].
  symmetry. apply Z.ltb_ge. lia.
Qed.

(** X16. The sweep never changes what is highlighted at its own instant:
    an entry that it deletes is older than the window, so the flag
    computed from the swept map is the flag computed from the map before
    the sweep. *)
Theorem X16_sweep_keeps_highlight (now : Z) (m : gmap string Z) (id : string) :
  isNew (sweepMap now m) now id = isNew m now id.
Proof. apply isNew_sweepMap. Qed.

(** X17. The sweep keeps exactly the entries whose age at its instant is
    at most 30000 ms, with their instants, so that an entry of age
    exactly 30000 ms is kept although it is no longer highlighted; and
    sweeping twice at the same instant is sweeping once. *)
Theorem X17_sweep_keeps_exactly_young_entries (now : Z) (m : gmap string Z) :
  (∀ id timestamp,
     sweepMap now m !! id = Some timestamp ↔
     m !! id = Some timestamp ∧ (now - timestamp ≤ 30000)%Z) ∧
  (∀ id timestamp,
     m !! id = Some timestamp → (now - timestamp = 30000)%Z →
     sweepMap now m !! id = Some timestamp ∧ isNew (sweepMap now m) now id = false) ∧
  sweepMap now (sweepMap now m) = sweepMap now m.
Proof.
  assert (∀ id timestamp,
            sweepMap now m !! id = Some timestamp ↔
            m !! id = Some timestamp ∧ (now - timestamp ≤ 30000)%Z) as Hiff.
  { intros id timestamp. rewrite sweepMap_lookup. unfold swept, HIGHLIGHT_MS.
    destruct (m !! id) as [ts|]; [|by split; [|intros [? _]]].
    destruct (now - ts >? 30000)%Z eqn:E.
    - split; [done|]. intros [[= ->] Hage]. lia.
    - split; [intros [= ->]; split; [done|lia]|by intros [? _]]. }
  split; [exact Hiff|]. split.
  - intros id timestamp Hm Hage. split.
    + apply Hiff. split; [done|lia].
    + rewrite isNew_sweepMap. unfold isNew, HIGHLIGHT_MS. rewrite Hm.
      apply Z.ltb_ge. lia.
  - apply map_eq. intros id. rewrite !sweepMap_lookup. unfold swept.
    destruct (m !! id) as [ts|]; [|done].
    destruct (now - ts >? HIGHLIGHT_MS)%Z eqn:E; [done|]. by rewrite E.
Qed.

Lemma X17_sweep_keeps_exactly_young_entries_witness :
  sweepMap 50000 (timestamps Connections agedState) !! "recent" = Some 20000%Z ∧
  isNew (sweepMap 50000 (timestamps Connections agedState)) 50000 "recent" = false.
Proof.
  destruct (X17_sweep_keeps_exactly_young_entries 50000 (timestamps Connections agedState))
    as (_ & Hedge & _).
  apply (Hedge "recent" 20000%Z); by vm_compute.
Defined.

(** X18. When the previous set of a kind is empty, as it is at start-up,
    a cycle whose commands succeed and that reads one instant displays
    every record of that kind as new. *)
Theorem X18_first_poll_is_all_new (osType : OsType) (flags : Flags.t) (k : Kind)
    (st : State) (p : Poll) (id : string) (flag : bool) :
  enabled k flags = true → resolves p → previous k st = ∅ →
  (id, flag) ∈ annotations k (tickAt osType flags p st).2 → flag = true.
Proof.
  intros Hk Hres Hempty.
  destruct (tickAt_spec osType flags k p st Hres Hk)
    as (stdout & stderr & Hrun & _ & Hnew & _ & Hrows).
  cbn zeta in Hnew, Hrows. rewrite Hrows. intros [Hin ->]%elem_of_rows.
  unfold isNew. rewrite (Hnew id Hin) by (rewrite Hempty; apply not_elem_of_empty).
  unfold swept, HIGHLIGHT_MS. rewrite Z.sub_diag. cbn. by rewrite Z.sub_diag.
Qed.

Lemma X18_first_poll_is_all_new_witness :
  (netstatKey, true) ∈
    annotations Connections (tickAt windows (Flags.mk true false) netstatPoll initialState).2
  ∧ true = true.
Proof.
  assert ((netstatKey, true) ∈
            annotations Connections
              (tickAt windows (Flags.mk true false) netstatPoll initialState).2) as Hflag.
  { vm_compute. left. }
  split; [exact Hflag|].
  apply (X18_first_poll_is_all_new windows (Flags.mk true false) Connections
           initialState netstatPoll netstatKey true); try done.
  intros command. by eexists _, _.
Defined.

(** ** Further properties: failed and repeated polls *)

Section FailedAndRepeatedPolls.

Variable osType : OsType.
Variable flags : Flags.t.

Lemma annotations_error k warnings message :
  Forall isWarning warnings → annotations k (warnings ++ [ConsoleError message]) = [].
Proof.
  intros HF. rewrite annotations_app, annotations_warnings by done. by destruct k.
Qed.

(** A cycle in which the command of kind [k] fails leaves the variables
    of that kind alone and displays no row. *)
Lemma tick_rejected (clk : nat → Z) (run : string → CmdResult) k message st :
  enabled k flags = true →
  run (commandOf k osType) = Rejected message →
  previous k (tick clk run osType flags st).1 = previous k st ∧
  timestamps k (tick clk run osType flags st).1 = timestamps k st ∧
  ∀ k', annotations k' (tick clk run osType flags st).2 = [].
Proof.
  intros Hk Hrun. unfold tick, monitor, monitorBody, pollAll.
  destruct k; cbn [enabled] in Hk.
  - pose proof (pollConnections_rejected clk run osType flags message
                  (mkWorld st 0 []) Hk Hrun) as Hc.
    rewrite (bind_Throw _ _ _ _ _ (bind_Throw _ _ _ _ _ Hc)).
    cbn [fst snd vars console app].
    repeat split; try done. intros k'. by destruct k'.
  - assert ((∃ connections w1,
               pollConnections clk run osType flags (mkWorld st 0 []) = (Ok connections, w1) ∧
               Grown (mkWorld st 0 []) w1 ∧ Kept Processes (mkWorld st 0 []) w1)
            ∨ (∃ m, Flags.connections flags = true ∧
                    run (commandOf Connections osType) = Rejected m)) as Hcases.
    { destruct (Flags.connections flags) eqn:Hon.
      - destruct (run (commandOf Connections osType)) as [m|stdout stderr] eqn:Hr.
        + right. by exists m.
        + left.
          destruct (pollConnections_resolved clk run osType flags _ _ (mkWorld st 0 []) Hon Hr)
            as (w1 & Hp & HG & _ & HK).
          exists (parseConnections stdout osType), w1. split; [done|].
          split; [done|]. by apply HK.
      - left. exists [], (mkWorld st 0 []). unfold pollConnections. rewrite Hon.
        split; [done|]. split; [apply Grown_refl|done]. }
    destruct Hcases as [(connections & w1 & Hc & [(warnings & Hw & HF) _] & [Kp Kt])
                       |(m & Hon & Hr)].
    + pose proof (pollProcesses_rejected clk run osType flags message w1 Hk Hrun) as Hp.
      rewrite (bind_Throw _ _ _ _ _
                 (eq_trans (bind_Ok _ _ _ _ _ Hc) (bind_Throw _ _ _ _ _ Hp))).
      cbn [fst snd vars console] in *. rewrite Hw, app_nil_l.
      repeat split; try done. intros k'. by apply annotations_error.
    + pose proof (pollConnections_rejected clk run osType flags m
                    (mkWorld st 0 []) Hon Hr) as Hc.
      rewrite (bind_Throw _ _ _ _ _ (bind_Throw _ _ _ _ _ Hc)).
      cbn [fst snd vars console app].
      repeat split; try done. intros k'. by destruct k'.
Qed.

Lemma State_eq (a b : State) :
  (∀ k, previous k a = previous k b ∧ timestamps k a = timestamps k b) → a = b.
Proof.
  intros H. destruct (H Connections) as [Hpc Htc], (H Processes) as [Hpp Htp].
  destruct a, b. cbn in *. by subst.
Qed.

Lemma swept_idem now entry : swept now (swept now entry) = swept now entry.
Proof.
  unfold swept. destruct entry as [ts|]; [|done].
  destruct (now - ts >? HIGHLIGHT_MS)%Z eqn:E; [done|]. by rewrite E.
Qed.

(** One tick at a single instant, for a disabled kind. *)
Lemma tickAt_disabled (k : Kind) (p : Poll) (st : State) :
  resolves p → enabled k flags = false →
  previous k (tickAt osType flags p st).1 = previous k st ∧
  timestamps k (tickAt osType flags p st).1 = sweepMap (instant p) (timestamps k st) ∧
  annotations k (tickAt osType flags p st).2 = [].
Proof.
  intros Hres Hk. unfold tickAt, tick. cbn [fst snd].
  destruct (monitor_resolved (fun _ => instant p) (outcome p) osType flags (mkWorld st 0 []))
    as (connections & processes & w1 & _ & [(warnings & Hw & HF) _] & Hkinds & Hvars & Hrows).
  { intros k' _. apply Hres. }
  destruct (Hvars k) as [-> ->]. destruct (Hkinds k) as [_ Hoff].
  destruct (Hoff Hk) as [[-> ->] _]. destruct (Hrows k) as [n ->].
  rewrite Hk, Hw, app_nil_r. cbn [console app vars]. by rewrite annotations_warnings.
Qed.

End FailedAndRepeatedPolls.

(** X19. A poll whose command fails is not an absence: it displays no
    row and leaves the variables of its kind alone, so that a key seen
    before and after the failed poll is not stamped again and is flagged
    in the later poll by its age since the first appearance. The cycles
    read one instant each. *)
Theorem X19_failed_poll_is_not_an_absence (osType : OsType) (flags : Flags.t)
    (k : Kind) (st : State) (first failed last : Poll) (id message : string) :
  enabled k flags = true →
  resolves first → resolves last →
  outcome failed (commandOf k osType) = Rejected message →
  id ∉ previous k st →
  presentIn k osType id first → presentIn k osType id last →
  (instant first ≤ instant last)%Z →
  (∀ k', annotations k' (runPolls osType flags first [failed] st).2 = []) ∧
  (∃ flag, (id, flag) ∈ annotations k (runPolls osType flags first [failed; last] st).2) ∧
  (∀ flag, (id, flag) ∈ annotations k (runPolls osType flags first [failed; last] st).2 →
           flag = (instant last - instant first <? 30000)%Z).
Proof.
  intros Hk Hrf Hrl Hfail Hid Hfirst Hlast Hle. cbn [runPolls].
  destruct (tickAt_first osType flags k id first st Hk Hrf Hfirst Hid) as [[Hin Hentry] _].
  assert (previous k (tickAt osType flags failed (tickAt osType flags first st).1).1
          = previous k (tickAt osType flags first st).1 ∧
          timestamps k (tickAt osType flags failed (tickAt osType flags first st).1).1
          = timestamps k (tickAt osType flags first st).1 ∧
          ∀ k', annotations k'
                  (tickAt osType flags failed (tickAt osType flags first st).1).2 = [])
    as (Hp & Ht & Hnone).
  { exact (tick_rejected osType flags (fun _ => instant failed) (outcome failed) k message
             (tickAt osType flags first st).1 Hk Hfail). }
  split; [exact Hnone|].
  assert (Remembered k id (instant first) (instant first)
            (tickAt osType flags failed (tickAt osType flags first st).1).1) as Hrem.
  { unfold Remembered. by rewrite Hp, Ht. }
  destruct (tickAt_later osType flags k id (instant first) (instant first) last _
              Hk Hrl Hlast Hrem Hle) as [_ Hshown].
  exact Hshown.
Qed.

Lemma X19_failed_poll_is_not_an_absence_witness :
  ∃ flag,
    (netstatKey, flag) ∈
      annotations Connections
        (runPolls windows (Flags.mk true false) steadyFirst [failedPoll; lastPoll]
           initialState).2.
Proof.
  apply (X19_failed_poll_is_not_an_absence windows (Flags.mk true false) Connections
           initialState steadyFirst failedPoll lastPoll netstatKey "spawn netstat ENOENT").
  - reflexivity.
  - intros command. by eexists _, _.
  - intros command. by eexists _, _.
  - reflexivity.
  - apply not_elem_of_empty.
  - eexists _, _. split; [reflexivity|]. vm_compute. left.
  - eexists _, _. split; [reflexivity|]. vm_compute. left.
  - cbn. lia.
Defined.

(** X20. Polling again at the same instant with the same command outputs
    changes nothing: the tracker variables after the second cycle are
    those after the first, and the second cycle displays the same rows
    with the same flags. *)
Theorem X20_same_poll_twice (osType : OsType) (flags : Flags.t) (st : State) (p : Poll) :
  resolves p →
  (tickAt osType flags p (tickAt osType flags p st).1).1 = (tickAt osType flags p st).1 ∧
  ∀ k, annotations k (tickAt osType flags p (tickAt osType flags p st).1).2
       = annotations k (tickAt osType flags p st).2.
Proof.
  intros Hres.
  assert (∀ k,
            (previous k (tickAt osType flags p (tickAt osType flags p st).1).1
             = previous k (tickAt osType flags p st).1 ∧
             timestamps k (tickAt osType flags p (tickAt osType flags p st).1).1
             = timestamps k (tickAt osType flags p st).1) ∧
            annotations k (tickAt osType flags p (tickAt osType flags p st).1).2
            = annotations k (tickAt osType flags p st).2) as Hall.
  { intros k. destruct (enabled k flags) eqn:Hk.
    - destruct (tickAt_spec osType flags k p st Hres Hk)
        as (stdout & stderr & Hrun & Hp1 & Hn1 & Ho1 & Hr1).
      destruct (tickAt_spec osType flags k p (tickAt osType flags p st).1 Hres Hk)
        as (stdout' & stderr' & Hrun' & Hp2 & _ & Ho2 & Hr2).
      rewrite Hrun in Hrun'. injection Hrun' as <- <-. cbn zeta in *.
      assert (timestamps k (tickAt osType flags p (tickAt osType flags p st).1).1
              = timestamps k (tickAt osType flags p st).1) as Hts.
      { apply map_eq. intros id. rewrite Ho2.
        - destruct (decide (id ∈ polledIds k osType stdout ∧ id ∉ previous k st))
            as [[Hin Hid]|Hno].
          + by rewrite (Hn1 id Hin Hid), swept_idem.
          + by rewrite (Ho1 id Hno), swept_idem.
        - rewrite Hp1, elem_of_list_to_set. by intros [? ?]. }
      split; [split; [congruence|exact Hts]|]. by rewrite Hr2, Hr1, Hts.
    - destruct (tickAt_disabled osType flags k p st Hres Hk) as (Hp1 & Ht1 & Hr1).
      destruct (tickAt_disabled osType flags k p (tickAt osType flags p st).1 Hres Hk)
        as (Hp2 & Ht2 & Hr2).
      split; [split; [congruence|]|congruence].
      rewrite Ht2, Ht1. apply map_eq. intros id.
      by rewrite !sweepMap_lookup, swept_idem. }
  split; [apply State_eq; intros k; apply Hall|intros k; apply Hall].
Qed.

Lemma X20_same_poll_twice_witness :
  (tickAt windows (Flags.mk true false) netstatPoll
     (tickAt windows (Flags.mk true false) netstatPoll agedState).1).1
  = (tickAt windows (Flags.mk true false) netstatPoll agedState).1.
Proof.
  apply (X20_same_poll_twice windows (Flags.mk true false) agedState netstatPoll).
  intros command. by eexists _, _.
Defined.

(** ** Further properties: line ends and concatenated outputs *)

Section LineEnds.

Lemma trimEnd_append_space c u :
  Js.isSpace c = true → Js.trimEnd (u +:+ String c EmptyString) = Js.trimEnd u.
Proof.
  intros Hc. induction u as [|d u IH].
  - change (EmptyString +:+ String c EmptyString) with (String c EmptyString).
    rewrite trimEnd_unfold. cbn [Js.trimEnd]. by rewrite Hc.
  - change (String d u +:+ String c EmptyString)
      with (String d (u +:+ String c EmptyString)).
    by rewrite !trimEnd_unfold, IH.
Qed.

Lemma trim_append_space c s :
  Js.isSpace c = true → Js.trim (s +:+ String c EmptyString) = Js.trim s.
Proof.
  intros Hc. unfold Js.trim. induction s as [|d s IH].
  - change (EmptyString +:+ String c EmptyString) with (String c EmptyString).
    cbn [Js.trimStart]. by rewrite Hc.
  - change (String d s +:+ String c EmptyString)
      with (String d (s +:+ String c EmptyString)).
    cbn [Js.trimStart]. destruct (Js.isSpace d); [exact IH|].
    change (String d (s +:+ String c EmptyString))
      with (String d s +:+ String c EmptyString).
    by apply trimEnd_append_space.
Qed.

Lemma startsWith_append_char p s c :
  Js.includesChar c p = false →
  Js.startsWith p (s +:+ String c EmptyString) = Js.startsWith p s.
Proof.
  revert s. induction p as [|a p IH]; intros s; [done|].
  cbn [Js.includesChar]. intros [Hca Hp]%orb_false_iff.
  destruct s as [|b s].
  - change (EmptyString +:+ String c EmptyString) with (String c EmptyString).
    cbn [Js.startsWith]. by rewrite (Ascii.eqb_sym a c), Hca.
  - change (String b s +:+ String c EmptyString)
      with (String b (s +:+ String c EmptyString)).
    cbn [Js.startsWith]. by rewrite IH.
Qed.

Lemma includes_append_char p s c :
  nonEmpty p → Js.includesChar c p = false →
  Js.includes p (s +:+ String c EmptyString) = Js.includes p s.
Proof.
  intros Hne Hc. induction s as [|b s IH].
  - destruct p as [|a p]; [done|].
    cbn [Js.includesChar] in Hc. apply orb_false_iff in Hc as [Hca _].
    change (EmptyString +:+ String c EmptyString) with (String c EmptyString).
    cbn [Js.includes Js.startsWith]. by rewrite (Ascii.eqb_sym a c), Hca.
  - change (String b s +:+ String c EmptyString)
      with (String b (s +:+ String c EmptyString)).
    cbn [Js.includes].
    change (String b (s +:+ String c EmptyString))
      with (String b s +:+ String c EmptyString).
    by rewrite startsWith_append_char, IH.
Qed.

Lemma csvFields_append_space c line :
  Js.isSpace c = true → csvFields (line +:+ String c EmptyString) = csvFields line.
Proof.
  intros Hc. unfold csvFields. rewrite !scanChars_append.
  change (scanChars (String c EmptyString) ?s) with (scanChar s c).
  change (scanChars "," ?s) with (scanChar s Js.COMMA).
  set (st := scanChars line _).
  assert (Ascii.eqb c Js.QUOTE = false) as Hq.
  { destruct (Ascii.eqb_spec c Js.QUOTE) as [->|]; [done|done]. }
  assert (Ascii.eqb c Js.COMMA = false) as Hm.
  { destruct (Ascii.eqb_spec c Js.COMMA) as [->|]; [done|done]. }
  unfold scanChar at 2. rewrite Hq, Hm. cbn [andb].
  unfold scanChar. cbn [inQuotes fields current].
  change (Ascii.eqb Js.COMMA Js.QUOTE) with false.
  change (Ascii.eqb Js.COMMA Js.COMMA) with true. cbn [andb].
  destruct (inQuotes st); cbn [negb fields]; [done|].
  by rewrite trim_append_space.
Qed.

(** White space at the end of a line changes nothing for the callbacks
    and for the filter of the blank lines. *)
Lemma callbacks_append_space c line :
  Js.isSpace c = true →
  let line' := line +:+ String c EmptyString in
  (∀ acc, windowsConnectionLine acc line' = windowsConnectionLine acc line) ∧
  (∀ acc, macConnectionLine acc line' = macConnectionLine acc line) ∧
  (∀ acc idx, unixConnectionLine acc line' idx = unixConnectionLine acc line idx) ∧
  (∀ acc idx, windowsProcessLine acc line' idx = windowsProcessLine acc line idx) ∧
  (∀ acc idx, unixProcessLine acc line' idx = unixProcessLine acc line idx) ∧
  Js.trim line' = Js.trim line.
Proof.
  intros Hc. cbn zeta.
  assert (∀ x, Js.isSpace x = false → Ascii.eqb c x = false) as Hne.
  { intros x Hx. destruct (Ascii.eqb_spec c x) as [->|]; [congruence|done]. }
  repeat split; intros.
  - unfold windowsConnectionLine. by rewrite trim_append_space.
  - unfold macConnectionLine.
    rewrite !includes_append_char, trim_append_space; try done;
      cbn [Js.includesChar]; by rewrite !Hne.
  - unfold unixConnectionLine.
    rewrite includesChar_append, trim_append_space by done.
    cbn [Js.includesChar]. rewrite (Ascii.eqb_sym _ c), Hne by done.
    by rewrite !orb_false_r.
  - unfold windowsProcessLine. by rewrite csvFields_append_space.
  - unfold unixProcessLine. by rewrite trim_append_space.
  - by apply trim_append_space.
Qed.

Lemma split_unlines line lines :
  Forall noLineFeed (line :: lines) →
  Js.split Js.LF (unlines (line :: lines)) = line :: lines.
Proof.
  revert line. induction lines as [|l2 lines IH]; intros line [Hl Hls]%Forall_cons.
  - by apply split_single_line.
  - change (unlines (line :: l2 :: lines))
      with (line +:+ String Js.LF (unlines (l2 :: lines))).
    by rewrite split_first_line, IH.
Qed.

Lemma nonEmptyLines_unlines lines :
  Forall noLineFeed lines →
  nonEmptyLines (unlines lines)
  = filter (fun line => Js.truthy (Js.trim line) = true) lines.
Proof.
  intros Hall. unfold nonEmptyLines. destruct lines as [|line lines]; [done|].
  by rewrite split_unlines.
Qed.

Lemma filter_withCR lines :
  filter (fun line => Js.truthy (Js.trim line) = true) (map withCR lines)
  = map withCR (filter (fun line => Js.truthy (Js.trim line) = true) lines).
Proof.
  induction lines as [|line lines IH]; [done|].
  cbn [map].
  destruct (callbacks_append_space CR line eq_refl) as (_ & _ & _ & _ & _ & Htrim).
  cbn zeta in Htrim. fold (withCR line) in Htrim.
  destruct (decide (Js.truthy (Js.trim line) = true)) as [H|H].
  - rewrite !filter_cons_True, IH by (by rewrite ?Htrim). done.
  - rewrite !filter_cons_False, IH by (by rewrite ?Htrim). done.
Qed.

Lemma forEachFrom_map {A B : Type} (g : A → A) (f : B → A → nat → B) l :
  (∀ acc x i, f acc (g x) i = f acc x i) →
  ∀ i acc, Js.forEachFrom i f (map g l) acc = Js.forEachFrom i f l acc.
Proof.
  intros Hg. induction l as [|x l IH]; intros i acc; [done|].
  cbn [map Js.forEachFrom]. by rewrite Hg, IH.
Qed.

Lemma noLineFeed_withCR line : noLineFeed line → noLineFeed (withCR line).
Proof.
  unfold noLineFeed, withCR. intros H. by rewrite includesChar_append, H.
Qed.

Lemma split_cons sep s : ∃ h t, Js.split sep s = h :: t.
Proof.
  induction s as [|c s (h & t & IH)]; cbn [Js.split]; [eauto|].
  destruct (Ascii.eqb c sep); [eauto|]. rewrite IH. eauto.
Qed.

Lemma split_append a b :
  Js.split Js.LF (a +:+ String Js.LF b) = Js.split Js.LF a ++ Js.split Js.LF b.
Proof.
  induction a as [|c a IH]; [reflexivity|].
  change (String c a +:+ String Js.LF b) with (String c (a +:+ String Js.LF b)).
  cbn [Js.split]. rewrite IH. destruct (Ascii.eqb c Js.LF); [done|].
  by destruct (split_cons Js.LF a) as (h & t & ->).
Qed.

Lemma forEachFrom_append {A B : Type} (f : B → A → nat → B) l1 l2 :
  ∀ i acc,
    Js.forEachFrom i f (l1 ++ l2) acc
    = Js.forEachFrom (i + length l1) f l2 (Js.forEachFrom i f l1 acc).
Proof.
  induction l1 as [|x l1 IH]; intros i acc; cbn [app Js.forEachFrom length].
  - by rewrite Nat.add_0_r.
  - rewrite IH. f_equal. lia.
Qed.

Lemma forEachFrom_shift {A B : Type} (f : B → A → nat → B) l :
  (∀ acc x i j, f acc x i = f acc x j) →
  ∀ i j acc, Js.forEachFrom i f l acc = Js.forEachFrom j f l acc.
Proof.
  intros Hf. induction l as [|x l IH]; intros i j acc; [done|].
  cbn [Js.forEachFrom]. by rewrite (Hf acc x i j), (IH (S i) (S j)).
Qed.

Lemma forEach_append {A B : Type} (f : list B → A → nat → list B) l1 l2 :
  (∀ acc x i, f acc x i = acc ++ f [] x i) →
  (∀ acc x i j, f acc x i = f acc x j) →
  Js.forEach f (l1 ++ l2) [] = Js.forEach f l1 [] ++ Js.forEach f l2 [].
Proof.
  intros Happ Hidx. unfold Js.forEach. rewrite forEachFrom_append.
  rewrite (forEachFrom_shift f l2 Hidx (0 + length l1) 0).
  generalize (Js.forEachFrom 0 f l1 []). intros acc.
  by rewrite (forEachFrom_app f Happ l2 0 acc), (forEachFrom_app f Happ l2 0 []).
Qed.

End LineEnds.

(** X21. Carriage returns at the ends of the lines, as in the output of
    the Windows tools, change nothing: for lines without line feed, the
    records parsed from the lines ended by CR LF are those parsed from
    the lines ended by LF, for both parsers and on every platform. *)
Theorem X21_carriage_returns_are_ignored (lines : list string) (osType : OsType) :
  Forall noLineFeed lines →
  parseConnections (unlines (map withCR lines)) osType
  = parseConnections (unlines lines) osType ∧
  parseProcesses (unlines (map withCR lines)) osType
  = parseProcesses (unlines lines) osType.
Proof.
  intros Hall.
  assert (Forall noLineFeed (map withCR lines)) as Hall'.
  { induction Hall; constructor; [by apply noLineFeed_withCR|done]. }
  unfold parseConnections, parseProcesses, collectProcesses. cbn zeta.
  rewrite !nonEmptyLines_unlines, filter_withCR by done.
  unfold Js.forEach. split.
  - destruct osType; apply forEachFrom_map; intros acc line i;
      destruct (callbacks_append_space CR line eq_refl) as (Hw & Hm & Hu & _);
      [apply Hw|apply Hm|apply Hu].
  - f_equal. destruct osType; apply forEachFrom_map; intros acc line i;
      destruct (callbacks_append_space CR line eq_refl) as (_ & _ & _ & Hw & Hu & _);
      [apply Hw|apply Hu|apply Hu].
Qed.

Lemma X21_carriage_returns_are_ignored_witness :
  parseProcesses (unlines (map withCR ["Image Name,PID"; tasklistLine])) windows
  = parseProcesses (unlines ["Image Name,PID"; tasklistLine]) windows.
Proof.
  apply (X21_carriage_returns_are_ignored ["Image Name,PID"; tasklistLine] windows).
  repeat constructor.
Defined.

(** X22. The Windows and macOS connection parsers work line by line
    without any state: the records of two outputs put one after the
    other are the records of the first followed by the records of the
    second. *)
Theorem X22_connection_outputs_concatenate (a b : string) (osType : OsType) :
  osType ≠ unix →
  parseConnections (a +:+ String Js.LF b) osType
  = parseConnections a osType ++ parseConnections b osType.
Proof.
  intros Hos. unfold parseConnections, nonEmptyLines. cbn zeta.
  rewrite split_append, filter_app.
  destruct osType; [| |done].
  - apply (forEach_append (fun acc line _ => windowsConnectionLine acc line));
      [intros; apply windowsConnectionLine_app|done].
  - apply (forEach_append (fun acc line _ => macConnectionLine acc line));
      [intros; apply macConnectionLine_app|done].
Qed.

Lemma X22_connection_outputs_concatenate_witness :
  parseConnections (netstatLine +:+ String Js.LF netstatShortLine) windows
  = parseConnections netstatLine windows ++ parseConnections netstatShortLine windows.
Proof.
  apply (X22_connection_outputs_concatenate netstatLine netstatShortLine windows).
  discriminate.
Defined.

(** ** Cycles with a clock of their own: the highlight window *)

Section ViewInstants.

Variable osType : OsType.
Variable flags : Flags.t.

(** Rendering with any clock: the read of each listing is not before the
    world it starts from. *)
Lemma render_rows_from (clk : nat → Z) connections processes w :
  ∃ w', render clk osType flags connections processes w = (Ok tt, w') ∧
        vars w' = vars w ∧
        ∀ k, ∃ n,
          (reads w ≤ n)%nat ∧
          annotations k (console w') =
          annotations k (console w) ++
          (if enabled k flags
           then map (fun id => (id, isNew (timestamps k (vars w)) (clk n) id))
                    (polledOf k connections processes)
           else []).
Proof.
  destruct flags as [[] []], connections as [|c cs], processes as [|p ps];
    (eexists; split; [reflexivity|]; split; [reflexivity|]);
    intros k; cbn [console vars reads];
    destruct k; cbn [enabled Flags.connections Flags.processes polledOf];
    first [ exists (reads w); split; [lia|]; rewrite !annotations_app;
            unfold annotations; cbn [map mjoin list_join shownRows];
            rewrite ?app_nil_r, ?List.map_map; reflexivity
          | exists (S (reads w)); split; [lia|]; rewrite !annotations_app;
            unfold annotations; cbn [map mjoin list_join shownRows];
            rewrite ?app_nil_r, ?List.map_map; reflexivity ].
Qed.

(** One cycle whose commands succeed and whose sweep and annotations
    read one instant, for an enabled kind. *)
Lemma tickOf_spec (k : Kind) (c : Cycle) (st : State) :
  succeeds osType flags c → oneView osType flags c st → enabled k flags = true →
  ∃ stdout stderr,
    answers c (commandOf k osType) = Resolved stdout stderr ∧
    let ids := polledIds k osType stdout in
    let st' := (tickOf osType flags c st).1 in
    let view := viewInstant osType flags c st in
    previous k st' = list_to_set ids ∧
    (∀ id, id ∈ ids → id ∉ previous k st →
           ∃ n, (n < pollReads osType flags c st)%nat ∧
                stampedAt k osType flags c st id = Some (clock c n) ∧
                timestamps k st' !! id = swept view (Some (clock c n))) ∧
    (∀ id, ¬ (id ∈ ids ∧ id ∉ previous k st) →
           timestamps k st' !! id = swept view (timestamps k st !! id)) ∧
    annotations k (tickOf osType flags c st).2 =
      map (fun id => (id, isNew (timestamps k st') view id)) ids.
Proof.
  intros Hres Hview Hk.
  destruct (pollAll_resolved (clock c) (answers c) osType flags (mkWorld st 0 []) Hres)
    as (connections & processes & w1 & Hpoll & [(warnings & Hw & HF) _] & Hkinds).
  assert (polledWorld osType flags c st = w1) as Hpw.
  { unfold polledWorld. by rewrite Hpoll. }
  unfold oneView, viewInstant, stampedAt, pollReads in *. rewrite Hpw in *.
  destruct (Hkinds k) as [Hon _].
  destruct (Hon Hk) as (stdout & stderr & Hrun & Hids & Hprev & Hnew & Hold).
  exists stdout, stderr. split; [done|]. cbn zeta.
  unfold tickOf, tick, monitor, monitorBody.
  rewrite (bind_Ok _ _ _ _ _ Hpoll).
  destruct (sweep_spec (clock c) w1) as (w2 & Hsweep & Hc2 & Hr2 & Hvars).
  rewrite (bind_Ok _ _ _ _ _ Hsweep).
  destruct (render_rows_from (clock c) connections processes w2)
    as (w3 & Hrender & Hv3 & Hrows).
  cbn [fst snd]. rewrite Hrender. cbn [fst snd]. rewrite Hv3.
  destruct (Hvars k) as [-> ->]. cbn [vars reads console] in *.
  repeat split.
  - done.
  - intros id Hin Hid. destruct (Hnew id Hin Hid) as (n & Hn & Hts).
    exists n. split; [lia|]. split; [done|]. by rewrite sweepMap_lookup, Hts.
  - intros id Hid. by rewrite sweepMap_lookup, Hold.
  - destruct (Hrows k) as (n & Hn & ->).
    rewrite Hk, Hc2, Hw, app_nil_l, annotations_warnings, app_nil_l by done.
    rewrite Hids, (Hview n) by lia. destruct (Hvars k) as [_ ->]. done.
Qed.

(** The first appearance of a key: it is stamped with a read of the
    insertion step, and its flag follows the age at the instant of the
    sweep. *)
Lemma tickOf_first (k : Kind) (id : string) (c : Cycle) (st : State) :
  enabled k flags = true → succeeds osType flags c → oneView osType flags c st →
  seenIn k osType id c → id ∉ previous k st →
  ∃ n, (n < pollReads osType flags c st)%nat ∧
       stampedAt k osType flags c st id = Some (clock c n) ∧
       Remembered k id (clock c n) (viewInstant osType flags c st)
                  (tickOf osType flags c st).1 ∧
       ShownAs k id (viewInstant osType flags c st - clock c n <? HIGHLIGHT_MS)%Z
               (tickOf osType flags c st).2.
Proof.
  intros Hk Hres Hview (stdout & stderr & Hrun & Hin) Hid.
  destruct (tickOf_spec k c st Hres Hview Hk)
    as (stdout' & stderr' & Hrun' & Hprev & Hnew & _ & Hrows).
  rewrite Hrun in Hrun'. injection Hrun' as <- <-. cbn zeta in *.
  destruct (Hnew id Hin Hid) as (n & Hn & Hstamp & Hts).
  exists n. split; [done|]. split; [done|].
  set (view := viewInstant osType flags c st) in *.
  assert (Remembered k id (clock c n) view (tickOf osType flags c st).1) as Hrem.
  { split; [rewrite Hprev; by apply elem_of_list_to_set|].
    rewrite Hts. unfold swept, HIGHLIGHT_MS.
    destruct (view - clock c n >? 30000)%Z eqn:E; [right|left]; split; try done; lia. }
  split; [done|].
  assert (isNew (timestamps k (tickOf osType flags c st).1) view id
          = (view - clock c n <? HIGHLIGHT_MS)%Z) as Hflag.
  { unfold isNew. destruct Hrem as [_ [[-> Hage]|[-> Hage]]]; [done|].
    symmetry. apply Z.ltb_ge. lia. }
  split.
  - eexists. rewrite Hrows. apply elem_of_rows. by rewrite Hflag.
  - intros flag. rewrite Hrows. intros [_ ->]%elem_of_rows. done.
Qed.

(** A later cycle that still has the key: the entry is not refreshed and
    the flag follows the age at the instant of the sweep. *)
Lemma tickOf_later (k : Kind) (id : string) (t0 t : Z) (c : Cycle) (st : State) :
  enabled k flags = true → succeeds osType flags c → oneView osType flags c st →
  seenIn k osType id c →
  Remembered k id t0 t st → (t ≤ viewInstant osType flags c st)%Z →
  Remembered k id t0 (viewInstant osType flags c st) (tickOf osType flags c st).1 ∧
  ShownAs k id (viewInstant osType flags c st - t0 <? HIGHLIGHT_MS)%Z
          (tickOf osType flags c st).2.
Proof.
  intros Hk Hres Hview (stdout & stderr & Hrun & Hin) [Hid Hentry] Ht.
  destruct (tickOf_spec k c st Hres Hview Hk)
    as (stdout' & stderr' & Hrun' & Hprev & _ & Hold & Hrows).
  rewrite Hrun in Hrun'. injection Hrun' as <- <-. cbn zeta in *.
  set (view := viewInstant osType flags c st) in *.
  specialize (Hold id (fun H => proj2 H Hid)).
  assert (Remembered k id t0 view (tickOf osType flags c st).1) as Hrem.
  { split; [rewrite Hprev; by apply elem_of_list_to_set|].
    rewrite Hold. unfold swept, HIGHLIGHT_MS in *.
    destruct Hentry as [[-> Hage]|[-> Hage]].
    - destruct (view - t0 >? 30000)%Z eqn:E; [right|left]; split; try done; lia.
    - right. split; [done|lia]. }
  split; [done|].
  assert (isNew (timestamps k (tickOf osType flags c st).1) view id
          = (view - t0 <? HIGHLIGHT_MS)%Z) as Hflag.
  { unfold isNew. destruct Hrem as [_ [[-> Hage]|[-> Hage]]]; [done|].
    symmetry. apply Z.ltb_ge. lia. }
  split.
  - eexists. rewrite Hrows. apply elem_of_rows. by rewrite Hflag.
  - intros flag. rewrite Hrows. intros [_ ->]%elem_of_rows. done.
Qed.

(** A run of cycles that all have the key. *)
Lemma runCycles_later (k : Kind) (id : string) (t0 : Z) (later : list Cycle) :
  enabled k flags = true →
  ∀ (first : Cycle) (t : Z) (st : State),
    Remembered k id t0 t st →
    Steady k osType flags id t first later st →
    ShownAs k id (lastView osType flags first later st - t0 <? HIGHLIGHT_MS)%Z
            (runCycles osType flags first later st).2.
Proof.
  intros Hk. induction later as [|c later IH]; intros first t st Hrem Hsteady.
  - destruct Hsteady as (Hres & Hin & Hview & Hle & _).
    by apply (tickOf_later k id t0 t first st).
  - destruct Hsteady as (Hres & Hin & Hview & Hle & Hrest).
    cbn [runCycles lastView].
    destruct (tickOf_later k id t0 t first st Hk Hres Hview Hin Hrem Hle) as [Hrem' _].
    by apply (IH c (viewInstant osType flags first st)).
Qed.

End ViewInstants.

(** C4. A record whose key first appears in a cycle (it is in the poll
    of the cycle and not in the previous set) and is present in every
    later poll gets as first-seen instant a value read from the clock by
    the insertion step of that cycle; at every later cycle, and in that
    cycle itself, it is displayed with isNew = true when the instant of
    the annotation is less than 30000 ms after that first-seen instant,
    and with isNew = false from 30000 ms on. In each cycle the sweep and
    the annotations read the same instant, the reads of the insertion
    step being free, and these instants do not decrease from one cycle
    to the next. *)
Theorem C4_highlight_window (k : Kind) (osType : OsType) (flags : Flags.t)
    (st : State) (first : Cycle) (later : list Cycle) (id : string) :
  enabled k flags = true →
  id ∉ previous k st →
  Steady k osType flags id (viewInstant osType flags first st) first later st →
  ∃ firstSeen n,
    (n < pollReads osType flags first st)%nat ∧
    firstSeen = clock first n ∧
    stampedAt k osType flags first st id = Some firstSeen ∧
    let shown := annotations k (runCycles osType flags first later st).2 in
    let age := (lastView osType flags first later st - firstSeen)%Z in
    (∃ flag, (id, flag) ∈ shown) ∧
    (∀ flag, (id, flag) ∈ shown →
       ((age < 30000)%Z → flag = true) ∧ ((30000 ≤ age)%Z → flag = false)).
Proof.
  intros Hk Hid Hsteady.
  assert (succeeds osType flags first ∧ seenIn k osType id first ∧
          oneView osType flags first st) as (Hres & Hin & Hview).
  { destruct later; by destruct Hsteady as (? & ? & ? & _). }
  destruct (tickOf_first osType flags k id first st Hk Hres Hview Hin Hid)
    as (n & Hn & Hstamp & Hrem & Hshown).
  exists (clock first n), n. split; [done|]. split; [done|]. split; [done|].
  cbn zeta.
  assert (ShownAs k id
            (lastView osType flags first later st - clock first n <? HIGHLIGHT_MS)%Z
            (runCycles osType flags first later st).2) as [Hex Hall].
  { destruct later as [|c later]; [exact Hshown|].
    destruct Hsteady as (_ & _ & _ & _ & Hrest). cbn [runCycles lastView].
    by apply (runCycles_later osType flags k id (clock first n) later Hk c
                (viewInstant osType flags first st)). }
  split; [exact Hex|]. intros flag Hflag. rewrite (Hall flag Hflag).
  unfold HIGHLIGHT_MS. split; intros Hage; [by apply Z.ltb_lt|by apply Z.ltb_ge].
Qed.

Lemma C4_highlight_window_witness :
  ∃ flag,
    (netstatKey, flag) ∈
      annotations Connections
        (runCycles windows (Flags.mk true false) stampedCycle [lateCycle] initialState).2 ∧
    flag = false.
Proof.
  assert (pollReads windows (Flags.mk true false) stampedCycle initialState = 1%nat)
    as Hreads by (vm_compute; reflexivity).
  destruct (C4_highlight_window Connections windows (Flags.mk true false) initialState
              stampedCycle [lateCycle] netstatKey)
    as (firstSeen & n & Hn & Hfirst & Hstamp & [flag Hflag] & Hall).
  - reflexivity.
  - apply not_elem_of_empty.
  - cbn [Steady]. split; [intros k _; by eexists _, _|].
    split; [eexists _, _; split; [reflexivity|vm_compute; left]|].
    split; [unfold oneView, viewInstant; rewrite Hreads; intros [|m] Hm; [lia|reflexivity]|].
    split; [lia|].
    split; [intros k _; by eexists _, _|].
    split; [eexists _, _; split; [reflexivity|vm_compute; left]|].
    split; [intros m _; reflexivity|].
    split; [|exact I].
    unfold viewInstant at 1. rewrite Hreads. unfold viewInstant. cbn. lia.
  - exists flag. split; [exact Hflag|]. apply (Hall flag Hflag).
    rewrite Hreads in Hn. assert (n = 0%nat) as -> by lia. subst firstSeen.
    vm_compute. discriminate.
Defined.

(** The highlight counted from the stamp, computed: a connection stamped
    at 0 and displayed at 5000 is new in its first cycle and is still
    new at 29999, but no longer at 34000, although that is less than
    30000 ms after the instant 5000 of its first display. *)
Example highlight_from_stamp :
  annotations Connections
    (runCycles windows (Flags.mk true false) stampedCycle [] initialState).2
    = [(netstatKey, true)] ∧
  annotations Connections
    (runCycles windows (Flags.mk true false) stampedCycle
       [mkCycle (fun _ => 29999%Z) netstatRuns] initialState).2
    = [(netstatKey, true)] ∧
  annotations Connections
    (runCycles windows (Flags.mk true false) stampedCycle [lateCycle] initialState).2
    = [(netstatKey, false)].
Proof. by vm_compute. Qed.
